(** * JSCalc index updater: a shallow embedding of [update_indices.py]

    The development follows the Python module function by function:
    the SGS fetchers, the daily-to-monthly aggregator, the reader and
    writer of the persisted [.js] data file, the non-regression check, the
    Poupanca series merger, the normalizer [to_pairs] and the two update
    pipelines.

    Modelling conventions.
    - Text is ASCII: a Python [str] is a [string] of 8-bit characters and
      is compared by code point, as Python does.
    - A raw record is a JSON object whose fields ["data"] and ["valor"] are
      strings or absent ([None]); other JSON shapes are outside the typed
      model.
    - A Python [float] is an IEEE 754 binary64 number, [spec_float] with
      precision 53 and maximal exponent 1024; a [complex] is a pair of
      them, and each operation on its parts is rounded on its own.
    - The interpreter is CPython 3.11 on glibc, which matters where
      Python leaves a result to the C library: [strftime] writes the
      year of [%Y] without padding, and a year given to [date] must fit a
      C [int].
    - The files of the machine are the regular files, path to content;
      directories are not among them.
    - A Python [dict] is an insertion-ordered association list with unique
      keys; [sorted] and [list.sort] are a stable sort.
    - Exceptions are the [Raise] results of a small error monad.
    - The outside world (clock, HTTP responses, [libm], I/O faults) is a
      record of oracles, [world]. *)

From Stdlib Require Import ZArith Ascii String List Bool Lia SpecFloat DecimalString.
From stdpp Require Import gmap strings list fin_maps sorting.

Open Scope string_scope.
Open Scope list_scope.
Open Scope Z_scope.

(** ** Exceptions and the error monad *)

Inductive exn : Type :=
  | ValueError
  | KeyError
  | AttributeError
  | TypeError
  | OverflowError
  | ZeroDivisionError
  | FileNotFoundError
  | FileExistsError
  | OSError.

(** [Diverge] is the outcome of a loop that never exits. *)
Inductive result (A : Type) : Type :=
  | Ok (a : A)
  | Raise (e : exn)
  | Diverge.
Arguments Ok {A} a.
Arguments Raise {A} e.
Arguments Diverge {A}.

#[export] Instance result_ret : MRet result := fun A a => Ok a.

#[export] Instance result_bind : MBind result := fun A B k m =>
  match m with
  | Ok a => k a
  | Raise e => Raise e
  | Diverge => Diverge
  end.

Fixpoint rmapM {A B : Type} (f : A -> result B) (l : list A) : result (list B) :=
  match l with
  | [] => Ok []
  | x :: l' => y ← f x; ys ← rmapM f l'; Ok (y :: ys)
  end.

Definition of_option {A : Type} (e : exn) (o : option A) : result A :=
  match o with
  | Some a => Ok a
  | None => Raise e
  end.

(** ** Characters and strings *)

Definition char_code (c : ascii) : Z := Z.of_nat (nat_of_ascii c).

Definition is_digit (c : ascii) : bool :=
  (48 <=? char_code c) && (char_code c <=? 57).

Definition digit_val (c : ascii) : Z := char_code c - 48.

(** [str.isspace] on ASCII: tab to carriage return, the four separators
    [\x1c]..[\x1f], and the blank. Also what the regular expression [\s]
    matches. *)
Definition is_space (c : ascii) : bool :=
  let n := char_code c in
  ((9 <=? n) && (n <=? 13)) || ((28 <=? n) && (n <=? 31)) || (n =? 32).

(** C [isspace], used by [float()] on an ASCII string. *)
Definition is_cspace (c : ascii) : bool :=
  let n := char_code c in
  ((9 <=? n) && (n <=? 13)) || (n =? 32).

Definition to_lower (c : ascii) : ascii :=
  let n := char_code c in
  if (65 <=? n) && (n <=? 90) then ascii_of_nat (Z.to_nat (n + 32)) else c.

Fixpoint str_map (f : ascii -> ascii) (s : string) : string :=
  match s with
  | EmptyString => EmptyString
  | String c s' => String (f c) (str_map f s')
  end.

Fixpoint str_rev_onto (s acc : string) : string :=
  match s with
  | EmptyString => acc
  | String c s' => str_rev_onto s' (String c acc)
  end.

Definition str_rev (s : string) : string := str_rev_onto s EmptyString.

Fixpoint lstrip (sp : ascii -> bool) (s : string) : string :=
  match s with
  | EmptyString => EmptyString
  | String c s' => if sp c then lstrip sp s' else s
  end.

(** [s.strip()] *)
Definition strip_with (sp : ascii -> bool) (s : string) : string :=
  str_rev (lstrip sp (str_rev (lstrip sp s))).

Definition py_strip (s : string) : string := strip_with is_space s.

(** [s.replace(",", ".")] *)
Definition replace_comma (s : string) : string :=
  str_map (fun c => if Ascii.eqb c "," then "."%char else c) s.

(** [s.split(sep)] for a one-character separator. *)
Fixpoint split_on (sep : ascii) (s : string) : list string :=
  match s with
  | EmptyString => [EmptyString]
  | String c s' =>
      if Ascii.eqb c sep then EmptyString :: split_on sep s'
      else match split_on sep s' with
           | [] => [String c EmptyString]
           | p :: ps => String c p :: ps
           end
  end.

(** [s[:n]] *)
Definition str_take (n : nat) (s : string) : string := substring 0 n s.

(** [str(n)] for an [int]. *)
Definition str_of_Z (z : Z) : string := NilZero.string_of_int (Z.to_int z).

Fixpoint zeros (n : nat) : string :=
  match n with
  | O => EmptyString
  | S n' => String "0" (zeros n')
  end.

(** [f"{z:0{w}d}"]: zero padding goes between the sign and the digits. *)
Definition fmt_0d (w : nat) (z : Z) : string :=
  if z <? 0 then
    let ds := str_of_Z (- z) in
    String "-" (zeros (w - 1 - String.length ds) +:+ ds)
  else
    let ds := str_of_Z z in
    zeros (w - String.length ds) +:+ ds.

(** A decimal numeral read as a number; [None] unless all are digits. *)
Fixpoint digits_val_acc (s : string) (acc : Z) : option Z :=
  match s with
  | EmptyString => Some acc
  | String c s' =>
      if is_digit c then digits_val_acc s' (10 * acc + digit_val c) else None
  end.

Definition digits_val (s : string) : option Z := digits_val_acc s 0.

(** ** Calendar dates: [datetime.date] *)

Record date : Type := mkdate { year : Z; month : Z; day : Z }.

#[export] Instance date_eq_dec : EqDecision date.
Proof. solve_decision. Defined.

Definition is_leap (y : Z) : bool :=
  ((y mod 4 =? 0) && negb (y mod 100 =? 0)) || (y mod 400 =? 0).

Definition days_in_month (y m : Z) : Z :=
  if m =? 2 then (if is_leap y then 29 else 28)
  else if (m =? 4) || (m =? 6) || (m =? 9) || (m =? 11) then 30
  else 31.

(** The checks of the [date(y, m, d)] constructor. *)
Definition valid_date (d : date) : bool :=
  (1 <=? year d) && (year d <=? 9999) &&
  (1 <=? month d) && (month d <=? 12) &&
  (1 <=? day d) && (day d <=? days_in_month (year d) (month d)).

(** [date(y, m, d)] for a month and a day that fit a C [int]: it raises
    [OverflowError] when the year does not fit one, and [ValueError] when
    the date is out of range. *)
Definition mk_date (y m d : Z) : result date :=
  if (y <? -2147483648) || (2147483647 <? y) then Raise OverflowError
  else
    let r := mkdate y m d in
    if valid_date r then Ok r else Raise ValueError.

(** Chronological comparison, [d1 <= d2] and [d1 < d2]. *)
Definition date_ord (d : date) : Z := (year d * 16 + month d) * 32 + day d.
Definition date_leb (d1 d2 : date) : bool := date_ord d1 <=? date_ord d2.
Definition date_ltb (d1 d2 : date) : bool := date_ord d1 <? date_ord d2.

(** The directive [%d] of [strptime]:
    [3[0-1]|[1-2]\d|0[1-9]|[1-9]| [1-9]]. *)
Definition parse_pct_d (s : string) : option Z :=
  match s with
  | String a EmptyString =>
      if (49 <=? char_code a) && (char_code a <=? 57) then Some (digit_val a) else None
  | String a (String b EmptyString) =>
      if Ascii.eqb a "3" then
        (if (48 <=? char_code b) && (char_code b <=? 49) then Some (30 + digit_val b) else None)
      else if (49 <=? char_code a) && (char_code a <=? 50) then
        (if is_digit b then Some (10 * digit_val a + digit_val b) else None)
      else if Ascii.eqb a "0" || Ascii.eqb a " " then
        (if (49 <=? char_code b) && (char_code b <=? 57) then Some (digit_val b) else None)
      else None
  | _ => None
  end.

(** The directive [%m]: [1[0-2]|0[1-9]|[1-9]]. *)
Definition parse_pct_m (s : string) : option Z :=
  match s with
  | String a EmptyString =>
      if (49 <=? char_code a) && (char_code a <=? 57) then Some (digit_val a) else None
  | String a (String b EmptyString) =>
      if Ascii.eqb a "1" then
        (if (48 <=? char_code b) && (char_code b <=? 50) then Some (10 + digit_val b) else None)
      else if Ascii.eqb a "0" then
        (if (49 <=? char_code b) && (char_code b <=? 57) then Some (digit_val b) else None)
      else None
  | _ => None
  end.

(** The directive [%Y]: exactly four digits. *)
Definition parse_pct_Y (s : string) : option Z :=
  if Nat.eqb (String.length s) 4 then digits_val s else None.

(** [datetime.strptime(s, "%d/%m/%Y").date()]. The three fields are the
    texts between the slashes, because no directive matches a slash and
    the whole string must be consumed; the date constructor then rejects
    year 0 and days past the end of the month. *)
Definition strptime_dmy (s : string) : option date :=
  match split_on "/" s with
  | [ds; ms; ys] =>
      match parse_pct_d ds, parse_pct_m ms, parse_pct_Y ys with
      | Some d, Some m, Some y =>
          let r := mkdate y m d in
          if valid_date r then Some r else None
      | _, _, _ => None
      end
  | _ => None
  end.

(** [f"{d.year:04d}-{d.month:02d}"] *)
Definition month_key_iso (d : date) : string :=
  fmt_0d 4 (year d) +:+ "-" +:+ fmt_0d 2 (month d).

(** The directive [%Y] of [strftime]. Python hands it to the C library,
    and glibc, the library of the interpreter this development was checked
    against, writes the year as a plain decimal number: [999] for the year
    999, where [%d] and [%m] are padded to two digits. *)
Definition strftime_Y (y : Z) : string := str_of_Z y.

(** [d.strftime("%Y-%m-01")] *)
Definition strftime_month_start (d : date) : string :=
  strftime_Y (year d) +:+ "-" +:+ fmt_0d 2 (month d) +:+ "-01".

(** [d.strftime("%d/%m/%Y")] *)
Definition strftime_dmy (d : date) : string :=
  fmt_0d 2 (day d) +:+ "/" +:+ fmt_0d 2 (month d) +:+ "/" +:+ strftime_Y (year d).

(** [month_key]: [date_iso[:7]] *)
Definition month_key (date_iso : string) : string := str_take 7 date_iso.

(** ** Floating point: Python's [float] as IEEE 754 binary64 *)

Definition float : Type := spec_float.

Definition f_add : float -> float -> float := SFadd 53 1024.
Definition f_sub : float -> float -> float := SFsub 53 1024.
Definition f_mul : float -> float -> float := SFmul 53 1024.
Definition f_div : float -> float -> float := SFdiv 53 1024.
Definition f_abs : float -> float := SFabs.
(** [x > y] *)
Definition f_gtb (x y : float) : bool := SFltb y x.

(** The binary64 number nearest to [m * 10 ^ e] (ties to even), for a
    natural number [m]: what [float()] yields for a decimal literal with
    digits [m] and decimal exponent [e]. *)
Definition float_of_decimal (neg : bool) (m e : Z) : float :=
  match m with
  | Zpos p =>
      if 0 <=? e then binary_round 53 1024 neg (Z.to_pos (Zpos p * 10 ^ e)) 0
      else
        let '(q, e', l) := SFdiv_core_binary 53 1024 (Zpos p) 0 (10 ^ (- e)) 0 in
        binary_round_aux 53 1024 neg q e' l
  | _ => S754_zero neg
  end.

Definition f_one : float := float_of_decimal false 1 0.
Definition f_100 : float := float_of_decimal false 100 0.
Definition f_252 : float := float_of_decimal false 252 0.
(** The literal [1e-12]. *)
Definition f_1e_12 : float := float_of_decimal false 1 (-12).

(** A Python number of the daily series: a [float], or the [complex] that
    [**] makes of a negative base. *)
Inductive num : Type :=
  | Real (x : float)
  | Cplx (re im : float).

(** A [float] promoted to [complex]: the imaginary part is [0.0]. *)
Definition to_complex (a : num) : float * float :=
  match a with
  | Real x => (x, S754_zero false)
  | Cplx re im => (re, im)
  end.

(** [a + b], [a - b] and [a * b]: on two floats the float operation,
    otherwise the sum, the difference and the product of [complex], each
    part computed as written and rounded operation by operation. *)
Definition num_add (a b : num) : num :=
  match a, b with
  | Real x, Real y => Real (f_add x y)
  | _, _ =>
      let '(ar, ai) := to_complex a in
      let '(br, bi) := to_complex b in
      Cplx (f_add ar br) (f_add ai bi)
  end.

Definition num_sub (a b : num) : num :=
  match a, b with
  | Real x, Real y => Real (f_sub x y)
  | _, _ =>
      let '(ar, ai) := to_complex a in
      let '(br, bi) := to_complex b in
      Cplx (f_sub ar br) (f_sub ai bi)
  end.

Definition num_mul (a b : num) : num :=
  match a, b with
  | Real x, Real y => Real (f_mul x y)
  | _, _ =>
      let '(ar, ai) := to_complex a in
      let '(br, bi) := to_complex b in
      Cplx (f_sub (f_mul ar br) (f_mul ai bi)) (f_add (f_mul ar bi) (f_mul ai br))
  end.

Definition f_is_inf (x : float) : bool :=
  match x with S754_infinity _ => true | _ => false end.
Definition f_is_nan (x : float) : bool :=
  match x with S754_nan => true | _ => false end.
Definition f_is_finite (x : float) : bool := negb (f_is_inf x) && negb (f_is_nan x).

(** The rest of a [digitpart], [(["_"] digit)*]: the digits read and the
    text left. *)
Fixpoint digitpart_tail (s : string) : string * string :=
  match s with
  | String c s' =>
      if is_digit c then
        let '(ds, r) := digitpart_tail s' in (String c ds, r)
      else if Ascii.eqb c "_" then
        match s' with
        | String c' s'' =>
            if is_digit c' then
              let '(ds, r) := digitpart_tail s'' in (String c' ds, r)
            else (EmptyString, s)
        | EmptyString => (EmptyString, s)
        end
      else (EmptyString, s)
  | EmptyString => (EmptyString, s)
  end.

(** [digitpart ::= digit (["_"] digit)*], if one starts the text. *)
Definition digitpart (s : string) : option (string * string) :=
  match s with
  | String c s' =>
      if is_digit c then
        let '(ds, r) := digitpart_tail s' in Some (String c ds, r)
      else None
  | EmptyString => None
  end.

Definition opt_digitpart (s : string) : string * string :=
  match digitpart s with
  | Some p => p
  | None => (EmptyString, s)
  end.

(** An optional sign: whether it is a minus, and the text left. *)
Definition read_sign (s : string) : bool * string :=
  match s with
  | String c s' =>
      if Ascii.eqb c "-" then (true, s')
      else if Ascii.eqb c "+" then (false, s')
      else (false, s)
  | EmptyString => (false, s)
  end.

(** [exponent ::= ("e" | "E") [sign] digitpart], up to the end of the
    text; no exponent is exponent 0. *)
Definition read_exponent (s : string) : option Z :=
  match s with
  | EmptyString => Some 0
  | String c s' =>
      if Ascii.eqb (to_lower c) "e" then
        let '(neg, s1) := read_sign s' in
        match digitpart s1 with
        | Some (ds, EmptyString) =>
            match digits_val ds with
            | Some n => Some (if neg then - n else n)
            | None => None
            end
        | _ => None
        end
      else None
  end.

(** [floatnumber ::= ([digitpart] "." digitpart | digitpart ["."]) [exponent]] *)
Definition read_floatnumber (neg : bool) (s : string) : option float :=
  let '(ip, r1) := opt_digitpart s in
  let '(fp, r2) :=
    match r1 with
    | String c r1' => if Ascii.eqb c "." then opt_digitpart r1' else (EmptyString, r1)
    | EmptyString => (EmptyString, r1)
    end in
  if Nat.eqb (String.length ip + String.length fp) 0 then None
  else
    match read_exponent r2, digits_val (ip +:+ fp) with
    | Some ex, Some m => Some (float_of_decimal neg m (ex - Z.of_nat (String.length fp)))
    | _, _ => None
    end.

(** [float(s)] for a string: [None] stands for [ValueError]. *)
Definition py_float (s : string) : option float :=
  let '(neg, r) := read_sign (strip_with is_cspace s) in
  let low := str_map to_lower r in
  if String.eqb low "inf" || String.eqb low "infinity" then Some (S754_infinity neg)
  else if String.eqb low "nan" then Some S754_nan
  else read_floatnumber neg r.

(** Rounding of [n / d] to the nearest integer, ties to even ([0 < d]). *)
Definition div_half_even (n d : Z) : Z :=
  let q := n / d in
  match Z.compare (2 * (n mod d)) d with
  | Lt => q
  | Gt => q + 1
  | Eq => if Z.even q then q else q + 1
  end.

(** [f"{x:.{p}f}"]: [p] decimal places, correctly rounded. *)
Definition fmt_fixed (p : nat) (x : float) : string :=
  match x with
  | S754_nan => "nan"
  | S754_infinity s => if s then "-inf" else "inf"
  | _ =>
      let scale := 10 ^ Z.of_nat p in
      let '(s, n) :=
        match x with
        | S754_finite s m e =>
            (s, if 0 <=? e then Zpos m * scale * 2 ^ e
                else div_half_even (Zpos m * scale) (2 ^ (- e)))
        | S754_zero s => (s, 0)
        | _ => (false, 0)
        end in
      (if s then "-" else "") +:+ str_of_Z (n / scale) +:+
      (if Nat.eqb p 0 then "" else "." +:+ fmt_0d p (n mod scale))
  end.

(** [f"{v:.{p}f}"] for a number: a [complex] is written as its real part,
    its imaginary part with a sign, and [j]. *)
Definition fmt_num (p : nat) (v : num) : string :=
  match v with
  | Real x => fmt_fixed p x
  | Cplx re im =>
      let t := fmt_fixed p im in
      fmt_fixed p re +:+
      (match t with
       | String c _ => if Ascii.eqb c "-" then t else "+" +:+ t
       | EmptyString => "+" +:+ t
       end) +:+ "j"
  end.

(** ** Python containers *)

(** A [dict]: keys are unique and keep the position of their first
    insertion; assigning to a present key replaces the value in place. *)
Section PyDict.
Context {K V : Type} `{EqDecision K}.

Fixpoint dict_set (k : K) (v : V) (d : list (K * V)) : list (K * V) :=
  match d with
  | [] => [(k, v)]
  | (k', v') :: d' =>
      if decide (k = k') then (k, v) :: d' else (k', v') :: dict_set k v d'
  end.

Fixpoint dict_get (k : K) (d : list (K * V)) : option V :=
  match d with
  | [] => None
  | (k', v') :: d' => if decide (k = k') then Some v' else dict_get k d'
  end.

(** [{k: v for k, v in l}] *)
Definition dict_of_pairs (l : list (K * V)) : list (K * V) :=
  fold_left (fun d kv => dict_set kv.1 kv.2 d) l [].
End PyDict.

(** [sorted(l, key=...)]: the order is given as a boolean [le] on the
    elements; equal elements keep their relative order. *)
Section PySorted.
Context {A : Type} (le : A -> A -> bool).

Fixpoint insert_sorted (x : A) (l : list A) : list A :=
  match l with
  | [] => [x]
  | y :: l' => if le x y then x :: y :: l' else y :: insert_sorted x l'
  end.

Definition py_sorted (l : list A) : list A := foldr insert_sorted [] l.

(** The order as a relation. *)
Definition le_rel (x y : A) : Prop := le x y = true.
End PySorted.

(** [s1 < s2] and [s1 <= s2] on strings, as propositions. *)
Definition str_lt (s1 s2 : string) : Prop := String.ltb s1 s2 = true.
Definition str_le (s1 s2 : string) : Prop := String.leb s1 s2 = true.

(** Order on the first component, for [key=lambda x: x[0]] on strings. *)
Definition fst_leb {B : Type} (a b : string * B) : bool := String.leb a.1 b.1.

(** ** Raw records and the outside world *)

(** [{"data": ..., "valor": ...}]; [None] is an absent field. *)
Record item : Type := mkitem { data : option string; valor : option string }.

#[export] Instance item_eq_dec : EqDecision item.
Proof. solve_decision. Defined.

(** Python truthiness of an optional string. *)
Definition truthy (o : option string) : bool :=
  match o with
  | Some s => negb (String.eqb s "")
  | None => false
  end.

(** What can befall a file operation: it succeeds, fails before touching
    its destination, or fails leaving the destination with other content. *)
Inductive io_fault : Type :=
  | NoFault
  | FailClean
  | FailPartial (junk : string).

Record world : Type := mkworld {
  (** [dt.date.today().year] *)
  today_year : Z;
  (** [http_get_json] on the URL built from a series and a date window:
      the decoded body when the request succeeds with a JSON list,
      [None] otherwise. *)
  http_get_json : string -> string -> string -> option (list item);
  (** [x ** y] on floats whose result is a float, computed by [libm];
      [None] when Python raises. *)
  float_pow : float -> float -> option float;
  (** [now_stamp()] *)
  now_stamp : string;
  backup_fault : io_fault;
  serialize_fault : bool;
  write_fault : io_fault;
  restore_fault : io_fault;
  (** What makes [os.makedirs] fail on a path other than its being empty
      or a regular file: a parent that is a file, a permission. *)
  makedirs_fault : string -> option exn;
  (** [x ** y] for a negative [x] and a [y] that is not an integer: the
      real and the imaginary part of the [complex] result, computed by
      [libm]. *)
  complex_pow : float -> float -> float * float;
  (** [hypot] of [libm]. *)
  hypot : float -> float -> float
}.

(** A [libm] for the worlds of the examples, none of which has a negative
    base or a complex number. *)
Definition no_complex_pow : float -> float -> float * float := fun _ _ => (S754_nan, S754_nan).
Definition no_hypot : float -> float -> float := fun _ _ => S754_nan.
Definition no_makedirs_fault : string -> option exn := fun _ => None.

Record Config : Type := mkConfig {
  ROOT_DIR : string;
  BACKUP_DIR : string;
  SGS_SERIE_SELIC_MENSAL : string;
  SGS_SERIE_SELIC_DIARIA_ANN252 : string;
  SGS_SERIE_POUP_MENSAL : string;
  SGS_SERIE_POUP_ANTIGA : string;
  SELIC_JS_NAME : string;
  POUP_JS_NAME : string;
  SELIC_JS_CONST_NAME : string;
  POUP_JS_CONST_NAME : string;
  DECIMALS_JS : nat;
  TREAT_CHANGED_OLD_VALUES_AS_ERROR : bool
}.

Definition CONFIG : Config := {|
  ROOT_DIR := ".";
  BACKUP_DIR := "./backups";
  SGS_SERIE_SELIC_MENSAL := "4390";
  SGS_SERIE_SELIC_DIARIA_ANN252 := "1178";
  SGS_SERIE_POUP_MENSAL := "196";
  SGS_SERIE_POUP_ANTIGA := "7828";
  SELIC_JS_NAME := "selic_data.js";
  POUP_JS_NAME := "poupanca_data.js";
  SELIC_JS_CONST_NAME := "selicFactors";
  POUP_JS_CONST_NAME := "poupancaFactors";
  DECIMALS_JS := 6;
  TREAT_CHANGED_OLD_VALUES_AS_ERROR := false
|}.

(** ** Download from SGS *)

(** The bodies of the chunks that came back as lists, in request order:
    [all_items] after the request loop. *)
Definition gather (w : world) (serie : string) (windows : list (string * string))
  : list item :=
  concat (map (fun win => default [] (http_get_json w serie win.1 win.2)) windows).

(** [out.sort(key=lambda d: to_date(d["data"]))]: the keys are computed
    first, so one unparseable date raises [ValueError]. *)
Definition sort_by_date (out : list item) : result (list item) :=
  keyed ← rmapM (fun it =>
             s ← of_option TypeError (data it);
             d ← of_option ValueError (strptime_dmy s);
             Ok (d, it)) out;
  Ok (map snd (py_sorted (fun a b : date * item => date_leb a.1 b.1) keyed)).

Definition year_windows (start_year end_year : Z) : list (string * string) :=
  map (fun y => ("01/01/" +:+ str_of_Z y, "31/12/" +:+ str_of_Z y))
      (seqZ start_year (end_year + 1 - start_year)).

Definition fetch_sgs_series (w : world) (serie : string) (start_year : Z)
    (end_year : option Z) : result (list item) :=
  let end_year := default (today_year w) end_year in
  let all_items := gather w serie (year_windows start_year end_year) in
  let seen := fold_left (fun seen it => dict_set (data it) (valor it) seen) all_items [] in
  let out := omap (fun kv : option string * option string =>
                     if truthy kv.1 then Some (mkitem kv.1 kv.2) else None) seen in
  sort_by_date out.

(** The windows of the [while y <= d1.year] loop of
    [fetch_sgs_series_range]. A year is between 1 and 9999, so a run that
    ends takes fewer than [loop_fuel] rounds; [Diverge] is the loop that
    never ends. *)
Definition loop_fuel : nat := Z.to_nat 10000.

Fixpoint range_windows (fuel : nat) (d0 d1 : date) (step_years y : Z)
  : result (list (date * date)) :=
  if y <=? year d1 then
    match fuel with
    | O => Diverge
    | S fuel' =>
        ini ← mk_date y 1 1;
        fim ← mk_date (Z.min (y + step_years - 1) (year d1)) 12 31;
        let ini := if date_ltb ini d0 then d0 else ini in
        let fim := if date_ltb d1 fim then d1 else fim in
        rest ← range_windows fuel' d0 d1 step_years (y + step_years);
        Ok ((ini, fim) :: rest)
    end
  else Ok [].

Definition fetch_sgs_series_range (w : world) (serie start_date end_date : string)
    (step_years : Z) : result (list item) :=
  d0 ← of_option ValueError (strptime_dmy start_date);
  d1 ← of_option ValueError (strptime_dmy end_date);
  wins ← range_windows loop_fuel d0 d1 step_years (year d0);
  let all_items :=
    gather w serie (map (fun c : date * date => (strftime_dmy c.1, strftime_dmy c.2)) wins) in
  let seen := fold_left (fun seen it =>
                if truthy (data it) then dict_set (default "" (data it)) (valor it) seen
                else seen) all_items [] in
  let out := map (fun kv : string * option string => mkitem (Some kv.1) kv.2) seen in
  sort_by_date out.

(** [x ** y] for floats, [y] not an integer: a negative finite base gives
    a [complex]; every other base gives a float or raises. *)
Definition py_pow (w : world) (x y : float) : option num :=
  match x with
  | S754_finite true _ _ => let '(re, im) := complex_pow w x y in Some (Cplx re im)
  | _ => Real <$> float_pow w x y
  end.

(** One day of series 1178: the month key and the daily factor, or [None]
    when the record is skipped. *)
Definition daily_factor (w : world) (it : item) : option (string * num) :=
  if negb (truthy (data it)) || negb (truthy (valor it)) then None
  else
    match strptime_dmy (default "" (data it)) with
    | None => None
    | Some d =>
        match py_float (py_strip (replace_comma (default "" (valor it)))) with
        | None => None
        | Some v =>
            let r_aa := f_div v f_100 in
            match py_pow w (f_add f_one r_aa) (f_div f_one f_252) with
            | None => None
            | Some p => Some (month_key_iso d, num_sub p (Real f_one))
            end
        end
    end.

(** [buckets[key].append(fd)] on a [defaultdict(list)]. *)
Definition bucket_append (key : string) (fd : num) (buckets : list (string * list num))
  : list (string * list num) :=
  dict_set key (default [] (dict_get key buckets) ++ [fd]) buckets.

Definition fetch_selic1178_monthly_pairs (w : world) (cfg : Config) (start_year : Z)
  : result (list (string * num)) :=
  items ← fetch_sgs_series w (SGS_SERIE_SELIC_DIARIA_ANN252 cfg) start_year None;
  match items with
  | [] => Ok []
  | _ =>
      let buckets := fold_left (fun b it =>
                       match daily_factor w it with
                       | Some (key, fd) => bucket_append key fd b
                       | None => b
                       end) items [] in
      Ok (map (fun key =>
                 let acc := fold_left (fun acc fd => num_mul acc (num_add (Real f_one) fd))
                              (default [] (dict_get key buckets)) (Real f_one) in
                 (key +:+ "-01", num_sub acc (Real f_one)))
              (py_sorted String.leb (map fst buckets)))
  end.

(** ** Parsing and writing the persisted data file *)

(** Strip a literal prefix. *)
Fixpoint lit (p s : string) : option string :=
  match p with
  | EmptyString => Some s
  | String c p' =>
      match s with
      | String c' s' => if Ascii.eqb c c' then lit p' s' else None
      | EmptyString => None
      end
  end.

(** The longest prefix of characters in a class, and the text left. *)
Fixpoint span (cls : ascii -> bool) (s : string) : string * string :=
  match s with
  | String c s' =>
      if cls c then let '(a, r) := span cls s' in (String c a, r)
      else (EmptyString, s)
  | EmptyString => (EmptyString, s)
  end.

(** [\d{n}] *)
Fixpoint digits_n (n : nat) (s : string) : option (string * string) :=
  match n with
  | O => Some (EmptyString, s)
  | S n' =>
      match s with
      | String c s' =>
          if is_digit c then
            match digits_n n' s' with
            | Some (a, r) => Some (String c a, r)
            | None => None
            end
          else None
      | EmptyString => None
      end
  end.

(** A single or a double quote. *)
Definition quote (s : string) : option string :=
  match s with
  | String c s' =>
      if (char_code c =? 39) || (char_code c =? 34) then Some s' else None
  | EmptyString => None
  end.

(** [\s*] followed by a literal *)
Definition ws_lit (p s : string) : option string := lit p (lstrip is_space s).

(** [\d{4}-\d{2}-\d{2}], captured. *)
Definition iso_date_shape (s : string) : option (string * string) :=
  '(y, r1) ← digits_n 4 s;
  r2 ← lit "-" r1;
  '(m, r3) ← digits_n 2 r2;
  r4 ← lit "-" r3;
  '(d, r5) ← digits_n 2 r4;
  Some (y +:+ "-" +:+ m +:+ "-" +:+ d, r5).

(** [PAIR_RE] matched at the start of a text: the two groups and the text
    after the match. Every repetition of the pattern is followed by a
    character outside its class, so the greedy match is the only one. *)
Definition match_pair (s : string) : option (string * string * string) :=
  r ← lit "{" s;
  r ← ws_lit "date" r;
  r ← ws_lit ":" r;
  r ← quote (lstrip is_space r);
  '(g1, r) ← iso_date_shape r;
  r ← quote r;
  r ← ws_lit "," r;
  r ← ws_lit "factor" r;
  r ← ws_lit ":" r;
  let '(g2, r) := span (fun c => is_digit c || Ascii.eqb c ".") (lstrip is_space r) in
  if String.eqb g2 "" then None
  else
    r ← ws_lit "}" r;
    Some (g1, g2, r).

(** [PAIR_RE.finditer]: the matches from left to right, without overlap.
    [skip] counts the characters of the last match still to pass. *)
Fixpoint finditer_from (skip : nat) (s : string) : list (string * string) :=
  match s with
  | EmptyString => []
  | String _ s' =>
      match skip with
      | S k => finditer_from k s'
      | O =>
          match match_pair s with
          | Some (g1, g2, r) =>
              (g1, g2) :: finditer_from (String.length s - String.length r - 1) s'
          | None => finditer_from O s'
          end
      end
  end.

Definition finditer (s : string) : list (string * string) := finditer_from O s.

(** The files of the machine: path to content. *)
Abbreviation files := (gmap string string).

Definition read_js_pairs (fs : files) (path : string) : result (list (string * float)) :=
  match fs !! path with
  | None => Ok []
  | Some content =>
      out ← rmapM (fun m : string * string =>
                     v ← of_option ValueError (py_float m.2);
                     Ok (m.1, v)) (finditer content);
      Ok (py_sorted fst_leb out)
  end.

Definition nl : string := String (ascii_of_nat 10) EmptyString.

(** ["\n".join(lines)] *)
Fixpoint join_lines (lines : list string) : string :=
  match lines with
  | [] => ""
  | [l] => l
  | l :: ls => l +:+ nl +:+ join_lines ls
  end.

Definition serialize_js (cfg : Config) (const_name : string) (pairs : list (string * float))
  : string :=
  let lines := map (fun p : string * float =>
                 "  { date: '" +:+ p.1 +:+ "', factor: " +:+
                 fmt_fixed (DECIMALS_JS cfg) p.2 +:+ " },") pairs in
  "const " +:+ const_name +:+ " = [" +:+ nl +:+ join_lines lines +:+ nl +:+ "];" +:+ nl.

(** [serialize_js] on the series of the daily source, whose values may be
    complex. *)
Definition serialize_js_num (cfg : Config) (const_name : string) (pairs : list (string * num))
  : string :=
  let lines := map (fun p : string * num =>
                 "  { date: '" +:+ p.1 +:+ "', factor: " +:+
                 fmt_num (DECIMALS_JS cfg) p.2 +:+ " },") pairs in
  "const " +:+ const_name +:+ " = [" +:+ nl +:+ join_lines lines +:+ nl +:+ "];" +:+ nl.

(** ** Paths and file operations *)

Fixpoint last_char (s : string) : option ascii :=
  match s with
  | EmptyString => None
  | String c EmptyString => Some c
  | String _ s' => last_char s'
  end.

Definition starts_with_slash (s : string) : bool :=
  match s with
  | String c _ => Ascii.eqb c "/"
  | EmptyString => false
  end.

(** [os.path.join(a, b)] on POSIX. *)
Definition path_join (a b : string) : string :=
  if starts_with_slash b then b
  else
    match last_char a with
    | None => b
    | Some c => if Ascii.eqb c "/" then a +:+ b else a +:+ "/" +:+ b
    end.

(** [os.path.basename]: what follows the last slash. *)
Definition basename (p : string) : string := List.last (split_on "/" p) "".

Definition join_root (cfg : Config) (name : string) : string :=
  path_join (ROOT_DIR cfg) name.

(** [shutil.copy2(src, dst)]: whether it succeeded, and the files after.
    It raises before writing when the source is missing or is the
    destination itself. *)
Definition copy2 (flt : io_fault) (src dst : string) (fs : files) : bool * files :=
  match fs !! src with
  | None => (false, fs)
  | Some c =>
      if decide (src = dst) then (false, fs)
      else
        match flt with
        | NoFault => (true, <[dst := c]> fs)
        | FailClean => (false, fs)
        | FailPartial junk => (false, <[dst := junk]> fs)
        end
  end.

(** [os.makedirs(path, exist_ok=True)]: it raises for the empty path and
    for a path that is a regular file. Directories are not among the files
    of the model: a call that succeeds leaves [fs] as it is. *)
Definition makedirs (w : world) (fs : files) (path : string) : result unit :=
  if String.eqb path "" then Raise FileNotFoundError
  else if bool_decide (is_Some (fs !! path)) then Raise FileExistsError
  else
    match makedirs_fault w path with
    | Some e => Raise e
    | None => Ok tt
    end.

Definition ensure_dirs (w : world) (cfg : Config) (fs : files) : result unit :=
  _ ← makedirs w fs (ROOT_DIR cfg);
  makedirs w fs (BACKUP_DIR cfg).

(** Every failure, that of its own [ensure_dirs()] included, is caught and
    answered with [None]: [backup_fault] stands for all of them. *)
Definition backup_file (w : world) (cfg : Config) (fs : files) (path : string)
  : option string * files :=
  match fs !! path with
  | None => (None, fs)
  | Some _ =>
      let dest := path_join (BACKUP_DIR cfg)
                    (basename path +:+ "." +:+ now_stamp w +:+ ".bak") in
      let '(ok, fs') := copy2 (backup_fault w) path dest fs in
      (if ok then Some dest else None, fs')
  end.

(** The content goes to [path.tmp], which [os.replace] then renames over
    [path]. The result is: success, the error codes reported, the files. *)
Definition write_atomic (w : world) (fs : files) (path content code_fail : string)
  : bool * list string * files :=
  let tmp := path +:+ ".tmp" in
  match write_fault w with
  | NoFault => (true, [], <[path := content]> (delete tmp fs))
  | FailClean => (false, [code_fail], fs)
  | FailPartial junk => (false, [code_fail], <[tmp := junk]> fs)
  end.

Definition restore_backup (w : world) (fs : files) (latest_backup_path target_path code_fail : string)
  : bool * list string * files :=
  let '(ok, fs') := copy2 (restore_fault w) latest_backup_path target_path fs in
  (ok, if ok then [] else [code_fail], fs').

(** ** The non-regression check *)

(** What [non_regression] answers and reports through [err]: nothing, the
    lost periods, or the first changed periods. *)
Inductive nr_report : Type :=
  | NrPass
  | NrLost (lost : list string)
  | NrChanged (changed : list string).

Definition nr_ok (r : nr_report) : bool :=
  match r with
  | NrPass => true
  | _ => false
  end.

(** [{key(d) for d, _ in pairs}] *)
Definition key_set {B : Type} (key : string -> string) (pairs : list (string * B))
  : gset string :=
  list_to_set (map (fun p => key p.1) pairs).

(** [to_map]: the last value of each key. *)
Definition key_map {B : Type} (key : string -> string) (pairs : list (string * B))
  : list (string * B) :=
  dict_of_pairs (map (fun p => (key p.1, p.2)) pairs).

Definition non_regression (cfg : Config) (old new : list (string * float)) (mode : string)
  : nr_report :=
  let key := if String.eqb mode "month" then month_key else (fun d => d) in
  let old_keys := key_set key old in
  let new_keys := key_set key new in
  let lost := py_sorted String.leb (elements (old_keys ∖ new_keys)) in
  match lost with
  | _ :: _ => NrLost lost
  | [] =>
      if TREAT_CHANGED_OLD_VALUES_AS_ERROR cfg then
        let old_map := key_map key old in
        let new_map := key_map key new in
        let changed :=
          omap (fun kv : string * float =>
                  match dict_get kv.1 new_map with
                  | Some v' =>
                      if f_gtb (f_abs (f_sub kv.2 v')) f_1e_12 then Some kv.1 else None
                  | None => None
                  end) old_map in
        match changed with
        | _ :: _ => NrChanged (take 5 changed)
        | [] => NrPass
        end
      else NrPass
  end.

(** [abs(z)] for a [complex]: [hypot] of its parts. It raises
    [OverflowError] when the parts are finite and the result is not. *)
Definition complex_abs (w : world) (re im : float) : result float :=
  if f_is_finite re && f_is_finite im then
    let h := hypot w re im in
    if f_is_finite h then Ok h else Raise OverflowError
  else if f_is_inf re || f_is_inf im then Ok (S754_infinity false)
  else Ok S754_nan.

(** [abs(o - v) > 1e-12] for a float [o] of the old series. *)
Definition num_far (w : world) (o : float) (v : num) : result bool :=
  match num_sub (Real o) v with
  | Real x => Ok (f_gtb (f_abs x) f_1e_12)
  | Cplx re im => a ← complex_abs w re im; Ok (f_gtb a f_1e_12)
  end.

(** [[x for x in l if f(x)]] where [f] can raise. *)
Fixpoint rfilterM {A : Type} (f : A -> result bool) (l : list A) : result (list A) :=
  match l with
  | [] => Ok []
  | x :: l' => b ← f x; ys ← rfilterM f l'; Ok (if b : bool then x :: ys else ys)
  end.

(** [non_regression] on a candidate of the daily source, whose values may
    be complex: the comparison of the values can then raise. *)
Definition non_regression_num (w : world) (cfg : Config) (old : list (string * float))
    (new : list (string * num)) (mode : string) : result nr_report :=
  let key := if String.eqb mode "month" then month_key else (fun d => d) in
  let old_keys := key_set key old in
  let new_keys := key_set key new in
  let lost := py_sorted String.leb (elements (old_keys ∖ new_keys)) in
  match lost with
  | _ :: _ => Ok (NrLost lost)
  | [] =>
      if TREAT_CHANGED_OLD_VALUES_AS_ERROR cfg then
        let old_map := key_map key old in
        let new_map := key_map key new in
        changed ← rfilterM (fun kv : string * float =>
                     match dict_get kv.1 new_map with
                     | Some v' => num_far w kv.2 v'
                     | None => Ok false
                     end) old_map;
        match changed with
        | _ :: _ => Ok (NrChanged (take 5 (map fst changed)))
        | [] => Ok NrPass
        end
      else Ok NrPass
  end.

(** ** The Poupanca merger *)

Fixpoint rfoldM {A B : Type} (f : B -> A -> result B) (l : list A) (b : B) : result B :=
  match l with
  | [] => Ok b
  | x :: l' => b' ← f b x; rfoldM f l' b'
  end.

(** The month key of a record: [month_key_iso(parse_date(it["data"]))]. *)
Definition item_month (it : item) : result string :=
  s ← of_option KeyError (data it);
  d ← of_option ValueError (strptime_dmy s);
  Ok (month_key_iso d).

(** One round of either loop: the record enters [merged_months] if its
    month is on the side [keep] of the cutover. *)
Definition merge_step (keep : string -> bool) (merged : list (string * option string))
    (it : item) : result (list (string * option string)) :=
  mk ← item_month it;
  Ok (if keep mk then dict_set mk (valor it) merged else merged).

(** [{"data": f"01/{m}/{y}", "valor": merged_months[mk]}] with
    [y, m = mk.split("-")] *)
Definition month_record (merged : list (string * option string)) (mk : string) : result item :=
  match split_on "-" mk with
  | [y; m] =>
      v ← of_option KeyError (dict_get mk merged);
      Ok (mkitem (Some ("01/" +:+ m +:+ "/" +:+ y)) v)
  | _ => Raise ValueError
  end.

Definition merge_poup_series_at (cutoff_month : string) (items_old items_new : list item)
  : result (list item) :=
  merged ← rfoldM (merge_step (fun mk => String.ltb mk cutoff_month)) items_old [];
  merged ← rfoldM (merge_step (fun mk => negb (String.ltb mk cutoff_month))) items_new merged;
  rmapM (month_record merged) (py_sorted String.leb (map fst merged)).

Definition merge_poup_series : list item -> list item -> result (list item) :=
  merge_poup_series_at "2012-06".

(** ** The normalizer *)

(** The body of the loop of [to_pairs]: the pair of a record, or [None]
    when the record is skipped. *)
Definition to_pair (it : item) : option (string * float) :=
  if negb (truthy (data it)) || negb (truthy (valor it)) then None
  else
    match strptime_dmy (default "" (data it)) with
    | None => None
    | Some d =>
        match py_float (py_strip (replace_comma (default "" (valor it)))) with
        | None => None
        | Some v => Some (strftime_month_start d, f_div v f_100)
        end
    end.

(** The last two lines of [to_pairs]: [uniq = {d: v for d, v in out}] and
    [sorted(uniq.items(), key=lambda x: x[0])]. *)
Definition dedup_sort (out : list (string * float)) : list (string * float) :=
  py_sorted fst_leb (dict_of_pairs out).

Definition to_pairs (items : list item) : list (string * float) :=
  dedup_sort (omap to_pair items).

(** What Python hands to [to_pairs] at run time: a record, or a tuple such
    as [to_pairs] itself returns. *)
Inductive pyobj : Type :=
  | PyDict (it : item)
  | PyTuple (p : string * float).

(** [it.get] exists on a [dict] only. *)
Definition as_dict (o : pyobj) : result item :=
  match o with
  | PyDict it => Ok it
  | PyTuple _ => Raise AttributeError
  end.

(** [to_pairs] on untyped input. *)
Definition to_pairs_dyn (objs : list pyobj) : result (list (string * float)) :=
  items ← rmapM as_dict objs;
  Ok (to_pairs items).

(** ** The update pipelines *)

(** How a run ends: a return code with the error codes reported on the
    way and the files left behind, an uncaught exception, or never. *)
Inductive outcome : Type :=
  | Returned (code : Z) (errs : list string) (fs : files)
  | Crashed (e : exn) (fs : files)
  | Hung.

(** A step that can raise, inside a run that has not written yet. *)
Definition run_with {A : Type} (fs : files) (m : result A) (k : A -> outcome) : outcome :=
  match m with
  | Ok a => k a
  | Raise e => Crashed e fs
  | Diverge => Hung
  end.

(** The error codes of one pipeline. *)
Record stage_codes : Type := mkcodes {
  c_fetch : string;
  c_parse : string;
  c_serialize : string;
  c_nonreg : string;
  c_write : string;
  c_restore : string
}.

Definition selic_codes : stage_codes :=
  mkcodes "0xF000101" "0xF000102" "0xF000103" "0xF000104" "0xF000105" "0xF000106".
Definition poup_codes : stage_codes :=
  mkcodes "0xF000201" "0xF000202" "0xF000203" "0xF000204" "0xF000205" "0xF000206".

(** The part both pipelines run once [pairs_new] is computed, from
    [if not pairs_new] to the end; they differ in the error codes and in
    the name of the constant only. This is that part on a candidate of
    floats, which is what [to_pairs] returns. *)
Definition persist (w : world) (cfg : Config) (fs : files) (codes : stage_codes)
    (target const_name nr_mode : string) (pairs_new : list (string * float)) : outcome :=
  match pairs_new with
  | [] => Returned 2 [c_parse codes] fs
  | _ =>
      run_with fs (read_js_pairs fs target) (fun pairs_old =>
        let '(bak, fs1) := backup_file w cfg fs target in
        let report :=
          match pairs_old with
          | [] => NrPass
          | _ => non_regression cfg pairs_old pairs_new nr_mode
          end in
        if negb (nr_ok report) then Returned 3 [c_nonreg codes] fs1
        else if serialize_fault w then Returned 4 [c_serialize codes] fs1
        else
          let js := serialize_js cfg const_name pairs_new in
          let '(ok, e1, fs2) := write_atomic w fs1 target js (c_write codes) in
          if ok then Returned 0 [] fs2
          else
            match bak with
            | Some b =>
                let '(_, e2, fs3) := restore_backup w fs2 b target (c_restore codes) in
                Returned 5 (e1 ++ e2) fs3
            | None => Returned 5 e1 fs2
            end)
  end.

(** The same part on the candidate of the daily source, whose values may
    be complex: the non-regression check can then raise, after the backup
    was made. *)
Definition persist_num (w : world) (cfg : Config) (fs : files) (codes : stage_codes)
    (target const_name nr_mode : string) (pairs_new : list (string * num)) : outcome :=
  match pairs_new with
  | [] => Returned 2 [c_parse codes] fs
  | _ =>
      run_with fs (read_js_pairs fs target) (fun pairs_old =>
        let '(bak, fs1) := backup_file w cfg fs target in
        run_with fs1
          (match pairs_old with
           | [] => Ok NrPass
           | _ => non_regression_num w cfg pairs_old pairs_new nr_mode
           end)
          (fun report =>
             if negb (nr_ok report) then Returned 3 [c_nonreg codes] fs1
             else if serialize_fault w then Returned 4 [c_serialize codes] fs1
             else
               let js := serialize_js_num cfg const_name pairs_new in
               let '(ok, e1, fs2) := write_atomic w fs1 target js (c_write codes) in
               if ok then Returned 0 [] fs2
               else
                 match bak with
                 | Some b =>
                     let '(_, e2, fs3) := restore_backup w fs2 b target (c_restore codes) in
                     Returned 5 (e1 ++ e2) fs3
                 | None => Returned 5 e1 fs2
                 end))
  end.

Definition update_selic (w : world) (cfg : Config) (fs : files) (start_year : Z)
    (nr_mode source : string) : outcome :=
  run_with fs (ensure_dirs w cfg fs) (fun _ =>
    let target := join_root cfg (SELIC_JS_NAME cfg) in
    if String.eqb source "1178" then
      run_with fs (fetch_selic1178_monthly_pairs w cfg start_year) (fun pairs_new =>
        match pairs_new with
        | [] => Returned 1 [c_fetch selic_codes] fs
        | _ => persist_num w cfg fs selic_codes target (SELIC_JS_CONST_NAME cfg) nr_mode
                 pairs_new
        end)
    else
      run_with fs (fetch_sgs_series w (SGS_SERIE_SELIC_MENSAL cfg) start_year None) (fun items =>
        match items with
        | [] => Returned 1 [c_fetch selic_codes] fs
        | _ => persist w cfg fs selic_codes target (SELIC_JS_CONST_NAME cfg) nr_mode
                 (to_pairs items)
        end)).

(** The candidate of [update_poupanca]: the two fetches and the merge. *)
Definition poupanca_items (w : world) (cfg : Config) (start_year : Z) : result (list item) :=
  items_new ← (if start_year <=? 2012
               then fetch_sgs_series_range w (SGS_SERIE_POUP_MENSAL cfg)
                      "01/06/2012" "25/09/2025" 2
               else Ok []);
  items_old ← (if start_year <=? 2012
               then fetch_sgs_series_range w (SGS_SERIE_POUP_ANTIGA cfg)
                      "01/01/1991" "10/05/2012" 2
               else Ok []);
  merge_poup_series items_old items_new.

Definition update_poupanca (w : world) (cfg : Config) (fs : files) (start_year : Z)
    (nr_mode : string) : outcome :=
  run_with fs (ensure_dirs w cfg fs) (fun _ =>
    let target := join_root cfg (POUP_JS_NAME cfg) in
    run_with fs (poupanca_items w cfg start_year) (fun items =>
      match items with
      | [] => Returned 1 [c_fetch poup_codes] fs
      | _ => persist w cfg fs poup_codes target (POUP_JS_CONST_NAME cfg) nr_mode
               (to_pairs items)
      end)).

(** ** Notions the statements use *)

(** Order of pairs by their date. *)
Definition fst_lt {B : Type} (a b : string * B) : Prop := str_lt a.1 b.1.
Definition fst_le {B : Type} (a b : string * B) : Prop := str_le a.1 b.1.

(** The ISO 8601 text of a date, [YYYY-MM-DD]. *)
Definition iso_date (y m d : Z) : string :=
  fmt_0d 4 y +:+ "-" +:+ fmt_0d 2 m +:+ "-" +:+ fmt_0d 2 d.

(** A record [to_pairs] skips: a field is missing or empty, or the date or
    the value does not parse. *)
Definition skipped (it : item) : Prop :=
  data it = None ∨ data it = Some "" ∨ valor it = None ∨ valor it = Some "" ∨
  (∃ s, data it = Some s ∧ strptime_dmy s = None) ∨
  (∃ r, valor it = Some r ∧ py_float (py_strip (replace_comma r)) = None).

(** A month as the pair of its year and its number, and its place in the
    calendar. *)
Definition ym_idx (ym : Z * Z) : Z := 12 * ym.1 + ym.2 - 1.
Definition ym_of_idx (i : Z) : Z * Z := (i / 12, i mod 12 + 1).
Definition ym_leb (a b : Z * Z) : bool := ym_idx a <=? ym_idx b.
Definition ym_valid (ym : Z * Z) : Prop := 1 ≤ ym.1 ≤ 9999 ∧ 1 ≤ ym.2 ≤ 12.

(** The key [YYYY-MM] of a month, as [month_key_iso] writes it. *)
Definition month_text (ym : Z * Z) : string := fmt_0d 4 ym.1 +:+ "-" +:+ fmt_0d 2 ym.2.

(** The text [01/MM/YYYY] of the first day of a month, the year in four
    digits, as the merger writes it. *)
Definition first_of_month (ym : Z * Z) : string :=
  "01/" +:+ fmt_0d 2 ym.2 +:+ "/" +:+ fmt_0d 4 ym.1.

(** The date of a record, when it has one that parses. *)
Definition item_date (it : item) : option date := data it ≫= strptime_dmy.
Definition has_date (it : item) : Prop := is_Some (item_date it).
Definition item_ym (it : item) : option (Z * Z) := (λ d, (year d, month d)) <$> item_date it.
Definition in_month (ym : Z * Z) (it : item) : Prop := item_ym it = Some ym.

#[export] Instance in_month_dec (ym : Z * Z) (it : item) : Decision (in_month ym it).
Proof. unfold in_month. apply _. Defined.

(** The last record of a list that falls in a month. *)
Definition last_in_month (l : list item) (ym : Z * Z) : option item :=
  last (filter (in_month ym) l).

(** The months of a list of records, each once, in calendar order. *)
Definition months_of (l : list item) : list (Z * Z) :=
  py_sorted ym_leb (remove_dups (omap item_ym l)).

(** A series deduplicated by month, the last record of a month winning,
    each date set to the first day of its month, in calendar order. *)
Definition month_dedup (l : list item) : list item :=
  map (λ ym, mkitem (Some (first_of_month ym)) (default None (valor <$> last_in_month l ym)))
      (months_of l).

(** Whether a character is absent from a text. *)
Fixpoint no_char (c : ascii) (s : string) : bool :=
  match s with
  | EmptyString => true
  | String x s' => negb (Ascii.eqb x c) && no_char c s'
  end.

(** Exhaustive checks of the texts of the years 1 to 9999 and of the
    months 1 to 12. *)
Fixpoint all_from (n : nat) (i : Z) (P : Z → bool) : bool :=
  match n with
  | O => true
  | S n' => P i && all_from n' (i + 1) P
  end.

Definition check_year (y : Z) : bool :=
  let t := fmt_0d 4 y in
  Nat.eqb (String.length t) 4 && no_char "-" t && no_char "/" t &&
  bool_decide (parse_pct_Y t = Some y) &&
  ((y =? 9999) || String.ltb t (fmt_0d 4 (y + 1))).

Definition check_month (m : Z) : bool :=
  let t := fmt_0d 2 m in
  Nat.eqb (String.length t) 2 && no_char "-" t && no_char "/" t &&
  bool_decide (parse_pct_m t = Some m) &&
  ((m =? 12) || String.ltb t (fmt_0d 2 (m + 1))).

(** The year as [%Y] writes it: the four digits of [:04d] from the year
    1000 on, fewer digits before. *)
Definition check_year_plain (y : Z) : bool :=
  if y <? 1000
  then negb (Nat.eqb (String.length (strftime_Y y)) (String.length (fmt_0d 4 y)))
  else String.eqb (strftime_Y y) (fmt_0d 4 y).

(** The month key of a record, as the merger computes it. *)
Definition item_key (it : item) : string := default "" (month_text <$> item_ym it).

(** The side of the cutover a record is on, by its month key. *)
Definition on_old_side (c : string) (it : item) : Prop := String.ltb (item_key it) c = true.
Definition on_new_side (c : string) (it : item) : Prop := String.ltb (item_key it) c = false.

#[export] Instance on_old_side_dec (c : string) (it : item) : Decision (on_old_side c it).
Proof. unfold on_old_side. apply _. Defined.

#[export] Instance on_new_side_dec (c : string) (it : item) : Decision (on_new_side c it).
Proof. unfold on_new_side. apply _. Defined.

(** The old records before the cutover, then the new records from it on. *)
Definition cut_at (c : string) (items_old items_new : list item) : list item :=
  filter (on_old_side c) items_old ++ filter (on_new_side c) items_new.

(** The record [month_dedup] makes for a month. *)
Definition month_row (l : list item) (ym : Z * Z) : item :=
  mkitem (Some (first_of_month ym)) (default None (valor <$> last_in_month l ym)).

(** Calendar order of months. *)
Definition ym_lt (a b : Z * Z) : Prop := ym_idx a < ym_idx b.

#[export] Instance ym_lt_dec (a b : Z * Z) : Decision (ym_lt a b).
Proof. unfold ym_lt. apply _. Defined.

(** Chronological order of two records by their parsed dates. *)
Definition item_date_le (a b : item) : Prop :=
  match item_date a, item_date b with
  | Some x, Some y => date_ord x ≤ date_ord y
  | _, _ => False
  end.

(** A record with a date must have one that parses. *)
Definition date_parses_if_any (it : item) : Prop := truthy (data it) = true → has_date it.

(** What a fetcher makes of the records it gathered: sorted ascending by
    the parsed date, one record per date string, and for every date string
    the value of the record gathered last. *)
Definition fetched (all_items out : list item) : Prop :=
  StronglySorted item_date_le out ∧
  NoDup (map data out) ∧
  Forall has_date out ∧
  ∀ k v, mkitem (Some k) v ∈ out ↔
         k ≠ "" ∧ ∃ it, last (filter (λ it, data it = Some k) all_items) = Some it ∧
                        valor it = v.

Definition rec_150 : item := mkitem (Some "01/01/2020") (Some "1,50").
Definition rec_160 : item := mkitem (Some "01/01/2020") (Some "1,60").

(** A data file that lists the same date twice. *)
Definition twice_dated_js : string :=
  "{ date: '2020-01-01', factor: 1.0 } { date: '2020-01-01', factor: 2.0 }".

(** A data file whose factor is not a numeral. *)
Definition bad_factor_js : string := "{ date: '2020-01-01', factor: 1.2.3 }".









Definition nr_gate_num (w : world) (cfg : Config) (old : list (string * float))
    (new : list (string * num)) (mode : string) : result nr_report :=
  match old with
  | [] => Ok NrPass
  | _ => non_regression_num w cfg old new mode
  end.

(** A world for examples: series 4390 has one record in 2020 and one in
    2021, and writing the target fails half-way. *)
Definition world_write_fails : world :=
  mkworld 2021
    (λ _ ini _, if String.eqb ini "01/01/2020" then Some [rec_150]
                else if String.eqb ini "01/01/2021" then Some [rec_160] else None)
    (λ _ _, None) "2021-01-01_000000" NoFault false (FailPartial "const") NoFault
    no_makedirs_fault no_complex_pow no_hypot.

Definition old_selic_js : string := "{ date: '2020-01-15', factor: 0.015 }".

(** A record dated within a window. *)
Definition in_window (d0 d1 : date) (it : item) : Prop :=
  ∃ d, item_date it = Some d ∧ date_ord d0 ≤ date_ord d ≤ date_ord d1.

(** The remote series answers a request with records of the requested
    window only. *)
Definition answers_in_window (w : world) (serie : string) : Prop :=
  ∀ ini fim d0 d1 body,
    strptime_dmy ini = Some d0 → strptime_dmy fim = Some d1 →
    http_get_json w serie ini fim = Some body → Forall (in_window d0 d1) body.

(** The windows [update_poupanca] requests of the new series. *)
Definition poup_new_windows : list (date * date) :=
  [(mkdate 2012 6 1, mkdate 2013 12 31); (mkdate 2014 1 1, mkdate 2015 12 31);
   (mkdate 2016 1 1, mkdate 2017 12 31); (mkdate 2018 1 1, mkdate 2019 12 31);
   (mkdate 2020 1 1, mkdate 2021 12 31); (mkdate 2022 1 1, mkdate 2023 12 31);
   (mkdate 2024 1 1, mkdate 2025 9 25)].

(** A month no later than September 2025. *)
Definition by_2025_09 (ym : Z * Z) : Prop := ym_valid ym ∧ ym_idx ym ≤ ym_idx (2025, 9).

(** A world whose new Poupanca series has one record, of 2020. *)
Definition world_poup_2020 : world :=
  mkworld 2030
    (λ serie ini fim,
       if String.eqb serie "196" && String.eqb ini "01/01/2020" && String.eqb fim "31/12/2021"
       then Some [rec_150] else None)
    (λ _ _, None) "2030-01-01_000000" NoFault false NoFault NoFault
    no_makedirs_fault no_complex_pow no_hypot.

(** The last record of a list that [to_pairs] turns into a given date. *)
Definition last_dated (items : list item) (d : string) : option item :=
  last (filter (λ it, fst <$> to_pair it = Some d) items).

(** The key the non-regression check compares by, for a mode. *)
Definition nr_key (mode : string) : string → string :=
  if String.eqb mode "month" then month_key else (λ d, d).

(** The keys of the old series that the new series lacks, as
    [non_regression] lists them. *)
Definition nr_lost {B : Type} (old : list (string * float)) (new : list (string * B))
    (mode : string) : list string :=
  py_sorted String.leb (elements (key_set (nr_key mode) old ∖ key_set (nr_key mode) new)).

(** No request for a series succeeds. *)
Definition all_requests_fail (w : world) (serie : string) : Prop :=
  ∀ ini fim, http_get_json w serie ini fim = None.


(** A world where nothing fails and series 4390 has the two records of
    2020 and 2021. *)
Definition world_ok : world :=
  mkworld 2021
    (λ _ ini _, if String.eqb ini "01/01/2020" then Some [rec_150]
                else if String.eqb ini "01/01/2021" then Some [rec_160] else None)
    (λ _ _, None) "2021-01-01_000000" NoFault false NoFault NoFault
    no_makedirs_fault no_complex_pow no_hypot.

(** A world where every request fails. *)
Definition world_offline : world :=
  mkworld 2021 (λ _ _ _, None) (λ _ _, None) "2021-01-01_000000" NoFault false NoFault NoFault
    no_makedirs_fault no_complex_pow no_hypot.

(** The files after a first run in [world_ok] on an empty directory. *)
Definition first_run_files : files :=
  <["./selic_data.js" := serialize_js CONFIG "selicFactors" (to_pairs [rec_160])]>
    (delete "./selic_data.js.tmp" ∅).

(** The exception the merger raises at a record it cannot date:
    [it["data"]] on a record without the key, [strptime] otherwise. *)
Definition undated_exn (it : item) : exn :=
  match data it with None => KeyError | Some _ => ValueError end.

(** Windows that tile the days from [a] to [b]: the first begins at [a],
    the last ends at [b], every other one ends on a 31 December and is
    followed by the window that begins on the next day, and none is
    empty. *)
Fixpoint tiles (a : date) (wins : list (date * date)) (b : date) : Prop :=
  match wins with
  | [] => False
  | c :: rest =>
      c.1 = a ∧ date_ord a ≤ date_ord c.2 ∧
      match rest with
      | [] => c.2 = b
      | _ => c.2 = mkdate (year c.2) 12 31 ∧ tiles (mkdate (year c.2 + 1) 1 1) rest b
      end
  end.

(** A world whose series answer the year 2020 with one record dated in
    the ISO form, which [strptime] with the SGS format rejects. *)
Definition rec_iso_dated : item := mkitem (Some "2020-01-01") (Some "1,50").

Definition world_iso_dated : world :=
  mkworld 2020
    (λ _ ini _, if String.eqb ini "01/01/2020" then Some [rec_iso_dated] else None)
    (λ _ _, None) "2021-01-01_000000" NoFault false NoFault NoFault
    no_makedirs_fault no_complex_pow no_hypot.

(** A character of the class [[0-9.]] of [PAIR_RE]. *)
Definition factor_char (c : ascii) : bool := is_digit c || Ascii.eqb c ".".

Fixpoint str_forallb (P : ascii → bool) (s : string) : bool :=
  match s with
  | EmptyString => true
  | String c s' => P c && str_forallb P s'
  end.

Fixpoint str_existsb (P : ascii → bool) (s : string) : bool :=
  match s with
  | EmptyString => false
  | String c s' => P c || str_existsb P s'
  end.

Fixpoint count_char (c : ascii) (s : string) : nat :=
  match s with
  | EmptyString => O
  | String c' s' => (if Ascii.eqb c' c then 1 else 0) + count_char c s'
  end.

(** A text of the class [[0-9.]] that [float()] reads: at most one dot
    and at least one digit. *)
Definition decimal_text (g : string) : Prop :=
  (count_char "." g ≤ 1)%nat ∧ str_existsb is_digit g = true.

#[export] Instance decimal_text_dec (g : string) : Decision (decimal_text g).
Proof. unfold decimal_text. apply _. Defined.

(** A float that [fmt_fixed] writes as digits only: zero or a positive
    finite number. *)
Definition f_plain (x : float) : bool :=
  match x with
  | S754_zero false | S754_finite false _ _ => true
  | _ => false
  end.

(** A date text of the shape [\d{4}-\d{2}-\d{2}] of [PAIR_RE]. *)
Definition iso_shaped (d : string) : Prop := iso_date_shape d = Some (d, "").

#[export] Instance iso_shaped_dec (d : string) : Decision (iso_shaped d).
Proof. unfold iso_shaped. apply _. Defined.

(** What [PAIR_RE] finds of a pair once it is written with [p] decimals:
    its two texts, or nothing when the factor is written with a sign or
    as [nan] or [inf]. *)
Definition written_entry (p : nat) (pr : string * float) : option (string * string) :=
  if f_plain pr.2 then Some (pr.1, fmt_fixed p pr.2) else None.

(** A record that, if it has a date, is dated in the year 1000 or later. *)
Definition from_year_1000 (it : item) : Prop :=
  ∀ d, item_date it = Some d → 1000 ≤ year d.

(** Two months of a series, the second with a negative rate. *)
Definition items_with_negative : list item :=
  [mkitem (Some "01/01/2020") (Some "1,50"); mkitem (Some "01/02/2020") (Some "-0,25")].

(** ** Verification against and restoration of the last backup *)

(** [sorted([os.path.join(CONFIG.BACKUP_DIR, x)
             for x in os.listdir(CONFIG.BACKUP_DIR)
             if x.startswith(target_name)], reverse=True)],
    for the names [os.listdir] answered. *)
Definition backups_of (cfg : Config) (listing : list string) (target_name : string)
  : list string :=
  py_sorted (fun a b => String.leb b a)
    (map (path_join (BACKUP_DIR cfg))
         (filter (fun x => String.prefix target_name x = true) listing)).

(** [restore_last]: the return code, the error codes reported and the
    files. [backup_dir] is [None] when [CONFIG.BACKUP_DIR] is not a
    directory, and its listing otherwise. *)
Definition restore_last (w : world) (cfg : Config) (fs : files)
    (backup_dir : option (list string)) (target_name : string)
  : Z * list string * files :=
  let target := join_root cfg target_name in
  match backup_dir with
  | None => (1, [], fs)
  | Some listing =>
      match backups_of cfg listing target_name with
      | [] => (1, [], fs)
      | last :: _ =>
          let '(ok, errs, fs') := restore_backup w fs last target "0xF000998" in
          (if ok then 0 else 2, errs, fs')
      end
  end.

(** [verify]: the return code and the error codes reported. The target
    is read before the backup directory is looked at. *)
Definition verify (cfg : Config) (fs : files) (backup_dir : option (list string))
    (target_name nr_mode : string) : result (Z * list string) :=
  let target := join_root cfg target_name in
  current ← read_js_pairs fs target;
  match backup_dir with
  | None => Ok (0, [])
  | Some listing =>
      match backups_of cfg listing target_name with
      | [] => Ok (0, [])
      | last :: _ =>
          backup_data ← read_js_pairs fs last;
          if nr_ok (non_regression cfg backup_data current nr_mode) then Ok (0, [])
          else Ok (1, ["0xF000999"])
      end
  end.

(** ** The table update of [updatetjsp.py] *)

(** [atualizar_tabela]: a copy of the existing table to which the keys
    it lacks are added, in the order of the new table. *)
Definition atualizar_tabela {V : Type} (tabela_existente tabela_nova : list (string * V))
  : list (string * V) :=
  fold_left (fun tabela_final kv =>
               match dict_get kv.1 tabela_final with
               | Some _ => tabela_final
               | None => dict_set kv.1 kv.2 tabela_final
               end) tabela_nova tabela_existente.

(** A directory listing with two backups of the SELIC file and one of
    the Poupanca file. *)
Definition listing_two_backups : list string :=
  ["selic_data.js.2021-01-01_000000.bak"; "poupanca_data.js.2022-01-01_000000.bak";
   "selic_data.js.2021-06-01_000000.bak"].

Definition files_two_backups : files :=
  <["./backups/selic_data.js.2021-06-01_000000.bak" := old_selic_js]>
    (<["./backups/selic_data.js.2021-01-01_000000.bak" := "older"]>
       {[ "./selic_data.js" := "current" ]}).


(** A world whose daily series has one record, a rate of -200 percent a
    year, and whose [libm] gives [(-1.0) ** (1/252)] as CPython prints
    it. *)
Definition rec_minus_200 : item := mkitem (Some "02/01/2020") (Some "-200,00").

Definition world_minus_200 : world :=
  mkworld 2020
    (λ serie ini _, if String.eqb serie "1178" && String.eqb ini "01/01/2020"
                    then Some [rec_minus_200] else None)
    (λ _ _, None) "2020-02-01_000000" NoFault false NoFault NoFault
    no_makedirs_fault
    (λ _ _, (float_of_decimal false 9999222924809749 (-16),
             float_of_decimal false 12466314595415034 (-18)))
    no_hypot.

(** The file a run in that world writes. *)
Definition complex_selic_js : string :=
  "const selicFactors = [" +:+ nl +:+
  "  { date: '2020-01-01', factor: -0.000078+0.012466j }," +:+ nl +:+
  "];" +:+ nl.

(** * Properties *)

(** ** The order of strings *)

Lemma ascii_compare_refl (c : ascii) : Ascii.compare c c = Eq.
Proof. unfold Ascii.compare. apply N.compare_refl. Qed.

Lemma ascii_compare_eq (c1 c2 : ascii) : Ascii.compare c1 c2 = Eq → c1 = c2.
Proof.
  unfold Ascii.compare. intros Hc. apply N.compare_eq in Hc.
  rewrite <- (ascii_N_embedding c1), <- (ascii_N_embedding c2). by rewrite Hc.
Qed.

Lemma ascii_compare_lt_trans (a b c : ascii) :
  Ascii.compare a b = Lt → Ascii.compare b c = Lt → Ascii.compare a c = Lt.
Proof.
  unfold Ascii.compare. rewrite !N.compare_lt_iff. apply N.lt_trans.
Qed.

Lemma ascii_compare_gt_lt (a b : ascii) :
  Ascii.compare a b = Gt → Ascii.compare b a = Lt.
Proof. unfold Ascii.compare. rewrite N.compare_gt_iff, N.compare_lt_iff. done. Qed.

Lemma str_compare_refl (s : string) : String.compare s s = Eq.
Proof. induction s as [|c s IH]; simpl; [done|]. by rewrite ascii_compare_refl. Qed.

Lemma str_compare_eq (s1 s2 : string) : String.compare s1 s2 = Eq → s1 = s2.
Proof.
  revert s2. induction s1 as [|c1 s1 IH]; intros [|c2 s2]; simpl; try done.
  destruct (Ascii.compare c1 c2) eqn:E; try done.
  intros H. apply ascii_compare_eq in E. apply IH in H. by subst.
Qed.

Lemma str_compare_lt_trans (a b c : string) :
  String.compare a b = Lt → String.compare b c = Lt → String.compare a c = Lt.
Proof.
  revert b c. induction a as [|x a IH]; intros [|y b] [|z c]; simpl; try done.
  destruct (Ascii.compare x y) eqn:E1; try done;
    destruct (Ascii.compare y z) eqn:E2; try done; intros H1 H2.
  - apply ascii_compare_eq in E1, E2. subst. rewrite ascii_compare_refl. eauto.
  - apply ascii_compare_eq in E1. subst. by rewrite E2.
  - apply ascii_compare_eq in E2. subst. by rewrite E1.
  - by rewrite (ascii_compare_lt_trans _ _ _ E1 E2).
Qed.

Lemma str_compare_gt_lt (a b : string) :
  String.compare a b = Gt → String.compare b a = Lt.
Proof.
  revert b. induction a as [|x a IH]; intros [|y b]; simpl; try done.
  destruct (Ascii.compare x y) eqn:E; try done.
  - apply ascii_compare_eq in E. subst. rewrite ascii_compare_refl. apply IH.
  - intros _. by rewrite (ascii_compare_gt_lt _ _ E).
Qed.

Lemma str_compare_lt_gt (a b : string) :
  String.compare a b = Lt → String.compare b a = Gt.
Proof.
  intros H. destruct (String.compare b a) eqn:E; [|exfalso|done].
  - apply str_compare_eq in E. subst. by rewrite str_compare_refl in H.
  - pose proof (str_compare_lt_trans _ _ _ H E) as H'.
    by rewrite str_compare_refl in H'.
Qed.

Lemma str_lt_compare (a b : string) : str_lt a b ↔ String.compare a b = Lt.
Proof. unfold str_lt, String.ltb. by destruct (String.compare a b). Qed.

Lemma str_le_lt_eq (a b : string) : str_le a b ↔ str_lt a b ∨ a = b.
Proof.
  unfold str_le, String.leb. rewrite str_lt_compare.
  destruct (String.compare a b) eqn:E.
  - apply str_compare_eq in E. naive_solver.
  - naive_solver.
  - split; [done|]. intros [?| ->]; [done|]. by rewrite str_compare_refl in E.
Qed.

Lemma str_lt_irrefl (a : string) : ¬ str_lt a a.
Proof. rewrite str_lt_compare, str_compare_refl. done. Qed.

Lemma str_lt_trans (a b c : string) : str_lt a b → str_lt b c → str_lt a c.
Proof. rewrite !str_lt_compare. apply str_compare_lt_trans. Qed.

Lemma str_le_refl (a : string) : str_le a a.
Proof. apply str_le_lt_eq. by right. Qed.

Lemma str_le_trans (a b c : string) : str_le a b → str_le b c → str_le a c.
Proof.
  rewrite !str_le_lt_eq. intros [H1| ->] [H2| ->]; eauto using str_lt_trans.
Qed.

Lemma str_le_antisym (a b : string) : str_le a b → str_le b a → a = b.
Proof.
  rewrite !str_le_lt_eq. intros [H1|?] [H2|?]; try done.
  destruct (str_lt_irrefl a). eauto using str_lt_trans.
Qed.

Lemma str_le_total (a b : string) : str_le a b ∨ str_le b a.
Proof.
  unfold str_le, String.leb. destruct (String.compare a b) eqn:E; auto.
  right. by rewrite (str_compare_gt_lt _ _ E).
Qed.

Lemma str_ltb_false_le (a b : string) : String.ltb a b = false ↔ str_le b a.
Proof.
  unfold str_le, String.leb, String.ltb.
  destruct (String.compare a b) eqn:E.
  - apply str_compare_eq in E. subst. by rewrite str_compare_refl.
  - by rewrite (str_compare_lt_gt _ _ E).
  - by rewrite (str_compare_gt_lt _ _ E).
Qed.

Lemma str_leb_false_lt (a b : string) : String.leb a b = false ↔ str_lt b a.
Proof.
  unfold str_lt, String.leb, String.ltb.
  destruct (String.compare a b) eqn:E.
  - apply str_compare_eq in E. subst. by rewrite str_compare_refl.
  - by rewrite (str_compare_lt_gt _ _ E).
  - by rewrite (str_compare_gt_lt _ _ E).
Qed.

Lemma str_lt_le (a b : string) : str_lt a b → str_le a b.
Proof. rewrite str_le_lt_eq. auto. Qed.

Lemma str_lt_le_trans (a b c : string) : str_lt a b → str_le b c → str_lt a c.
Proof. rewrite str_le_lt_eq. intros H1 [H2| <-]; eauto using str_lt_trans. Qed.

Lemma str_le_lt_trans (a b c : string) : str_le a b → str_lt b c → str_lt a c.
Proof. rewrite str_le_lt_eq. intros [H1| ->] H2; eauto using str_lt_trans. Qed.

#[export] Instance str_le_po : PartialOrder str_le.
Proof.
  split; [split|].
  - intros a. apply str_le_refl.
  - intros a b c. apply str_le_trans.
  - intros a b. apply str_le_antisym.
Qed.

#[export] Instance str_lt_strict : StrictOrder str_lt.
Proof.
  split.
  - intros a. apply str_lt_irrefl.
  - intros a b c. apply str_lt_trans.
Qed.

(** ** Sorting *)

Section SortFacts.
Context {A : Type} (le : A → A → bool).

Lemma insert_sorted_perm (x : A) (l : list A) : insert_sorted le x l ≡ₚ x :: l.
Proof.
  induction l as [|y l IH]; simpl; [done|].
  destruct (le x y); [done|]. rewrite IH. apply Permutation_swap.
Qed.

Lemma py_sorted_perm (l : list A) : py_sorted le l ≡ₚ l.
Proof.
  induction l as [|x l IH]; simpl; [done|].
  rewrite insert_sorted_perm. by rewrite IH.
Qed.

Lemma elem_of_py_sorted (x : A) (l : list A) : x ∈ py_sorted le l ↔ x ∈ l.
Proof. by rewrite py_sorted_perm. Qed.

Hypothesis le_total : ∀ x y, le x y = false → le y x = true.
Hypothesis le_trans : ∀ x y z, le x y = true → le y z = true → le x z = true.

Lemma insert_sorted_sorted (x : A) (l : list A) :
  StronglySorted (le_rel le) l → StronglySorted (le_rel le) (insert_sorted le x l).
Proof.
  induction 1 as [|y l Hs IH Hall]; simpl.
  - repeat constructor.
  - destruct (le x y) eqn:E.
    + constructor; [by constructor|]. constructor; [done|].
      eapply Forall_impl; [exact Hall|]. intros z Hz. by eapply le_trans.
    + constructor; [done|]. rewrite insert_sorted_perm.
      constructor; [|done]. by apply le_total.
Qed.

Lemma py_sorted_sorted (l : list A) : StronglySorted (le_rel le) (py_sorted le l).
Proof.
  induction l as [|x l IH]; simpl; [constructor|]. by apply insert_sorted_sorted.
Qed.

(** A sorted list is left as it is. *)
Lemma py_sorted_id (l : list A) : Sorted (le_rel le) l → py_sorted le l = l.
Proof.
  induction 1 as [|x l Hs IH Hhd]; simpl; [done|]. rewrite IH.
  destruct Hhd as [|y l' Hxy]; simpl; [done|]. by rewrite Hxy.
Qed.
End SortFacts.

(** ** The non-regression check *)

Lemma elem_of_key_set {B : Type} (key : string → string) (pairs : list (string * B))
    (k : string) :
  k ∈ key_set key pairs ↔ ∃ d, d ∈ pairs.*1 ∧ key d = k.
Proof.
  unfold key_set. rewrite elem_of_list_to_set, list_elem_of_fmap. split.
  - intros [p [-> Hp]]. exists p.1. split; [|done].
    apply list_elem_of_fmap. eauto.
  - intros [d [Hd <-]]. apply list_elem_of_fmap in Hd as [p [-> Hp]]. eauto.
Qed.

Lemma key_set_same_dates (key : string → string) (l1 l2 : list (string * float)) :
  l1.*1 = l2.*1 → key_set key l1 = key_set key l2.
Proof.
  intros H. apply set_eq. intros k. rewrite !elem_of_key_set. by rewrite H.
Qed.

(** The periods [non_regression] finds lost in month mode. *)
Lemma lost_months_spec (old new : list (string * float)) (k : string) :
  k ∈ py_sorted String.leb (elements (key_set month_key old ∖ key_set month_key new)) ↔
  (∃ d, d ∈ old.*1 ∧ month_key d = k) ∧ ¬ (∃ d', d' ∈ new.*1 ∧ month_key d' = k).
Proof.
  rewrite elem_of_py_sorted, elem_of_elements, elem_of_difference.
  by rewrite !elem_of_key_set.
Qed.

(** ** Dictionaries *)

Section DictFacts.
Context {K V : Type} `{EqDecision K}.
Implicit Types (k : K) (v : V) (d l : list (K * V)).

Lemma dict_get_set k' k v d :
  dict_get k' (dict_set k v d) = if decide (k' = k) then Some v else dict_get k' d.
Proof.
  induction d as [|[k0 v0] d IH]; simpl.
  - by destruct (decide (k' = k)).
  - destruct (decide (k = k0)) as [->|Hne]; simpl.
    + by destruct (decide (k' = k0)).
    + destruct (decide (k' = k0)) as [->|?]; [|done].
      by destruct (decide (k0 = k)) as [->|?].
Qed.

Lemma dict_set_fresh k v d : k ∉ d.*1 → dict_set k v d = d ++ [(k, v)].
Proof.
  induction d as [|[k0 v0] d IH]; simpl; [done|].
  rewrite not_elem_of_cons. intros [Hne Hnin].
  destruct (decide (k = k0)); [done|]. by rewrite IH.
Qed.

Lemma dict_set_keys k' k v d : k' ∈ (dict_set k v d).*1 ↔ k' = k ∨ k' ∈ d.*1.
Proof.
  induction d as [|[k0 v0] d IH]; simpl.
  - rewrite list_elem_of_singleton, elem_of_nil. tauto.
  - destruct (decide (k = k0)) as [->|Hne]; simpl; rewrite !elem_of_cons.
    + tauto.
    + rewrite IH. tauto.
Qed.

Lemma dict_set_NoDup k v d : NoDup d.*1 → NoDup (dict_set k v d).*1.
Proof.
  induction d as [|[k0 v0] d IH]; simpl; intros Hnd.
  - apply NoDup_singleton.
  - apply NoDup_cons in Hnd as [Hk0 Hnd].
    destruct (decide (k = k0)) as [->|Hne]; simpl.
    + by apply NoDup_cons.
    + apply NoDup_cons. split; [|by apply IH].
      rewrite dict_set_keys. intros [?|?]; by subst.
Qed.

Lemma dict_get_None k d : dict_get k d = None ↔ k ∉ d.*1.
Proof.
  induction d as [|[k0 v0] d IH]; simpl.
  - split; [intros _; apply not_elem_of_nil|done].
  - rewrite not_elem_of_cons. destruct (decide (k = k0)); [|rewrite IH; tauto].
    split; [done|]. by intros [? _].
Qed.

Lemma dict_get_Some k v d : NoDup d.*1 → dict_get k d = Some v ↔ (k, v) ∈ d.
Proof.
  induction d as [|[k0 v0] d IH]; simpl; intros Hnd.
  - split; [done|]. by intros ?%elem_of_nil.
  - apply NoDup_cons in Hnd as [Hk0 Hnd]. rewrite elem_of_cons.
    destruct (decide (k = k0)) as [->|Hne].
    + split; [intros [= ->]; by left|]. intros [[= ->]|Hin]; [done|].
      destruct Hk0. apply list_elem_of_fmap. by exists (k0, v).
    + rewrite (IH Hnd). split; [by right|]. intros [[= -> ->]|?]; done.
Qed.

Lemma dict_get_app k d1 d2 :
  dict_get k (d1 ++ d2) =
  match dict_get k d1 with Some v => Some v | None => dict_get k d2 end.
Proof.
  induction d1 as [|[k0 v0] d1 IH]; simpl; [done|].
  by destruct (decide (k = k0)).
Qed.

(** After a run of assignments a key holds what was assigned last. *)
Lemma dict_get_fold k l d :
  dict_get k (fold_left (λ d kv, dict_set kv.1 kv.2 d) l d) =
  match dict_get k (reverse l) with Some v => Some v | None => dict_get k d end.
Proof.
  revert d. induction l as [|[k0 v0] l IH]; intros d; simpl; [done|].
  rewrite IH, reverse_cons, dict_get_app, dict_get_set. simpl.
  destruct (dict_get k (reverse l)); [done|]. by destruct (decide (k = k0)).
Qed.

Lemma dict_fold_NoDup l d :
  NoDup d.*1 → NoDup (fold_left (λ d kv, dict_set kv.1 kv.2 d) l d).*1.
Proof.
  revert d. induction l as [|[k0 v0] l IH]; intros d Hd; simpl; [done|].
  apply IH. by apply dict_set_NoDup.
Qed.

Lemma dict_fold_keys k l d :
  k ∈ (fold_left (λ d kv, dict_set kv.1 kv.2 d) l d).*1 ↔ k ∈ l.*1 ∨ k ∈ d.*1.
Proof.
  revert d. induction l as [|[k0 v0] l IH]; intros d; simpl.
  - rewrite elem_of_nil. tauto.
  - rewrite IH, dict_set_keys, elem_of_cons. tauto.
Qed.

Lemma dict_of_pairs_NoDup l : NoDup (dict_of_pairs l).*1.
Proof. apply dict_fold_NoDup. constructor. Qed.

Lemma dict_of_pairs_get k l : dict_get k (dict_of_pairs l) = dict_get k (reverse l).
Proof. unfold dict_of_pairs. rewrite dict_get_fold. by destruct (dict_get k (reverse l)). Qed.

Lemma dict_of_pairs_keys k l : k ∈ (dict_of_pairs l).*1 ↔ k ∈ l.*1.
Proof. unfold dict_of_pairs. rewrite dict_fold_keys, elem_of_nil. simpl. tauto. Qed.

Lemma elem_of_dict_of_pairs k v l :
  (k, v) ∈ dict_of_pairs l ↔ dict_get k (reverse l) = Some v.
Proof.
  rewrite <- dict_of_pairs_get. symmetry. apply dict_get_Some, dict_of_pairs_NoDup.
Qed.

(** Pairs with distinct keys make the dictionary that lists them. *)
Lemma dict_fold_fresh l d :
  NoDup (d ++ l).*1 → fold_left (λ d kv, dict_set kv.1 kv.2 d) l d = d ++ l.
Proof.
  revert d. induction l as [|[k0 v0] l IH]; intros d Hnd; simpl.
  - by rewrite app_nil_r.
  - rewrite dict_set_fresh.
    + rewrite IH; [by rewrite <- app_assoc|]. by rewrite <- app_assoc.
    + rewrite fmap_app in Hnd. apply NoDup_app in Hnd as (_ & Hd & _).
      intros Hin. apply (Hd k0 Hin). simpl. left.
Qed.

Lemma dict_of_pairs_id l : NoDup l.*1 → dict_of_pairs l = l.
Proof. intros Hnd. unfold dict_of_pairs. by rewrite dict_fold_fresh. Qed.

(** The value a key got last, read off the list of assignments. *)
Lemma dict_get_reverse_last {X : Type} (key : X → K) (val : X → V) k (xs : list X) :
  dict_get k (reverse (map (λ x, (key x, val x)) xs)) =
  val <$> last (filter (λ x, key x = k) xs).
Proof.
  induction xs as [|x xs IH] using rev_ind; [done|].
  rewrite map_app, reverse_app, filter_app. simpl.
  rewrite filter_cons, filter_nil.
  destruct (decide (k = key x)) as [->|Hne].
  - rewrite decide_True by done. by rewrite last_snoc.
  - rewrite decide_False by done. by rewrite app_nil_r.
Qed.
End DictFacts.

(** ** The normalizer *)

Lemma sorted_le_NoDup_lt {B : Type} (l : list (string * B)) :
  StronglySorted fst_le l → NoDup l.*1 → StronglySorted fst_lt l.
Proof.
  induction 1 as [|x l Hs IH Hall]; intros Hnd; [constructor|].
  simpl in Hnd. apply NoDup_cons in Hnd as [Hx Hnd].
  constructor; [by apply IH|].
  rewrite Forall_forall in Hall |- *. intros y Hy.
  destruct (proj1 (str_le_lt_eq x.1 y.1) (Hall y Hy)) as [?|Heq]; [done|].
  destruct Hx. rewrite Heq. apply list_elem_of_fmap. eauto.
Qed.

Lemma sorted_lt_NoDup {B : Type} (l : list (string * B)) :
  StronglySorted fst_lt l → NoDup l.*1.
Proof.
  induction 1 as [|x l Hs IH Hall]; simpl; [constructor|].
  apply NoDup_cons. split; [|done].
  intros Hin. apply list_elem_of_fmap in Hin as [y [Heq Hy]].
  rewrite Forall_forall in Hall. specialize (Hall y Hy).
  unfold fst_lt in Hall. rewrite Heq in Hall. by apply str_lt_irrefl in Hall.
Qed.

Lemma py_sorted_fst_le {B : Type} (l : list (string * B)) :
  StronglySorted fst_le (py_sorted fst_leb l).
Proof.
  apply (py_sorted_sorted fst_leb).
  - intros x y Hxy. apply str_leb_false_lt in Hxy. by apply str_lt_le.
  - intros x y z. apply str_le_trans.
Qed.

Lemma py_sorted_fst_lt {B : Type} (l : list (string * B)) :
  NoDup l.*1 → StronglySorted fst_lt (py_sorted fst_leb l).
Proof.
  intros Hnd. apply sorted_le_NoDup_lt; [apply py_sorted_fst_le|].
  by rewrite py_sorted_perm.
Qed.

Lemma sorted_lt_fixed {B : Type} (l : list (string * B)) :
  StronglySorted fst_lt l → py_sorted fst_leb l = l.
Proof.
  intros Hs. apply py_sorted_id.
  induction Hs as [|x l Hs IH Hall]; constructor; [done|].
  destruct Hall as [|y l' Hxy _]; constructor. by apply str_lt_le.
Qed.

(** The dates [dedup_sort] returns are strictly ascending. *)
Lemma dedup_sort_sorted (out : list (string * float)) :
  StronglySorted fst_lt (dedup_sort out).
Proof. apply py_sorted_fst_lt, dict_of_pairs_NoDup. Qed.

Lemma elem_of_dedup_sort (out : list (string * float)) (d : string) (v : float) :
  (d, v) ∈ dedup_sort out ↔ dict_get d (reverse out) = Some v.
Proof. unfold dedup_sort. by rewrite elem_of_py_sorted, elem_of_dict_of_pairs. Qed.

Lemma dict_get_elem_of {B : Type} (k : string) (v : B) (l : list (string * B)) :
  dict_get k l = Some v → (k, v) ∈ l.
Proof.
  induction l as [|[k0 v0] l IH]; simpl; [done|].
  destruct (decide (k = k0)) as [->|?].
  - intros [= ->]. left.
  - intros H. right. by apply IH.
Qed.

Lemma to_pairs_sorted (items : list item) : StronglySorted fst_lt (to_pairs items).
Proof. apply dedup_sort_sorted. Qed.

Lemma to_pairs_elem (items : list item) (p : string * float) :
  p ∈ to_pairs items → ∃ it, it ∈ items ∧ to_pair it = Some p.
Proof.
  destruct p as [d v]. unfold to_pairs. rewrite elem_of_dedup_sort. intros H.
  apply dict_get_elem_of, elem_of_reverse, list_elem_of_omap in H. done.
Qed.

Lemma to_pairs_has_date (items : list item) (it : item) (d : string) (v : float) :
  it ∈ items → to_pair it = Some (d, v) → ∃ f, (d, f) ∈ to_pairs items.
Proof.
  intros Hin Hp.
  assert (Hk : d ∈ (dict_of_pairs (omap to_pair items)).*1).
  { apply dict_of_pairs_keys, list_elem_of_fmap. exists (d, v). split; [done|].
    apply list_elem_of_omap. eauto. }
  apply list_elem_of_fmap in Hk as [[d' f] [-> Hk]]. exists f.
  unfold to_pairs, dedup_sort. by rewrite elem_of_py_sorted.
Qed.

Lemma all_from_spec (P : Z → bool) (n : nat) (i : Z) :
  all_from n i P = true → ∀ j, i ≤ j < i + Z.of_nat n → P j = true.
Proof.
  revert i. induction n as [|n IH]; intros i H j Hj; [lia|].
  simpl in H. apply andb_true_iff in H as [H1 H2].
  destruct (decide (j = i)) as [->|?]; [done|]. apply (IH (i + 1)); [done|lia].
Qed.

Lemma years_plain_checked : all_from (Z.to_nat 9999) 1 check_year_plain = true.
Proof. vm_cast_no_check (eq_refl true). Qed.

Lemma strftime_Y_padded (y : Z) : 1000 ≤ y ≤ 9999 → strftime_Y y = fmt_0d 4 y.
Proof.
  intros Hy. pose proof (all_from_spec _ _ _ years_plain_checked y ltac:(lia)) as H.
  unfold check_year_plain in H. rewrite (proj2 (Z.ltb_ge y 1000)) in H by lia.
  by apply String.eqb_eq.
Qed.

Lemma strftime_Y_short (y : Z) :
  1 ≤ y < 1000 → String.length (strftime_Y y) ≠ String.length (fmt_0d 4 y).
Proof.
  intros Hy. pose proof (all_from_spec _ _ _ years_plain_checked y ltac:(lia)) as H.
  unfold check_year_plain in H. rewrite (proj2 (Z.ltb_lt y 1000)) in H by lia.
  apply negb_true_iff in H. by apply Nat.eqb_neq.
Qed.

Lemma strptime_dmy_valid (s : string) (d : date) :
  strptime_dmy s = Some d → valid_date d = true.
Proof.
  unfold strptime_dmy. destruct (split_on "/" s) as [|ds [|ms [|ys [|? ?]]]]; try done.
  destruct (parse_pct_d ds), (parse_pct_m ms), (parse_pct_Y ys); try done.
  destruct (valid_date _) eqn:E; [|done]. by intros [= <-].
Qed.

Lemma valid_date_year (d : date) : valid_date d = true → 1 ≤ year d ≤ 9999.
Proof.
  unfold valid_date. rewrite !andb_true_iff, !Z.leb_le. intros [[[[[? ?] ?] ?] ?] ?]. lia.
Qed.

(** From the year 1000 on the date [to_pairs] writes is the ISO date. *)
Lemma strftime_month_start_iso (d : date) :
  1000 ≤ year d ≤ 9999 → strftime_month_start d = iso_date (year d) (month d) 1.
Proof.
  intros Hy. unfold strftime_month_start, iso_date. by rewrite (strftime_Y_padded _ Hy).
Qed.

Lemma str_length_append (s t : string) :
  String.length (s +:+ t) = (String.length s + String.length t)%nat.
Proof. induction s as [|c s IH]; simpl; [done|]. by rewrite IH. Qed.

(** Before the year 1000 it is not: the year has fewer than four digits. *)
Lemma strftime_month_start_short (d : date) :
  1 ≤ year d < 1000 → strftime_month_start d ≠ iso_date (year d) (month d) 1.
Proof.
  intros Hy E. apply (strftime_Y_short _ Hy).
  unfold strftime_month_start, iso_date in E.
  apply (f_equal String.length) in E. rewrite !str_length_append in E.
  change (String.length (fmt_0d 2 1)) with 2%nat in E.
  change (String.length "-01") with 3%nat in E.
  change (String.length "-") with 1%nat in E. lia.
Qed.

Lemma truthy_Some (s : string) : s ≠ "" → truthy (Some s) = true.
Proof. intros H. simpl. by apply negb_true_iff, String.eqb_neq. Qed.

Lemma to_pair_good (it : item) (s r : string) (d : date) (v : float) :
  data it = Some s → valor it = Some r → s ≠ "" → r ≠ "" →
  strptime_dmy s = Some d → py_float (py_strip (replace_comma r)) = Some v →
  to_pair it = Some (strftime_month_start d, f_div v f_100).
Proof.
  intros Hs Hr Hs' Hr' Hd Hv. unfold to_pair. rewrite Hs, Hr.
  rewrite !truthy_Some by done. simpl. by rewrite Hd, Hv.
Qed.

Lemma to_pair_skipped (it : item) : skipped it → to_pair it = None.
Proof.
  unfold skipped, to_pair.
  intros [H|[H|[H|[H|[[s [H1 H2]]|[r [H1 H2]]]]]]].
  - by rewrite H.
  - by rewrite H.
  - rewrite H. by rewrite orb_true_r.
  - rewrite H. by rewrite orb_true_r.
  - rewrite H1. simpl. rewrite H2. by destruct (_ || _).
  - rewrite H1. simpl. rewrite H2. destruct (_ || _); [done|]. by destruct (strptime_dmy _).
Qed.

Lemma to_pair_None_skipped (it : item) : to_pair it = None → skipped it.
Proof.
  intros H. unfold to_pair in H. unfold skipped.
  destruct (data it) as [s|]; [|by left].
  destruct (valor it) as [r|]; [|right; right; left; reflexivity].
  simpl in H.
  destruct (String.eqb_spec s "") as [Hs0|Hs]; [right; left; by rewrite Hs0|].
  destruct (String.eqb_spec r "") as [Hr0|Hr]; [do 3 right; left; by rewrite Hr0|].
  simpl in H.
  destruct (strptime_dmy s) eqn:E1; [|do 4 right; left; eauto].
  destruct (py_float _) eqn:E2; [done|]. do 5 right. eauto.
Qed.

(** C4. The normalizer maps a record whose date parses as day/month/year
    and whose value parses as a comma decimal to the date [strftime]
    writes for the first day of the month and the value divided by 100; a
    list of one such record gives that one pair, and in any list the month
    of the record is in the output. From the year 1000 on the date is the
    ISO date of the first day of the month; before, it is not, because the
    year is written without padding: the record 15/03/0999 with 0,50
    becomes 999-03-01. Every output pair is the pair of some record of
    the input. A record with a missing or empty field, or whose date or
    value does not parse, has no pair and the output is what it would be
    without that record. The record 15/03/2021 with 0,50 becomes
    2021-03-01 with the binary64 number 0.005. *)
Theorem C4_to_pairs_normalizes :
  (∀ (it : item) (s r : string) (d : date) (v : float),
     data it = Some s → valor it = Some r → s ≠ "" → r ≠ "" →
     strptime_dmy s = Some d → py_float (py_strip (replace_comma r)) = Some v →
     to_pair it = Some (strftime_month_start d, f_div v f_100) ∧
     to_pairs [it] = [(strftime_month_start d, f_div v f_100)] ∧
     (∀ items, it ∈ items → ∃ f, (strftime_month_start d, f) ∈ to_pairs items) ∧
     (1000 ≤ year d → strftime_month_start d = iso_date (year d) (month d) 1) ∧
     (year d < 1000 → strftime_month_start d ≠ iso_date (year d) (month d) 1)) ∧
  (∀ (items : list item) (p : string * float),
     p ∈ to_pairs items → ∃ it, it ∈ items ∧ to_pair it = Some p) ∧
  (∀ (it : item), skipped it ↔ to_pair it = None) ∧
  (∀ (l1 l2 : list item) (it : item),
     skipped it → to_pairs (l1 ++ it :: l2) = to_pairs (l1 ++ l2)) ∧
  (∀ v, py_float "0.005" = Some v →
     to_pairs [mkitem (Some "15/03/2021") (Some "0,50")] = [("2021-03-01", v)] ∧
     to_pairs [mkitem (Some "15/03/0999") (Some "0,50")] = [("999-03-01", v)]) ∧
  iso_date 999 3 1 = "0999-03-01".
Proof.
  split; [|split; [|split; [|split; [|split]]]].
  - intros it s r d v Hs Hr Hs' Hr' Hd Hv.
    pose proof (to_pair_good it s r d v Hs Hr Hs' Hr' Hd Hv) as Hp.
    pose proof (valid_date_year d (strptime_dmy_valid s d Hd)) as Hy.
    split; [done|]. split; [|split; [|split]].
    + unfold to_pairs. simpl. by rewrite Hp.
    + intros items Hin. by eapply to_pairs_has_date.
    + intros Hy'. apply strftime_month_start_iso. lia.
    + intros Hy'. apply strftime_month_start_short. lia.
  - apply to_pairs_elem.
  - intros it. split; [apply to_pair_skipped|apply to_pair_None_skipped].
  - intros l1 l2 it Hsk. unfold to_pairs. rewrite !omap_app. simpl.
    by rewrite (to_pair_skipped it Hsk).
  - intros v [= <-]. split; reflexivity.
  - reflexivity.
Qed.

(** The records of the two examples satisfy the hypotheses of C4. *)
Lemma C4_witness :
  ∃ v, py_float "0.005" = Some v ∧
       to_pairs [mkitem (Some "15/03/2021") (Some "0,50")] = [("2021-03-01", v)] ∧
       to_pair (mkitem (Some "15/03/2021") (Some "0,50"))
         = Some (strftime_month_start (mkdate 2021 3 15), v) ∧
       strftime_month_start (mkdate 2021 3 15) = iso_date 2021 3 1 ∧
       to_pair (mkitem (Some "15/03/0999") (Some "0,50"))
         = Some (strftime_month_start (mkdate 999 3 15), v) ∧
       strftime_month_start (mkdate 999 3 15) ≠ iso_date 999 3 1 ∧
       to_pairs [mkitem (Some "15/03/2021") (Some "0,50"); mkitem (Some "2021-03-15") (Some "1")]
         = [("2021-03-01", v)].
Proof.
  exists (S754_finite false 5764607523034235 (-60)).
  destruct C4_to_pairs_normalizes as (Hgood & _ & Hskip & Hdrop & Hex & _).
  split; [reflexivity|]. split; [by apply Hex|].
  destruct (Hgood (mkitem (Some "15/03/2021") (Some "0,50")) "15/03/2021" "0,50"
              (mkdate 2021 3 15) (S754_finite false 4503599627370496 (-53)))
    as (H1 & _ & _ & H1iso & _);
    [reflexivity|reflexivity|discriminate|discriminate|reflexivity|reflexivity|].
  destruct (Hgood (mkitem (Some "15/03/0999") (Some "0,50")) "15/03/0999" "0,50"
              (mkdate 999 3 15) (S754_finite false 4503599627370496 (-53)))
    as (H2 & _ & _ & _ & H2iso);
    [reflexivity|reflexivity|discriminate|discriminate|reflexivity|reflexivity|].
  split; [exact H1|]. split; [apply H1iso; cbn [year]; lia|].
  split; [exact H2|]. split; [apply H2iso; cbn [year]; lia|].
  refine (eq_trans (Hdrop [mkitem (Some "15/03/2021") (Some "0,50")] []
                     (mkitem (Some "2021-03-15") (Some "1")) _) _).
  - do 4 right. left. exists "2021-03-15". split; reflexivity.
  - by apply Hex.
Defined.

(** C6, the claim as stated fails: applied to its own result, a list of
    tuples, the normalizer raises [AttributeError]. *)
Lemma C6_counterexample :
  to_pairs [mkitem (Some "15/03/2021") (Some "0,50")]
    = [("2021-03-01", S754_finite false 5764607523034235 (-60))] ∧
  to_pairs_dyn (map PyTuple (to_pairs [mkitem (Some "15/03/2021") (Some "0,50")]))
    = Raise AttributeError.
Proof. split; reflexivity. Qed.

(** C6, amended. On records [to_pairs_dyn] is [to_pairs]; on a non-empty
    result of [to_pairs] it raises; and the last stage of the normalizer,
    deduplication and sorting, leaves every result of the normalizer
    unchanged. *)
Theorem C6_normalized_series_fixed (items : list item) :
  to_pairs_dyn (map PyDict items) = Ok (to_pairs items) ∧
  (to_pairs items ≠ [] →
     to_pairs_dyn (map PyTuple (to_pairs items)) = Raise AttributeError) ∧
  dedup_sort (to_pairs items) = to_pairs items.
Proof.
  split; [|split].
  - unfold to_pairs_dyn.
    assert (H : rmapM as_dict (map PyDict items) = Ok items).
    { induction items as [|it items IH]; simpl; [done|]. rewrite IH. done. }
    by rewrite H.
  - destruct (to_pairs items); done.
  - pose proof (to_pairs_sorted items) as Hs. unfold dedup_sort at 1.
    rewrite dict_of_pairs_id by (by apply sorted_lt_NoDup).
    by apply sorted_lt_fixed.
Qed.

Lemma C6_witness :
  to_pairs_dyn (map PyTuple (to_pairs [mkitem (Some "15/03/2021") (Some "0,50")]))
    = Raise AttributeError.
Proof.
  apply (C6_normalized_series_fixed [mkitem (Some "15/03/2021") (Some "0,50")]).
  vm_compute. discriminate.
Defined.

(** ** Months and their keys *)

Lemma years_checked : all_from (Z.to_nat 9999) 1 check_year = true.
Proof. vm_cast_no_check (eq_refl true). Qed.

Lemma months_checked : all_from (Z.to_nat 12) 1 check_month = true.
Proof. vm_cast_no_check (eq_refl true). Qed.

Lemma year_text (y : Z) :
  1 ≤ y ≤ 9999 →
  String.length (fmt_0d 4 y) = 4%nat ∧ no_char "-" (fmt_0d 4 y) = true ∧
  no_char "/" (fmt_0d 4 y) = true ∧ parse_pct_Y (fmt_0d 4 y) = Some y ∧
  (y < 9999 → str_lt (fmt_0d 4 y) (fmt_0d 4 (y + 1))).
Proof.
  intros Hy. pose proof (all_from_spec _ _ _ years_checked y ltac:(lia)) as H.
  unfold check_year in H. cbv zeta in H. rewrite !andb_true_iff in H.
  destruct H as [[[[H1 H2] H3] H4] H5].
  apply Nat.eqb_eq in H1. apply bool_decide_eq_true in H4.
  repeat split; try done. intros Hlt.
  apply orb_true_iff in H5 as [H5|H5]; [apply Z.eqb_eq in H5; lia|done].
Qed.

Lemma month_number_text (m : Z) :
  1 ≤ m ≤ 12 →
  String.length (fmt_0d 2 m) = 2%nat ∧ no_char "-" (fmt_0d 2 m) = true ∧
  no_char "/" (fmt_0d 2 m) = true ∧ parse_pct_m (fmt_0d 2 m) = Some m ∧
  (m < 12 → str_lt (fmt_0d 2 m) (fmt_0d 2 (m + 1))).
Proof.
  intros Hm. pose proof (all_from_spec _ _ _ months_checked m ltac:(lia)) as H.
  unfold check_month in H. cbv zeta in H. rewrite !andb_true_iff in H.
  destruct H as [[[[H1 H2] H3] H4] H5].
  apply Nat.eqb_eq in H1. apply bool_decide_eq_true in H4.
  repeat split; try done. intros Hlt.
  apply orb_true_iff in H5 as [H5|H5]; [apply Z.eqb_eq in H5; lia|done].
Qed.

(** A text that grows with its number by steps grows with it throughout. *)
Lemma steps_mono (f : Z → string) (lo hi : Z) :
  (∀ i, lo ≤ i < hi → str_lt (f i) (f (i + 1))) →
  ∀ i j, lo ≤ i → i < j → j ≤ hi → str_lt (f i) (f j).
Proof.
  intros Hstep i j Hlo Hij Hhi.
  replace j with (i + Z.of_nat (S (Z.to_nat (j - i - 1)))) in * by lia.
  induction (Z.to_nat (j - i - 1)) as [|n IH].
  - apply Hstep. lia.
  - eapply str_lt_trans; [apply IH; lia|].
    replace (i + Z.of_nat (S (S n))) with (i + Z.of_nat (S n) + 1) by lia.
    apply Hstep. lia.
Qed.

Lemma year_text_mono (y1 y2 : Z) :
  1 ≤ y1 → y1 < y2 → y2 ≤ 9999 → str_lt (fmt_0d 4 y1) (fmt_0d 4 y2).
Proof.
  intros H1 H2 H3. apply (steps_mono (fmt_0d 4) 1 9999); [|lia..].
  intros i Hi. destruct (year_text i ltac:(lia)) as (_ & _ & _ & _ & H). apply H. lia.
Qed.

Lemma month_number_text_mono (m1 m2 : Z) :
  1 ≤ m1 → m1 < m2 → m2 ≤ 12 → str_lt (fmt_0d 2 m1) (fmt_0d 2 m2).
Proof.
  intros H1 H2 H3. apply (steps_mono (fmt_0d 2) 1 12); [|lia..].
  intros i Hi. destruct (month_number_text i ltac:(lia)) as (_ & _ & _ & _ & H). apply H. lia.
Qed.

Lemma split_on_no_char (c : ascii) (s : string) : no_char c s = true → split_on c s = [s].
Proof.
  induction s as [|x s IH]; simpl; [done|]. rewrite andb_true_iff, negb_true_iff.
  intros [-> H]. by rewrite (IH H).
Qed.

Lemma split_on_app (c : ascii) (a b : string) :
  no_char c a = true → split_on c (a +:+ String c b) = a :: split_on c b.
Proof.
  induction a as [|x a IH]; simpl.
  - intros _. by rewrite Ascii.eqb_refl.
  - rewrite andb_true_iff, negb_true_iff. intros [-> H]. by rewrite (IH H).
Qed.

Lemma str_length_app (s t : string) :
  String.length (s +:+ t) = (String.length s + String.length t)%nat.
Proof. induction s as [|c s IH]; simpl; [done|]. by rewrite IH. Qed.

Lemma str_compare_app_lt (a b s t : string) :
  String.length a = String.length b →
  String.compare a b = Lt → String.compare (a +:+ s) (b +:+ t) = Lt.
Proof.
  revert b. induction a as [|x a IH]; intros [|y b] Hlen; simpl in *; try done.
  destruct (Ascii.compare x y); try done. apply IH. by injection Hlen.
Qed.

Lemma str_compare_app_prefix (p s t : string) :
  String.compare (p +:+ s) (p +:+ t) = String.compare s t.
Proof. induction p as [|x p IH]; simpl; [done|]. by rewrite ascii_compare_refl. Qed.

Lemma ym_of_idx_idx (ym : Z * Z) : 1 ≤ ym.2 ≤ 12 → ym_of_idx (ym_idx ym) = ym.
Proof.
  destruct ym as [y m]. unfold ym_of_idx, ym_idx. simpl. intros Hm.
  replace (12 * y + m - 1) with ((m - 1) + y * 12) by lia.
  rewrite Z.div_add, Z.mod_add by lia.
  rewrite Z.div_small, Z.mod_small by lia. f_equal; lia.
Qed.

Lemma ym_idx_inj (a b : Z * Z) :
  1 ≤ a.2 ≤ 12 → 1 ≤ b.2 ≤ 12 → ym_idx a = ym_idx b → a = b.
Proof.
  intros Ha Hb H. rewrite <- (ym_of_idx_idx a), <- (ym_of_idx_idx b) by done.
  by rewrite H.
Qed.

Lemma first_day_valid (ym : Z * Z) : ym_valid ym → valid_date (mkdate ym.1 ym.2 1) = true.
Proof.
  intros [Hy Hm]. unfold valid_date. simpl.
  rewrite !andb_true_iff, !Z.leb_le. repeat split; try lia.
  unfold days_in_month. destruct (ym.2 =? 2); [destruct (is_leap _); lia|].
  destruct (_ || _); lia.
Qed.

Lemma month_shape (ym : Z * Z) :
  ym_valid ym →
  split_on "-" (month_text ym) = [fmt_0d 4 ym.1; fmt_0d 2 ym.2] ∧
  String.length (month_text ym) = 7%nat ∧
  strptime_dmy (first_of_month ym) = Some (mkdate ym.1 ym.2 1) ∧
  first_of_month ym = "01/" +:+ fmt_0d 2 ym.2 +:+ "/" +:+ fmt_0d 4 ym.1.
Proof.
  intros Hv. destruct (Hv) as [Hy Hm].
  destruct (year_text ym.1 Hy) as (Hy1 & Hy2 & Hy3 & Hy4 & _).
  destruct (month_number_text ym.2 Hm) as (Hm1 & Hm2 & Hm3 & Hm4 & _).
  assert (Hfirst : first_of_month ym = "01/" +:+ fmt_0d 2 ym.2 +:+ "/" +:+ fmt_0d 4 ym.1)
    by reflexivity.
  split; [|split; [|split; [|done]]].
  - unfold month_text. change ("-" +:+ fmt_0d 2 ym.2) with (String "-" (fmt_0d 2 ym.2)).
    rewrite split_on_app by done. by rewrite split_on_no_char.
  - unfold month_text. rewrite !str_length_app, Hy1, Hm1. reflexivity.
  - rewrite Hfirst. unfold strptime_dmy.
    change ("01/" +:+ fmt_0d 2 ym.2 +:+ "/" +:+ fmt_0d 4 ym.1)
      with ("01" +:+ String "/" (fmt_0d 2 ym.2 +:+ String "/" (fmt_0d 4 ym.1))).
    rewrite split_on_app by reflexivity. rewrite split_on_app by done.
    rewrite split_on_no_char by done.
    change (parse_pct_d "01") with (Some 1). rewrite Hm4, Hy4.
    by rewrite (first_day_valid ym Hv).
Qed.

(** The keys of two months are ordered as the months are. *)
Lemma month_text_lt (a b : Z * Z) :
  ym_valid a → ym_valid b → str_lt (month_text a) (month_text b) ↔ ym_idx a < ym_idx b.
Proof.
  assert (Hmono : ∀ x y, ym_valid x → ym_valid y → ym_idx x < ym_idx y →
                         str_lt (month_text x) (month_text y)).
  { intros [y1 m1] [y2 m2] [Hy1 Hm1] [Hy2 Hm2] Hlt. unfold ym_idx in Hlt. simpl in *.
    apply str_lt_compare. unfold month_text. simpl.
    destruct (decide (y1 = y2)) as [->|Hne].
    - rewrite str_compare_app_prefix, (str_compare_app_prefix "-").
      apply str_lt_compare, month_number_text_mono; lia.
    - apply str_compare_app_lt.
      + destruct (year_text y1 Hy1) as [-> _]. by destruct (year_text y2 Hy2) as [-> _].
      + apply str_lt_compare, year_text_mono; lia. }
  intros Ha Hb. split; [|by apply Hmono].
  intros Hlt. destruct (Z.lt_trichotomy (ym_idx a) (ym_idx b)) as [?|[Heq|Hgt]]; [done| |].
  - apply ym_idx_inj in Heq; [|apply Ha|apply Hb]. subst.
    by apply str_lt_irrefl in Hlt.
  - apply (Hmono b a Hb Ha) in Hgt. destruct (str_lt_irrefl (month_text a)).
    by eapply str_lt_trans.
Qed.

Lemma month_text_inj (a b : Z * Z) :
  ym_valid a → ym_valid b → month_text a = month_text b → a = b.
Proof.
  intros Ha Hb Heq.
  destruct (Z.lt_trichotomy (ym_idx a) (ym_idx b)) as [H|[H|H]].
  - apply month_text_lt in H; [|done..]. rewrite Heq in H. by apply str_lt_irrefl in H.
  - apply ym_idx_inj in H; [done|apply Ha|apply Hb].
  - apply month_text_lt in H; [|done..]. rewrite Heq in H. by apply str_lt_irrefl in H.
Qed.

Lemma first_of_month_inj (a b : Z * Z) :
  ym_valid a → ym_valid b → first_of_month a = first_of_month b → a = b.
Proof.
  intros Ha Hb Heq.
  destruct (month_shape a Ha) as (_ & _ & H1 & _).
  destruct (month_shape b Hb) as (_ & _ & H2 & _).
  rewrite Heq, H2 in H1. injection H1 as H3 H4. destruct a, b; simpl in *. by subst.
Qed.

(** ** Dates that parse *)

Lemma valid_date_ym (d : date) : valid_date d = true → ym_valid (year d, month d).
Proof.
  unfold valid_date, ym_valid. rewrite !andb_true_iff, !Z.leb_le. simpl. tauto.
Qed.

Lemma item_ym_valid (it : item) (ym : Z * Z) : item_ym it = Some ym → ym_valid ym.
Proof.
  unfold item_ym, item_date. destruct (data it) as [s|]; [|done]. simpl.
  destruct (strptime_dmy s) as [d|] eqn:E; [|done]. simpl. intros [= <-].
  by apply valid_date_ym, (strptime_dmy_valid s).
Qed.

Lemma has_date_ym (it : item) : has_date it → is_Some (item_ym it).
Proof. unfold has_date, item_ym. intros [d ->]. by eexists. Qed.

Lemma item_month_ym (it : item) (ym : Z * Z) :
  item_ym it = Some ym → item_month it = Ok (month_text ym).
Proof.
  unfold item_ym, item_date, item_month. destruct (data it) as [s|]; [|done]. simpl.
  destruct (strptime_dmy s) as [d|]; [|done]. simpl. by intros [= <-].
Qed.

(** ** The merger *)

Lemma rmapM_map_Ok {A B C : Type} (f : B → result C) (g : A → B) (h : A → C) (l : list A) :
  (∀ x, x ∈ l → f (g x) = Ok (h x)) → rmapM f (map g l) = Ok (map h l).
Proof.
  induction l as [|x l IH]; intros H; simpl; [done|].
  rewrite H by left. simpl. rewrite IH; [done|]. intros y Hy. apply H. by right.
Qed.

Lemma item_key_ym (it : item) (ym : Z * Z) : item_ym it = Some ym → item_key it = month_text ym.
Proof. unfold item_key. by intros ->. Qed.

Lemma item_key_in_month (it : item) (ym : Z * Z) :
  has_date it → ym_valid ym → item_key it = month_text ym ↔ in_month ym it.
Proof.
  intros Hd Hv. unfold in_month. destruct (has_date_ym it Hd) as [ym' Hym].
  rewrite (item_key_ym it ym' Hym), Hym. split.
  - intros H. f_equal. apply month_text_inj; [|done..]. by eapply item_ym_valid.
  - by intros [= ->].
Qed.

Lemma filter_ext_Forall {A : Type} (P Q : A → Prop) `{!∀ x, Decision (P x)}
    `{!∀ x, Decision (Q x)} (l : list A) :
  Forall (λ x, P x ↔ Q x) l → filter P l = filter Q l.
Proof.
  induction 1 as [|x l Hx Hl IH]; [done|].
  rewrite !filter_cons, IH. destruct (decide (P x)), (decide (Q x)); tauto.
Qed.

Lemma merge_step_ym (keep : string → bool) (acc : list (string * option string))
    (it : item) (ym : Z * Z) :
  item_ym it = Some ym →
  merge_step keep acc it =
  Ok (if keep (month_text ym) then dict_set (month_text ym) (valor it) acc else acc).
Proof. intros Hym. unfold merge_step. by rewrite (item_month_ym it ym Hym). Qed.

(** One loop of the merger is a run of assignments of the records on
    its side. *)
Lemma rfoldM_merge_step (keep : string → bool) (l : list item)
    (acc : list (string * option string)) :
  Forall has_date l →
  rfoldM (merge_step keep) l acc =
  Ok (fold_left (λ d kv, dict_set kv.1 kv.2 d)
        (map (λ it, (item_key it, valor it)) (filter (λ it, keep (item_key it) = true) l)) acc).
Proof.
  intros Hl. revert acc. induction Hl as [|it l Hit Hl IH]; intros acc; [done|].
  destruct (has_date_ym it Hit) as [ym Hym].
  change (rfoldM (merge_step keep) (it :: l) acc)
    with (b' ← merge_step keep acc it; rfoldM (merge_step keep) l b').
  rewrite (merge_step_ym keep acc it ym Hym).
  rewrite filter_cons, (item_key_ym it ym Hym).
  destruct (keep (month_text ym)) eqn:E.
  - rewrite decide_True by done. simpl. by rewrite IH, (item_key_ym it ym Hym).
  - rewrite decide_False by done. simpl. by rewrite IH.
Qed.

Lemma merge_at_unfold (c : string) (items_old items_new : list item) :
  Forall has_date items_old → Forall has_date items_new →
  merge_poup_series_at c items_old items_new =
  (let merged := dict_of_pairs (map (λ it, (item_key it, valor it))
                                  (cut_at c items_old items_new)) in
   rmapM (month_record merged) (py_sorted String.leb merged.*1)).
Proof.
  intros Ho Hn. unfold merge_poup_series_at.
  rewrite (rfoldM_merge_step _ _ _ Ho). simpl.
  rewrite (rfoldM_merge_step _ _ _ Hn). simpl.
  unfold dict_of_pairs, cut_at. rewrite map_app, fold_left_app.
  assert (E : filter (λ it, negb (String.ltb (item_key it) c) = true) items_new
              = filter (on_new_side c) items_new).
  { apply filter_ext_Forall, Forall_forall. intros it _. unfold on_new_side.
    rewrite negb_true_iff. done. }
  by rewrite E.
Qed.

(** *** The months of a list of records *)

Lemma elem_of_months_of (l : list item) (ym : Z * Z) :
  ym ∈ months_of l ↔ ∃ it, it ∈ l ∧ in_month ym it.
Proof.
  unfold months_of. rewrite elem_of_py_sorted, elem_of_remove_dups, list_elem_of_omap.
  done.
Qed.

Lemma months_of_valid (l : list item) : Forall ym_valid (months_of l).
Proof.
  apply Forall_forall. intros ym [it [_ H]]%elem_of_months_of. by eapply item_ym_valid.
Qed.

Lemma months_of_NoDup (l : list item) : NoDup (months_of l).
Proof. unfold months_of. rewrite py_sorted_perm. apply NoDup_remove_dups. Qed.

Lemma months_of_sorted (l : list item) : StronglySorted ym_lt (months_of l).
Proof.
  pose proof (months_of_valid l) as Hv. pose proof (months_of_NoDup l) as Hnd.
  assert (Hs : StronglySorted (le_rel ym_leb) (months_of l)).
  { apply (py_sorted_sorted ym_leb); unfold ym_leb.
    - intros x y. rewrite Z.leb_gt, Z.leb_le. lia.
    - intros x y z. rewrite !Z.leb_le. lia. }
  induction Hs as [|x l' Hs IH Hall]; [constructor|].
  apply Forall_cons in Hv as [Hx Hv]. apply NoDup_cons in Hnd as [Hnx Hnd].
  constructor; [by apply IH|].
  rewrite Forall_forall in Hall, Hv |- *. intros y Hy.
  specialize (Hall y Hy). unfold le_rel, ym_leb in Hall. apply Z.leb_le in Hall.
  unfold ym_lt. destruct (decide (ym_idx x = ym_idx y)) as [Heq|?]; [|lia].
  apply ym_idx_inj in Heq; [|apply Hx|apply (Hv y Hy)]. by subst.
Qed.

Lemma sorted_months_unique (l1 l2 : list (Z * Z)) :
  StronglySorted ym_lt l1 → StronglySorted ym_lt l2 →
  (∀ ym, ym ∈ l1 ↔ ym ∈ l2) → l1 = l2.
Proof.
  intros H1. revert l2. induction H1 as [|x l1 H1 IH Hx]; intros l2 H2 Hiff.
  - destruct l2 as [|y l2]; [done|]. exfalso. eapply not_elem_of_nil, Hiff. left.
  - destruct H2 as [|y l2 H2 Hy].
    { exfalso. eapply not_elem_of_nil, Hiff. left. }
    rewrite Forall_forall in Hx, Hy. unfold ym_lt in *.
    assert (x = y) as ->.
    { pose proof (proj1 (Hiff x) ltac:(left)) as Hx2.
      pose proof (proj2 (Hiff y) ltac:(left)) as Hy1.
      apply elem_of_cons in Hx2 as [?|Hx2]; [done|].
      apply elem_of_cons in Hy1 as [?|Hy1]; [done|].
      specialize (Hx y Hy1). specialize (Hy x Hx2). lia. }
    f_equal. apply IH; [done|]. intros ym. split; intros Hin.
    + pose proof (proj1 (Hiff ym) ltac:(by right)) as H.
      apply elem_of_cons in H as [->|?]; [|done]. specialize (Hx y Hin). lia.
    + pose proof (proj2 (Hiff ym) ltac:(by right)) as H.
      apply elem_of_cons in H as [->|?]; [|done]. specialize (Hy y Hin). lia.
Qed.

Lemma sorted_strings_unique (l1 l2 : list string) :
  StronglySorted str_lt l1 → StronglySorted str_lt l2 →
  (∀ k, k ∈ l1 ↔ k ∈ l2) → l1 = l2.
Proof.
  intros H1. revert l2. induction H1 as [|x l1 H1 IH Hx]; intros l2 H2 Hiff.
  - destruct l2 as [|y l2]; [done|]. exfalso. eapply not_elem_of_nil, Hiff. left.
  - destruct H2 as [|y l2 H2 Hy].
    { exfalso. eapply not_elem_of_nil, Hiff. left. }
    rewrite Forall_forall in Hx, Hy.
    assert (x = y) as ->.
    { pose proof (proj1 (Hiff x) ltac:(left)) as Hx2.
      pose proof (proj2 (Hiff y) ltac:(left)) as Hy1.
      apply elem_of_cons in Hx2 as [?|Hx2]; [done|].
      apply elem_of_cons in Hy1 as [?|Hy1]; [done|].
      destruct (str_lt_irrefl x). eapply str_lt_trans; [apply (Hx y Hy1)|apply (Hy x Hx2)]. }
    f_equal. apply IH; [done|]. intros k. split; intros Hin.
    + pose proof (proj1 (Hiff k) ltac:(by right)) as H.
      apply elem_of_cons in H as [->|?]; [|done]. by destruct (str_lt_irrefl y (Hx y Hin)).
    + pose proof (proj2 (Hiff k) ltac:(by right)) as H.
      apply elem_of_cons in H as [->|?]; [|done]. by destruct (str_lt_irrefl y (Hy y Hin)).
Qed.

Lemma sorted_strings_strict (l : list string) :
  StronglySorted str_le l → NoDup l → StronglySorted str_lt l.
Proof.
  induction 1 as [|x l Hs IH Hall]; intros Hnd; [constructor|].
  apply NoDup_cons in Hnd as [Hx Hnd]. constructor; [by apply IH|].
  rewrite Forall_forall in Hall |- *. intros y Hy.
  destruct (proj1 (str_le_lt_eq x y) (Hall y Hy)) as [?| ->]; [done|]. by destruct Hx.
Qed.

Lemma py_sorted_strings_strict (l : list string) :
  NoDup l → StronglySorted str_lt (py_sorted String.leb l).
Proof.
  intros Hnd. apply sorted_strings_strict; [|by rewrite py_sorted_perm].
  apply (py_sorted_sorted String.leb).
  - intros x y Hxy. apply str_leb_false_lt in Hxy. by apply str_lt_le.
  - apply str_le_trans.
Qed.

Lemma sorted_map_mono {A B : Type} (R1 : relation A) (R2 : relation B) (f : A → B)
    (P : A → Prop) (l : list A) :
  (∀ x y, P x → P y → R1 x y → R2 (f x) (f y)) →
  Forall P l → StronglySorted R1 l → StronglySorted R2 (map f l).
Proof.
  intros Hmono HP Hs. induction Hs as [|x l Hs IH Hall]; simpl; [constructor|].
  apply Forall_cons in HP as [Hx HP]. constructor; [by apply IH|].
  rewrite Forall_forall in Hall, HP. apply Forall_forall.
  intros z [y [-> Hy]]%list_elem_of_fmap. apply Hmono; auto.
Qed.

(** The keys of the dictionary of the merger, sorted, are the keys of the
    months of the records. *)
Lemma merged_keys_sorted (l : list item) :
  Forall has_date l →
  py_sorted String.leb (dict_of_pairs (map (λ it, (item_key it, valor it)) l)).*1
  = map month_text (months_of l).
Proof.
  intros Hl. apply sorted_strings_unique.
  - apply py_sorted_strings_strict, dict_of_pairs_NoDup.
  - eapply (sorted_map_mono ym_lt str_lt month_text ym_valid);
      [|apply months_of_valid|apply months_of_sorted].
    intros x y Hx Hy. by apply month_text_lt.
  - intros k. rewrite elem_of_py_sorted, dict_of_pairs_keys, list_elem_of_fmap.
    rewrite Forall_forall in Hl. split.
    + intros [[k' v] [-> [it [[= -> ->] Hit]]%list_elem_of_fmap]]. simpl.
      destruct (has_date_ym it (Hl it Hit)) as [ym Hym].
      apply list_elem_of_fmap. exists ym. split; [by apply item_key_ym|].
      apply elem_of_months_of. eauto.
    + intros [ym [-> [it [Hit Hym]]%elem_of_months_of]]%list_elem_of_fmap.
      exists (item_key it, valor it). split; [simpl; symmetry; by apply item_key_ym|].
      apply list_elem_of_fmap. eauto.
Qed.

Lemma last_in_month_is_Some (l : list item) (ym : Z * Z) :
  ym ∈ months_of l → is_Some (last_in_month l ym).
Proof.
  intros [it [Hit Hym]]%elem_of_months_of. unfold last_in_month.
  destruct (filter (in_month ym) l) as [|x xs] eqn:E.
  - exfalso. eapply not_elem_of_nil. rewrite <- E. by apply list_elem_of_filter.
  - rewrite <- E. apply last_is_Some. by rewrite E.
Qed.

(** The dictionary of the merger, written out month by month in the order
    of the keys, is the list deduplicated by month. *)
Lemma merged_rows (l : list item) :
  Forall has_date l →
  rmapM (month_record (dict_of_pairs (map (λ it, (item_key it, valor it)) l)))
        (py_sorted String.leb (dict_of_pairs (map (λ it, (item_key it, valor it)) l)).*1)
  = Ok (month_dedup l).
Proof.
  intros Hl. rewrite (merged_keys_sorted l Hl). unfold month_dedup.
  apply rmapM_map_Ok. intros ym Hym.
  pose proof (months_of_valid l) as Hv. rewrite Forall_forall in Hv. specialize (Hv ym Hym).
  destruct (month_shape ym Hv) as (Hsplit & _ & _ & Hfirst).
  unfold month_record. rewrite Hsplit, dict_of_pairs_get.
  rewrite (dict_get_reverse_last item_key valor).
  assert (E : filter (λ it, item_key it = month_text ym) l = filter (in_month ym) l).
  { apply filter_ext_Forall. eapply Forall_impl; [exact Hl|].
    intros it Hit. by apply item_key_in_month. }
  rewrite E. fold (last_in_month l ym).
  destruct (last_in_month_is_Some l ym Hym) as [it Hlast]. rewrite Hlast. simpl.
  by rewrite Hfirst.
Qed.

Lemma cut_at_has_date (c : string) (items_old items_new : list item) :
  Forall has_date items_old → Forall has_date items_new →
  Forall has_date (cut_at c items_old items_new).
Proof.
  rewrite !Forall_forall. intros Ho Hn it. unfold cut_at.
  rewrite elem_of_app, !list_elem_of_filter. intros [[_ ?]|[_ ?]]; auto.
Qed.

(** The merger computes the deduplication by month of the old records
    before the cutover followed by the new records from the cutover on. *)
Lemma merge_at_dedup (c : string) (items_old items_new : list item) :
  Forall has_date items_old → Forall has_date items_new →
  merge_poup_series_at c items_old items_new = Ok (month_dedup (cut_at c items_old items_new)).
Proof.
  intros Ho Hn. rewrite (merge_at_unfold c _ _ Ho Hn). cbv zeta.
  apply merged_rows, cut_at_has_date; done.
Qed.

(** *** The deduplication by month *)

Lemma month_dedup_dates (l : list item) :
  map data (month_dedup l) = map (λ ym, Some (first_of_month ym)) (months_of l).
Proof. unfold month_dedup. by rewrite map_map. Qed.

Lemma last_in_month_elem (l : list item) (ym : Z * Z) (it : item) :
  last_in_month l ym = Some it → it ∈ l ∧ in_month ym it.
Proof.
  unfold last_in_month. intros H.
  assert (Hin : it ∈ filter (in_month ym) l).
  { apply last_Some in H as [l' ->]. apply elem_of_app. right. left. }
  by apply list_elem_of_filter in Hin as [? ?].
Qed.

Lemma elem_of_month_dedup (l : list item) (ym : Z * Z) (v : option string) :
  ym_valid ym →
  mkitem (Some (first_of_month ym)) v ∈ month_dedup l ↔
  ∃ it, last_in_month l ym = Some it ∧ valor it = v.
Proof.
  intros Hv. unfold month_dedup. rewrite list_elem_of_fmap. split.
  - intros [ym' [Heq Hin]].
    pose proof (f_equal data Heq) as Hf. pose proof (f_equal valor Heq) as Hval.
    simpl in Hf, Hval. assert (Hf' : first_of_month ym = first_of_month ym') by congruence.
    pose proof (months_of_valid l) as Hall. rewrite Forall_forall in Hall.
    apply first_of_month_inj in Hf'; [|done|by apply Hall]. subst ym'.
    destruct (last_in_month_is_Some l ym Hin) as [it Hit]. exists it.
    split; [done|]. by rewrite Hval, Hit.
  - intros [it [Hit <-]]. exists ym. rewrite Hit. split; [done|].
    apply elem_of_months_of. exists it. by apply last_in_month_elem.
Qed.

Lemma filter_filter_side {A : Type} (P Q : A → Prop) `{!∀ x, Decision (P x)}
    `{!∀ x, Decision (Q x)} (b : bool) (l : list A) :
  (∀ x, P x → (Q x ↔ b = true)) →
  filter P (filter Q l) = if b then filter P l else [].
Proof.
  intros Hside. induction l as [|x l IH]; [by destruct b|].
  rewrite !filter_cons. destruct (decide (Q x)) as [HQ|HQ].
  - rewrite filter_cons, IH. destruct (decide (P x)) as [HP|HP]; [|done].
    apply (Hside x HP) in HQ. by subst.
  - rewrite IH. destruct (decide (P x)) as [HP|HP]; [|done].
    destruct b; [|done]. destruct HQ. by apply (Hside x HP).
Qed.

(** In the cut list a month is served by the side it lies on. *)
Lemma last_in_month_cut_at (c : string) (items_old items_new : list item) (ym : Z * Z) :
  last_in_month (cut_at c items_old items_new) ym =
  last_in_month (if String.ltb (month_text ym) c then items_old else items_new) ym.
Proof.
  unfold last_in_month, cut_at. rewrite filter_app.
  rewrite (filter_filter_side (in_month ym) (on_old_side c) (String.ltb (month_text ym) c)).
  2:{ intros it Hit. unfold on_old_side. by rewrite (item_key_ym it ym Hit). }
  rewrite (filter_filter_side (in_month ym) (on_new_side c)
             (negb (String.ltb (month_text ym) c))).
  2:{ intros it Hit. unfold on_new_side. rewrite (item_key_ym it ym Hit).
      by rewrite negb_true_iff. }
  destruct (String.ltb (month_text ym) c); simpl; [by rewrite app_nil_r|done].
Qed.

Lemma months_of_cut_at_same (c : string) (l : list item) :
  months_of (cut_at c l l) = months_of l.
Proof.
  apply sorted_months_unique; [apply months_of_sorted..|].
  intros ym. rewrite !elem_of_months_of. unfold cut_at. split.
  - intros [it [Hin Hym]]. exists it. split; [|done].
    apply elem_of_app in Hin as [Hin|Hin]; by apply list_elem_of_filter in Hin as [_ ?].
  - intros [it [Hin Hym]]. exists it. split; [|done].
    rewrite elem_of_app, !list_elem_of_filter. unfold on_old_side, on_new_side.
    destruct (String.ltb (item_key it) c); auto.
Qed.

Lemma month_dedup_cut_at_same (c : string) (l : list item) :
  month_dedup (cut_at c l l) = month_dedup l.
Proof.
  unfold month_dedup. rewrite months_of_cut_at_same. apply map_ext. intros ym.
  rewrite last_in_month_cut_at. by destruct (String.ltb (month_text ym) c).
Qed.

Lemma cutoff_2012_06 (ym : Z * Z) :
  ym_valid ym → String.ltb (month_text ym) "2012-06" = bool_decide (ym_lt ym (2012, 6)).
Proof.
  intros Hv. change "2012-06" with (month_text (2012, 6)).
  assert (Hc : ym_valid (2012, 6)) by (unfold ym_valid; simpl; lia).
  pose proof (month_text_lt ym (2012, 6) Hv Hc) as H. unfold str_lt in H.
  destruct (String.ltb _ _); case_bool_decide as Hlt; try done.
  - destruct Hlt. by apply H.
  - by apply H in Hlt.
Qed.

(** C3. For old and new raw records whose dates parse, the merger returns
    one record per month, the months strictly ascending in calendar order
    and each date the first day of its month. The months are those of the
    old records before 2012-06 and of the new records from 2012-06 on, and
    the value of a month is that of the last record of the month in the
    list that serves it: the old list before the cutover, the new list from
    it on. In particular an old record of 2012-05 and a new record of
    2012-06 give records 01/05/2012 and 01/06/2012, valued from the old and
    the new list. *)
Theorem C3_merge_by_cutover (items_old items_new : list item) :
  Forall has_date items_old → Forall has_date items_new →
  ∃ (out : list item) (months : list (Z * Z)),
    merge_poup_series items_old items_new = Ok out ∧
    map data out = map (λ ym, Some (first_of_month ym)) months ∧
    Forall ym_valid months ∧
    StronglySorted ym_lt months ∧
    (∀ ym, ym ∈ months ↔
       ∃ it, in_month ym it ∧
             ((ym_lt ym (2012, 6) ∧ it ∈ items_old) ∨
              (¬ ym_lt ym (2012, 6) ∧ it ∈ items_new))) ∧
    (∀ ym v, ym_valid ym →
       mkitem (Some (first_of_month ym)) v ∈ out ↔
       ∃ it, last_in_month (if bool_decide (ym_lt ym (2012, 6))
                            then items_old else items_new) ym = Some it ∧
             valor it = v) ∧
    (∀ a b, a ∈ items_old → in_month (2012, 5) a →
            b ∈ items_new → in_month (2012, 6) b →
       ∃ a' b', last_in_month items_old (2012, 5) = Some a' ∧
                last_in_month items_new (2012, 6) = Some b' ∧
                mkitem (Some "01/05/2012") (valor a') ∈ out ∧
                mkitem (Some "01/06/2012") (valor b') ∈ out).
Proof.
  intros Ho Hn. set (l := cut_at "2012-06" items_old items_new).
  assert (Hlast : ∀ ym, ym_valid ym →
            last_in_month l ym =
            last_in_month (if bool_decide (ym_lt ym (2012, 6))
                           then items_old else items_new) ym).
  { intros ym Hv. unfold l. by rewrite last_in_month_cut_at, cutoff_2012_06. }
  assert (Hcontent : ∀ ym v, ym_valid ym →
            mkitem (Some (first_of_month ym)) v ∈ month_dedup l ↔
            ∃ it, last_in_month (if bool_decide (ym_lt ym (2012, 6))
                                 then items_old else items_new) ym = Some it ∧
                  valor it = v).
  { intros ym v Hv. by rewrite elem_of_month_dedup, Hlast. }
  exists (month_dedup l), (months_of l).
  split; [by apply merge_at_dedup|]. split; [apply month_dedup_dates|].
  split; [apply months_of_valid|]. split; [apply months_of_sorted|].
  split; [|split; [exact Hcontent|]].
  - intros ym. rewrite elem_of_months_of. unfold l, cut_at. split.
    + intros [it [Hin Hym]]. exists it. split; [done|].
      pose proof (cutoff_2012_06 ym (item_ym_valid it ym Hym)) as Hc.
      apply elem_of_app in Hin as [Hin|Hin];
        apply list_elem_of_filter in Hin as [Hside Hin];
        unfold on_old_side, on_new_side in Hside;
        rewrite (item_key_ym it ym Hym), Hc in Hside.
      * left. by apply bool_decide_eq_true in Hside.
      * right. by apply bool_decide_eq_false in Hside.
    + intros [it [Hym Hside]]. exists it. split; [|done].
      pose proof (cutoff_2012_06 ym (item_ym_valid it ym Hym)) as Hc.
      rewrite elem_of_app, !list_elem_of_filter. unfold on_old_side, on_new_side.
      rewrite (item_key_ym it ym Hym), Hc.
      destruct Hside as [[Hlt Hin]|[Hge Hin]].
      * left. split; [by apply bool_decide_eq_true|done].
      * right. split; [by apply bool_decide_eq_false|done].
  - intros a b Ha Hma Hb Hmb.
    assert (H5 : is_Some (last_in_month items_old (2012, 5))).
    { apply last_in_month_is_Some, elem_of_months_of. eauto. }
    assert (H6 : is_Some (last_in_month items_new (2012, 6))).
    { apply last_in_month_is_Some, elem_of_months_of. eauto. }
    destruct H5 as [a' Ha'], H6 as [b' Hb']. exists a', b'.
    split; [done|]. split; [done|]. split.
    + apply (Hcontent (2012, 5)); [unfold ym_valid; simpl; lia|]. exists a'.
      by rewrite bool_decide_eq_true_2 by (unfold ym_lt, ym_idx; simpl; lia).
    + apply (Hcontent (2012, 6)); [unfold ym_valid; simpl; lia|]. exists b'.
      by rewrite bool_decide_eq_false_2 by (unfold ym_lt, ym_idx; simpl; lia).
Qed.

Lemma C3_witness :
  ∃ out, merge_poup_series
           [mkitem (Some "15/05/2012") (Some "0,50"); mkitem (Some "15/06/2012") (Some "0,51")]
           [mkitem (Some "15/05/2012") (Some "0,60"); mkitem (Some "15/06/2012") (Some "0,61");
            mkitem (Some "16/06/2012") (Some "0,62")] = Ok out ∧
         mkitem (Some "01/05/2012") (Some "0,50") ∈ out ∧
         mkitem (Some "01/06/2012") (Some "0,62") ∈ out.
Proof.
  destruct (C3_merge_by_cutover
    [mkitem (Some "15/05/2012") (Some "0,50"); mkitem (Some "15/06/2012") (Some "0,51")]
    [mkitem (Some "15/05/2012") (Some "0,60"); mkitem (Some "15/06/2012") (Some "0,61");
     mkitem (Some "16/06/2012") (Some "0,62")])
    as (out & months & Hout & _ & _ & _ & _ & _ & Hex).
  - repeat constructor; by eexists.
  - repeat constructor; by eexists.
  - exists out. split; [exact Hout|].
    destruct (Hex (mkitem (Some "15/05/2012") (Some "0,50"))
                  (mkitem (Some "15/06/2012") (Some "0,61")))
      as (a' & b' & Ha' & Hb' & H5 & H6).
    + left.
    + reflexivity.
    + right. left.
    + reflexivity.
    + vm_compute in Ha'. vm_compute in Hb'.
      injection Ha' as <-. injection Hb' as <-. split; [exact H5|exact H6].
Defined.

(** C5. Merging a series of raw records whose dates parse with itself, at
    any cutover, yields the series deduplicated by month with the last
    record of a month winning, each date set to the first day of its month,
    in ascending calendar order: the months of the result are exactly the
    months of the series, strictly ascending, and the value of each is that
    of the last record of the series in that month. *)
Theorem C5_merge_identity (c : string) (S : list item) :
  Forall has_date S →
  merge_poup_series_at c S S = Ok (month_dedup S) ∧
  map data (month_dedup S) = map (λ ym, Some (first_of_month ym)) (months_of S) ∧
  StronglySorted ym_lt (months_of S) ∧
  (∀ ym, ym ∈ months_of S ↔ ∃ it, it ∈ S ∧ in_month ym it) ∧
  (∀ ym v, ym_valid ym →
     mkitem (Some (first_of_month ym)) v ∈ month_dedup S ↔
     ∃ it, last_in_month S ym = Some it ∧ valor it = v).
Proof.
  intros HS. split; [|split; [|split; [|split]]].
  - rewrite (merge_at_dedup c S S HS HS). by rewrite month_dedup_cut_at_same.
  - apply month_dedup_dates.
  - apply months_of_sorted.
  - apply elem_of_months_of.
  - apply elem_of_month_dedup.
Qed.

Lemma C5_witness :
  merge_poup_series
    [mkitem (Some "20/07/2012") (Some "0,3"); mkitem (Some "15/05/2012") (Some "0,1");
     mkitem (Some "16/05/2012") (Some "0,2")]
    [mkitem (Some "20/07/2012") (Some "0,3"); mkitem (Some "15/05/2012") (Some "0,1");
     mkitem (Some "16/05/2012") (Some "0,2")]
  = Ok [mkitem (Some "01/05/2012") (Some "0,2"); mkitem (Some "01/07/2012") (Some "0,3")].
Proof.
  refine (proj1 (C5_merge_identity "2012-06"
    [mkitem (Some "20/07/2012") (Some "0,3"); mkitem (Some "15/05/2012") (Some "0,1");
     mkitem (Some "16/05/2012") (Some "0,2")] _)).
  repeat constructor; by eexists.
Defined.

(** ** The fetchers *)

Lemma fold_left_fmap {A B C : Type} (f : C → B → C) (g : A → B) (l : list A) (c : C) :
  fold_left f (map g l) c = fold_left (λ c x, f c (g x)) l c.
Proof. revert c. induction l as [|x l IH]; intros c; simpl; [done|]. by rewrite IH. Qed.

Lemma has_date_data (a b : item) : data a = data b → has_date a → has_date b.
Proof. unfold has_date, item_date. by intros ->. Qed.

Lemma rmapM_keyed (l : list item) :
  Forall has_date l →
  ∃ keyed, rmapM (λ it, s ← of_option TypeError (data it);
                        d ← of_option ValueError (strptime_dmy s);
                        Ok (d, it)) l = Ok keyed ∧
           map snd keyed = l ∧
           Forall (λ p : date * item, item_date p.2 = Some p.1) keyed.
Proof.
  induction 1 as [|it l Hit Hl IH].
  - exists []. by repeat split.
  - destruct IH as (keyed & Hk & Hsnd & Hall). destruct Hit as [d Hd].
    exists ((d, it) :: keyed). simpl. unfold item_date in Hd.
    destruct (data it) as [s|] eqn:Es; [|done]. simpl in Hd. simpl.
    rewrite Hd. simpl. rewrite Hk. simpl. split; [done|]. split; [by rewrite Hsnd|].
    constructor; [|done]. simpl. unfold item_date. by rewrite Es.
Qed.

(** Sorting by date succeeds when every date parses, and only reorders. *)
Lemma sort_by_date_ok (l : list item) :
  Forall has_date l →
  ∃ out, sort_by_date l = Ok out ∧ out ≡ₚ l ∧ StronglySorted item_date_le out.
Proof.
  intros Hl. destruct (rmapM_keyed l Hl) as (keyed & Hk & Hsnd & Hall).
  unfold sort_by_date. rewrite Hk. simpl.
  set (le := λ a b : date * item, date_leb a.1 b.1).
  exists (map snd (py_sorted le keyed)). split; [done|]. split.
  - etrans; [apply Permutation_map, py_sorted_perm|]. by rewrite Hsnd.
  - eapply (sorted_map_mono (le_rel le) item_date_le snd
              (λ p : date * item, item_date p.2 = Some p.1)).
    + intros x y Hx Hy Hxy. unfold item_date_le. rewrite Hx, Hy.
      unfold le_rel, le, date_leb in Hxy. by apply Z.leb_le in Hxy.
    + by rewrite py_sorted_perm.
    + apply (py_sorted_sorted le); unfold le, date_leb.
      * intros x y. rewrite Z.leb_gt, Z.leb_le. lia.
      * intros x y z. rewrite !Z.leb_le. lia.
Qed.

(** One date that does not parse makes the sort, and the fetch, raise. *)
Lemma sort_by_date_raises (l : list item) :
  ¬ Forall has_date l → ∃ e, sort_by_date l = Raise e.
Proof.
  intros Hn. unfold sort_by_date.
  assert (H : ∃ e, rmapM (λ it, s ← of_option TypeError (data it);
                               d ← of_option ValueError (strptime_dmy s);
                               Ok (d, it)) l = Raise e).
  { induction l as [|it l IH]; [destruct Hn; constructor|]. simpl.
    destruct (data it) as [s|] eqn:Es; simpl; [|by eexists].
    destruct (strptime_dmy s) as [d|] eqn:Ed; simpl; [|by eexists].
    destruct IH as [e He].
    - intros Hl. apply Hn. constructor; [|done]. exists d. unfold item_date.
      by rewrite Es.
    - rewrite He. by eexists. }
  destruct H as [e ->]. by eexists.
Qed.

Lemma fetched_perm (all_items out0 out : list item) :
  out ≡ₚ out0 → StronglySorted item_date_le out →
  NoDup (map data out0) → Forall has_date out0 →
  (∀ k v, mkitem (Some k) v ∈ out0 ↔
          k ≠ "" ∧ ∃ it, last (filter (λ it, data it = Some k) all_items) = Some it ∧
                         valor it = v) →
  fetched all_items out.
Proof.
  intros Hp Hs Hnd Hd Hc. unfold fetched. split; [done|].
  split; [by rewrite Hp|]. split; [by rewrite Hp|].
  intros k v. by rewrite Hp.
Qed.

Lemma last_filter_elem {A : Type} (P : A → Prop) `{!∀ x, Decision (P x)} (l : list A) (x : A) :
  last (filter P l) = Some x → x ∈ l ∧ P x.
Proof.
  intros Hl. assert (Hin : x ∈ filter P l).
  { apply last_Some in Hl as [l' ->]. apply elem_of_app. right. left. }
  by apply list_elem_of_filter in Hin as [? ?].
Qed.

(** The post-processing of [fetch_sgs_series]. *)
Lemma fetch_series_post (all_items : list item) :
  Forall date_parses_if_any all_items →
  ∃ out,
    sort_by_date
      (omap (λ kv : option string * option string,
               if truthy kv.1 then Some (mkitem kv.1 kv.2) else None)
            (fold_left (λ seen it, dict_set (data it) (valor it) seen) all_items []))
    = Ok out ∧ fetched all_items out.
Proof.
  intros Hall.
  set (seen := fold_left (λ seen it, dict_set (data it) (valor it) seen) all_items []).
  assert (Eseen : seen = dict_of_pairs (map (λ it, (data it, valor it)) all_items)).
  { unfold seen, dict_of_pairs. by rewrite fold_left_fmap. }
  set (out0 := omap (λ kv : option string * option string,
                       if truthy kv.1 then Some (mkitem kv.1 kv.2) else None) seen).
  assert (Hc : ∀ k v, mkitem (Some k) v ∈ out0 ↔
             k ≠ "" ∧ ∃ it, last (filter (λ it, data it = Some k) all_items) = Some it ∧
                            valor it = v).
  { intros k v. unfold out0. rewrite list_elem_of_omap, Eseen. split.
    - intros [[k' v'] [Hin Hkv]]. simpl in Hkv.
      destruct (truthy k') eqn:Et; [|done]. injection Hkv as -> ->.
      split. { intros ->. done. }
      apply elem_of_dict_of_pairs in Hin.
      rewrite (dict_get_reverse_last data valor) in Hin.
      destruct (last _) as [it|]; [|done]. exists it. split; [done|]. by injection Hin.
    - intros [Hk [it [Hlast <-]]]. exists (Some k, valor it). split.
      + apply elem_of_dict_of_pairs. rewrite (dict_get_reverse_last data valor).
        by rewrite Hlast.
      + simpl. by rewrite (proj2 (String.eqb_neq k "") Hk). }
  assert (Hd : Forall has_date out0).
  { apply Forall_forall. intros [[k|] v] Hin.
    - apply Hc in Hin as [Hk [it [Hlast _]]].
      apply last_filter_elem in Hlast as [Hin Hdata].
      rewrite Forall_forall in Hall. apply (has_date_data it); [done|].
      apply Hall; [done|]. rewrite Hdata. by apply truthy_Some.
    - unfold out0 in Hin. apply list_elem_of_omap in Hin as [[k' v'] [_ Hkv]].
      simpl in Hkv. destruct k'; simpl in Hkv; [|done].
      by destruct (negb _). }
  assert (Hnd : NoDup (map data out0)).
  { unfold out0. assert (Hk : NoDup seen.*1) by (rewrite Eseen; apply dict_of_pairs_NoDup).
    clear -Hk. induction seen as [|[k v] seen IH]; simpl; [constructor|].
    simpl in Hk. apply NoDup_cons in Hk as [Hk Hnd].
    destruct (truthy k); simpl; [|by apply IH]. apply NoDup_cons. split; [|by apply IH].
    intros Hin. apply Hk. apply list_elem_of_fmap in Hin as [it [-> Hin]].
    apply list_elem_of_omap in Hin as [[k' v'] [Hin Hkv]]. simpl in Hkv.
    destruct (truthy k'); [|done]. injection Hkv as <-. simpl.
    apply list_elem_of_fmap. by exists (k', v'). }
  destruct (sort_by_date_ok out0 Hd) as (out & Hout & Hp & Hs).
  exists out. split; [done|]. by apply (fetched_perm all_items out0).
Qed.

(** The post-processing of [fetch_sgs_series_range]. *)
Lemma fetch_range_post (all_items : list item) :
  Forall date_parses_if_any all_items →
  ∃ out,
    sort_by_date
      (map (λ kv : string * option string, mkitem (Some kv.1) kv.2)
           (fold_left (λ seen it,
                         if truthy (data it)
                         then dict_set (default "" (data it)) (valor it) seen
                         else seen) all_items []))
    = Ok out ∧ fetched all_items out.
Proof.
  intros Hall.
  set (seen := fold_left (λ seen it,
                 if truthy (data it) then dict_set (default "" (data it)) (valor it) seen
                 else seen) all_items []).
  set (kept := filter (λ it, truthy (data it) = true) all_items).
  assert (Eseen : seen = dict_of_pairs (map (λ it, (default "" (data it), valor it)) kept)).
  { unfold seen, dict_of_pairs, kept. rewrite fold_left_fmap.
    generalize (@nil (string * option string)).
    induction all_items as [|it l IH]; intros acc; simpl; [done|].
    rewrite filter_cons. destruct (truthy (data it)) eqn:Et.
    - rewrite decide_True by done. simpl. apply IH. by apply Forall_inv_tail in Hall.
    - rewrite decide_False by done. apply IH. by apply Forall_inv_tail in Hall. }
  set (out0 := map (λ kv : string * option string, mkitem (Some kv.1) kv.2) seen).
  assert (Hkept : ∀ k, k ≠ "" →
            filter (λ it, default "" (data it) = k) kept
            = filter (λ it, data it = Some k) all_items).
  { intros k Hk. unfold kept. rewrite list_filter_filter. apply filter_ext_Forall.
    apply Forall_forall. intros it _. destruct (data it) as [s|]; simpl.
    - split.
      + intros [-> _]. done.
      + intros [= ->]. split; [done|]. by apply negb_true_iff, String.eqb_neq.
    - split; [by intros [_ ?]|done]. }
  assert (Hempty : ∀ it, it ∈ kept → default "" (data it) ≠ "").
  { intros it [Ht _]%list_elem_of_filter. destruct (data it) as [s|]; [|done]. simpl in *.
    by apply negb_true_iff, String.eqb_neq in Ht. }
  assert (Hc : ∀ k v, mkitem (Some k) v ∈ out0 ↔
             k ≠ "" ∧ ∃ it, last (filter (λ it, data it = Some k) all_items) = Some it ∧
                            valor it = v).
  { intros k v. unfold out0. rewrite list_elem_of_fmap, Eseen. split.
    - intros [[k' v'] [Hkv Hin]]. simpl in Hkv. injection Hkv as <- <-.
      apply elem_of_dict_of_pairs in Hin.
      rewrite (dict_get_reverse_last (λ it, default "" (data it)) valor) in Hin.
      destruct (last _) as [it|] eqn:El; [|done].
      assert (Hk : k ≠ "").
      { apply last_filter_elem in El as [Hin' <-]. by apply Hempty. }
      split; [done|]. rewrite (Hkept k Hk) in El. exists it. split; [done|].
      by injection Hin.
    - intros [Hk [it [Hlast <-]]]. exists (k, valor it). split; [done|].
      apply elem_of_dict_of_pairs.
      rewrite (dict_get_reverse_last (λ it, default "" (data it)) valor).
      by rewrite (Hkept k Hk), Hlast. }
  assert (Hd : Forall has_date out0).
  { apply Forall_forall. intros [[k|] v] Hin.
    - apply Hc in Hin as [Hk [it [Hlast _]]].
      apply last_filter_elem in Hlast as [Hin Hdata].
      rewrite Forall_forall in Hall. apply (has_date_data it); [done|].
      apply Hall; [done|]. rewrite Hdata. by apply truthy_Some.
    - unfold out0 in Hin. by apply list_elem_of_fmap in Hin as [[k' v'] [? _]]. }
  assert (Hnd : NoDup (map data out0)).
  { unfold out0. rewrite map_map. simpl.
    assert (Hk : NoDup seen.*1) by (rewrite Eseen; apply dict_of_pairs_NoDup).
    change (NoDup (Some <$> seen.*1)) || rewrite <- (map_map fst Some seen).
    apply (NoDup_fmap_2 Some), Hk. }
  destruct (sort_by_date_ok out0 Hd) as (out & Hout & Hp & Hs).
  exists out. split; [done|]. by apply (fetched_perm all_items out0).
Qed.
Lemma fetch_sgs_series_ok (w : world) (serie : string) (start_year : Z) (end_year : option Z) :
  Forall date_parses_if_any
    (gather w serie (year_windows start_year (default (today_year w) end_year))) →
  ∃ out, fetch_sgs_series w serie start_year end_year = Ok out ∧
         fetched (gather w serie
                    (year_windows start_year (default (today_year w) end_year))) out.
Proof. intros Hall. unfold fetch_sgs_series. cbv zeta. by apply fetch_series_post. Qed.

Lemma fetch_sgs_series_range_ok (w : world) (serie start_date end_date : string)
    (step_years : Z) (d0 d1 : date) (wins : list (date * date)) :
  strptime_dmy start_date = Some d0 → strptime_dmy end_date = Some d1 →
  range_windows loop_fuel d0 d1 step_years (year d0) = Ok wins →
  Forall date_parses_if_any
    (gather w serie (map (λ c : date * date, (strftime_dmy c.1, strftime_dmy c.2)) wins)) →
  ∃ out, fetch_sgs_series_range w serie start_date end_date step_years = Ok out ∧
         fetched (gather w serie
                    (map (λ c : date * date, (strftime_dmy c.1, strftime_dmy c.2)) wins))
                 out.
Proof.
  intros H0 H1 Hw Hall.
  unfold fetch_sgs_series_range. rewrite H0, H1.
  cbn [of_option mbind result_bind]. rewrite Hw. cbn [mbind result_bind].
  by apply fetch_range_post.
Qed.

(** ** The series invariant *)

Lemma str_compare_app_same (a b s : string) :
  String.length a = String.length b →
  String.compare a b = Lt → String.compare (a +:+ s) (b +:+ s) = Lt.
Proof.
  revert b. induction a as [|x a IH]; intros [|y b] Hlen; simpl in *; try done.
  destruct (Ascii.compare x y); try done. apply IH. by injection Hlen.
Qed.

Lemma str_lt_app_same (a b s : string) :
  String.length a = String.length b → str_lt a b → str_lt (a +:+ s) (b +:+ s).
Proof. rewrite !str_lt_compare. apply str_compare_app_same. Qed.

Lemma daily_factor_key (w : world) (it : item) (key : string) (fd : num) :
  daily_factor w it = Some (key, fd) → ∃ ym, ym_valid ym ∧ key = month_text ym.
Proof.
  unfold daily_factor. destruct (_ || _); [done|].
  destruct (strptime_dmy _) as [d|] eqn:Ed; [|done].
  destruct (py_float _); [|done]. destruct (py_pow _ _ _); [|done].
  intros [= <- _]. exists (year d, month d). split; [|done].
  by apply valid_date_ym, (strptime_dmy_valid _ _ Ed).
Qed.

Lemma buckets_keys (w : world) (items : list item) (acc : list (string * list num)) :
  NoDup acc.*1 → Forall (λ k, ∃ ym, ym_valid ym ∧ k = month_text ym) acc.*1 →
  let buckets := fold_left (λ b it,
                   match daily_factor w it with
                   | Some (key, fd) => bucket_append key fd b
                   | None => b
                   end) items acc in
  NoDup buckets.*1 ∧ Forall (λ k, ∃ ym, ym_valid ym ∧ k = month_text ym) buckets.*1.
Proof.
  revert acc. induction items as [|it items IH]; intros acc Hnd Hk; simpl; [done|].
  apply IH.
  - destruct (daily_factor w it) as [[key fd]|]; [|done]. by apply dict_set_NoDup.
  - destruct (daily_factor w it) as [[key fd]|] eqn:E; [|done].
    rewrite Forall_forall in Hk |- *. intros k. unfold bucket_append.
    rewrite dict_set_keys. intros [->|Hin]; [|by apply Hk].
    by apply (daily_factor_key w it key fd).
Qed.

Lemma selic1178_sorted (w : world) (cfg : Config) (start_year : Z)
    (out : list (string * num)) :
  fetch_selic1178_monthly_pairs w cfg start_year = Ok out → StronglySorted fst_lt out.
Proof.
  unfold fetch_selic1178_monthly_pairs.
  destruct (fetch_sgs_series _ _ _ _) as [items| |]; [|done..].
  cbn [mbind result_bind]. destruct items as [|it0 items0]; [intros [= <-]; constructor|].
  generalize (it0 :: items0). clear it0 items0. intros items [= <-].
  destruct (buckets_keys w items [] ltac:(constructor) ltac:(constructor)) as [Hnd Hk].
  cbv zeta in Hnd, Hk.
  eapply (sorted_map_mono str_lt fst_lt _ (λ k, ∃ ym, ym_valid ym ∧ k = month_text ym)).
  - intros x y [ymx [Hx ->]] [ymy [Hy ->]] Hlt. unfold fst_lt. simpl.
    apply str_lt_app_same; [|done].
    destruct (month_shape ymx Hx) as (_ & -> & _). by destruct (month_shape ymy Hy) as (_ & -> & _).
  - by rewrite py_sorted_perm.
  - by apply py_sorted_strings_strict.
Qed.

Lemma read_js_pairs_sorted (fs : files) (path : string) (out : list (string * float)) :
  read_js_pairs fs path = Ok out →
  StronglySorted fst_le out ∧ (NoDup out.*1 → StronglySorted fst_lt out).
Proof.
  unfold read_js_pairs. destruct (fs !! path) as [content|].
  - destruct (rmapM _ _) as [l| |]; [|done..]. cbn [mbind result_bind]. intros [= <-].
    split; [apply py_sorted_fst_le|]. intros Hnd.
    apply sorted_le_NoDup_lt; [apply py_sorted_fst_le|done].
  - intros [= <-]. split; [constructor|]. intros _. constructor.
Qed.

(** C8, the claim as stated fails for the reader of the persisted file: a
    file that lists a date twice is read as a series with that date
    twice. *)
Lemma C8_counterexample :
  ¬ (∀ (fs : files) (path : string) (out : list (string * float)),
       read_js_pairs fs path = Ok out → StronglySorted fst_lt out).
Proof.
  intros H.
  specialize (H {[ "selic_data.js" := twice_dated_js ]} "selic_data.js"
                [("2020-01-01", float_of_decimal false 10 (-1));
                 ("2020-01-01", float_of_decimal false 20 (-1))]).
  assert (Hs : StronglySorted (@fst_lt float)
                 [("2020-01-01", float_of_decimal false 10 (-1));
                  ("2020-01-01", float_of_decimal false 20 (-1))]).
  { apply H. vm_compute. reflexivity. }
  apply StronglySorted_inv in Hs as [_ Hall]. apply Forall_inv in Hall.
  by apply str_lt_irrefl in Hall.
Qed.

(** C8, amended. The normalizer, the daily-to-monthly aggregator and the
    merger followed by the normalizer return series whose dates are
    strictly ascending, hence unique. The reader of the persisted file
    returns the entries of the file sorted by date: ascending, and strictly
    ascending when the dates it read are distinct. *)
Theorem C8_series_dates_ascending :
  (∀ items : list item, StronglySorted fst_lt (to_pairs items)) ∧
  (∀ (w : world) (cfg : Config) (start_year : Z) (out : list (string * num)),
     fetch_selic1178_monthly_pairs w cfg start_year = Ok out → StronglySorted fst_lt out) ∧
  (∀ items_old items_new items : list item,
     merge_poup_series items_old items_new = Ok items →
     StronglySorted fst_lt (to_pairs items)) ∧
  (∀ (fs : files) (path : string) (out : list (string * float)),
     read_js_pairs fs path = Ok out →
     StronglySorted fst_le out ∧ (NoDup out.*1 → StronglySorted fst_lt out)).
Proof.
  split; [apply to_pairs_sorted|]. split; [apply selic1178_sorted|].
  split; [intros; apply to_pairs_sorted|]. apply read_js_pairs_sorted.
Qed.

Lemma C8_witness :
  StronglySorted (@fst_le float)
    [("2020-01-01", float_of_decimal false 10 (-1));
     ("2020-01-01", float_of_decimal false 20 (-1))] ∧
  StronglySorted (@fst_lt float)
    [("2020-01-01", f_one); ("2020-02-01", f_one)].
Proof.
  destruct C8_series_dates_ascending as (_ & _ & _ & Hread). split.
  - apply (Hread {[ "selic_data.js" := twice_dated_js ]} "selic_data.js").
    vm_compute. reflexivity.
  - apply (Hread {[ "selic_data.js" := serialize_js CONFIG "selicFactors"
                      [("2020-01-01", f_one); ("2020-02-01", f_one)] ]} "selic_data.js").
    + vm_compute. reflexivity.
    + apply (bool_decide_unpack _). vm_compute. exact I.
Defined.

(** ** The persisted file *)

(** C9. The reader of the persisted file can raise: the pattern admits a
    factor such as [1.2.3], which [float] rejects, and neither the reader
    nor the pipeline catches the [ValueError]. *)
Theorem C9_read_js_pairs_raises :
  finditer bad_factor_js = [("2020-01-01", "1.2.3")] ∧
  py_float "1.2.3" = None ∧
  read_js_pairs {[ "./selic_data.js" := bad_factor_js ]} "./selic_data.js"
    = Raise ValueError ∧
  update_selic world_write_fails CONFIG {[ "./selic_data.js" := bad_factor_js ]}
    2020 "month" "4390"
    = Crashed ValueError {[ "./selic_data.js" := bad_factor_js ]}.
Proof. repeat split; vm_compute; reflexivity. Qed.

(** ** The pipelines *)

Lemma last_char_app (s t : string) : t ≠ "" → last_char (s +:+ t) = last_char t.
Proof.
  intros Ht. induction s as [|c s IH]; [done|]. simpl.
  destruct (s +:+ t) eqn:E; [|done].
  destruct s; simpl in E; [by subst|done].
Qed.

Lemma last_char_path_join (a b : string) : b ≠ "" → last_char (path_join a b) = last_char b.
Proof.
  intros Hb. unfold path_join. destruct (starts_with_slash b); [done|].
  destruct (last_char a) as [c|]; [|done].
  destruct (Ascii.eqb c "/"); [by apply last_char_app|].
  rewrite last_char_app; [by apply (last_char_app "/")|]. by destruct b.
Qed.

Lemma backup_name_last (a base stamp : string) :
  last_char (path_join a (base +:+ "." +:+ stamp +:+ ".bak")) = Some "k"%char.
Proof.
  assert (H1 : stamp +:+ ".bak" ≠ "") by (by destruct stamp).
  assert (H2 : last_char (base +:+ "." +:+ stamp +:+ ".bak") = Some "k"%char).
  { rewrite last_char_app by done. change ("." +:+ stamp +:+ ".bak")
      with (String "." (stamp +:+ ".bak")). simpl.
    destruct (stamp +:+ ".bak") eqn:E; [done|]. rewrite <- E. by apply last_char_app. }
  rewrite last_char_path_join; [done|]. intros E. by rewrite E in H2.
Qed.

Lemma tmp_not_backup (target a base stamp : string) :
  target +:+ ".tmp" ≠ path_join a (base +:+ "." +:+ stamp +:+ ".bak").
Proof.
  intros E. pose proof (backup_name_last a base stamp) as H. rewrite <- E in H.
  by rewrite last_char_app in H.
Qed.

Lemma tmp_not_target (target : string) : target +:+ ".tmp" ≠ target.
Proof.
  intros E. apply (f_equal String.length) in E. rewrite str_length_app in E.
  simpl in E. lia.
Qed.

(** A backup never changes the file it copies; when it answers with a
    path, that path is not the file and holds the content of the file. *)
Lemma backup_file_spec (w : world) (cfg : Config) (fs : files) (path : string) :
  let '(bak, fs1) := backup_file w cfg fs path in
  fs1 !! path = fs !! path ∧
  match bak with
  | Some b => b ≠ path ∧ b ≠ path +:+ ".tmp" ∧ is_Some (fs !! path) ∧ fs1 !! b = fs !! path
  | None => True
  end.
Proof.
  unfold backup_file, copy2. destruct (fs !! path) as [c|] eqn:E; [|done].
  set (dest := path_join _ _).
  destruct (decide (path = dest)) as [Heq|Hne]; [done|].
  destruct (backup_fault w) as [| |junk].
  - rewrite lookup_insert_ne by done. split; [done|].
    split; [done|]. split; [apply not_eq_sym, tmp_not_backup|].
    by rewrite lookup_insert_eq.
  - done.
  - by rewrite lookup_insert_ne.
Qed.




















(** ** The window of the new Poupanca series *)

Lemma sort_by_date_has_date (l out : list item) :
  sort_by_date l = Ok out → Forall has_date out ∧ out ≡ₚ l.
Proof.
  intros Hs. destruct (decide (Forall has_date l)) as [Hl|Hl].
  - destruct (sort_by_date_ok l Hl) as (out' & Hout' & Hp & _).
    rewrite Hs in Hout'. injection Hout' as <-. split; [by rewrite Hp|done].
  - destruct (sort_by_date_raises l Hl) as [e He]. congruence.
Qed.

Lemma fetch_range_has_date (w : world) (serie start_date end_date : string)
    (step_years : Z) (out : list item) :
  fetch_sgs_series_range w serie start_date end_date step_years = Ok out →
  Forall has_date out.
Proof.
  unfold fetch_sgs_series_range.
  destruct (strptime_dmy start_date); [|done].
  destruct (strptime_dmy end_date); [|done]. cbn [of_option mbind result_bind].
  destruct (range_windows _ _ _ _ _); [|done..]. cbn [mbind result_bind].
  intros H. by apply sort_by_date_has_date in H as [? _].
Qed.

Lemma poup_new_windows_checked :
  range_windows loop_fuel (mkdate 2012 6 1) (mkdate 2025 9 25) 2 2012 = Ok poup_new_windows ∧
  Forall (λ c : date * date,
            strptime_dmy (strftime_dmy c.1) = Some c.1 ∧
            strptime_dmy (strftime_dmy c.2) = Some c.2 ∧
            date_ord (mkdate 2012 6 1) ≤ date_ord c.1 ∧
            date_ord c.2 ≤ date_ord (mkdate 2025 9 25)) poup_new_windows.
Proof.
  split; [vm_compute; reflexivity|].
  repeat constructor; vm_compute; congruence.
Qed.

Lemma elem_of_gather (w : world) (serie : string) (wins : list (string * string)) (it : item) :
  it ∈ gather w serie wins →
  ∃ win body, win ∈ wins ∧ http_get_json w serie win.1 win.2 = Some body ∧ it ∈ body.
Proof.
  unfold gather. intros Hin. apply list_elem_of_In, in_concat in Hin as [body [Hb Hit]].
  apply in_map_iff in Hb as [win [Hb Hwin]]. exists win, body.
  apply list_elem_of_In in Hwin, Hit.
  destruct (http_get_json w serie win.1 win.2) as [b|]; simpl in Hb; subst.
  - done.
  - by apply elem_of_nil in Hit.
Qed.

Lemma date_by_2025_09 (d : date) :
  valid_date d = true → date_ord d ≤ date_ord (mkdate 2025 9 25) →
  by_2025_09 (year d, month d).
Proof.
  intros Hv Hle. split; [by apply valid_date_ym|].
  unfold valid_date in Hv. rewrite !andb_true_iff, !Z.leb_le in Hv.
  assert (Hd : day d ≤ 31).
  { destruct Hv as [_ Hd]. unfold days_in_month in Hd.
    destruct (month d =? 2); [destruct (is_leap _); lia|]. destruct (_ || _); lia. }
  unfold date_ord, ym_idx in *. simpl in *. lia.
Qed.

(** The records fetched of the new series lie in 2012-06 to 2025-09. *)
Lemma poup_new_items_window (w : world) (serie : string) (items_new : list item) :
  answers_in_window w serie →
  fetch_sgs_series_range w serie "01/06/2012" "25/09/2025" 2 = Ok items_new →
  Forall (λ it, ∃ d, item_date it = Some d ∧ by_2025_09 (year d, month d)) items_new.
Proof.
  intros Hans Hf. destruct poup_new_windows_checked as [Hw Hall].
  set (wins := map (λ c : date * date, (strftime_dmy c.1, strftime_dmy c.2)) poup_new_windows).
  assert (Hin : Forall (in_window (mkdate 2012 6 1) (mkdate 2025 9 25)) (gather w serie wins)).
  { apply Forall_forall. intros it Hit.
    apply elem_of_gather in Hit as (win & body & Hwin & Hbody & Hit).
    apply list_elem_of_fmap in Hwin as [c [-> Hc]]. simpl in Hbody.
    rewrite Forall_forall in Hall. destruct (Hall c Hc) as (H1 & H2 & H3 & H4).
    pose proof (Hans _ _ _ _ _ H1 H2 Hbody) as Hb. rewrite Forall_forall in Hb.
    destruct (Hb it Hit) as [d [Hd Hr]]. exists d. split; [done|]. lia. }
  destruct (fetch_sgs_series_range_ok w serie "01/06/2012" "25/09/2025" 2
              (mkdate 2012 6 1) (mkdate 2025 9 25) poup_new_windows)
    as (out & Hout & _ & _ & Hdates & Hcontent).
  - vm_compute; reflexivity.
  - vm_compute; reflexivity.
  - exact Hw.
  - eapply Forall_impl; [exact Hin|]. intros it [d [Hd _]] _. by exists d.
  - rewrite Hf in Hout. injection Hout as <-.
    apply Forall_forall. intros it Hit.
    rewrite Forall_forall in Hdates. destruct (Hdates it Hit) as [d Hd].
    exists d. split; [done|].
    unfold item_date in Hd. destruct (data it) as [k|] eqn:Ek; [|done].
    assert (Hit' : mkitem (Some k) (valor it) ∈ items_new).
    { destruct it as [dt vl]. simpl in Ek. by subst. }
    apply Hcontent in Hit' as [_ [it' [Hlast _]]].
    apply last_filter_elem in Hlast as [Hin' Hdata].
    rewrite Forall_forall in Hin. destruct (Hin it' Hin') as [d' [Hd' Hr]].
    unfold item_date in Hd'. rewrite Hdata in Hd'. simpl in Hd, Hd'.
    assert (d' = d) by congruence. subst d'.
    apply date_by_2025_09; [by apply (strptime_dmy_valid k)|lia].
Qed.

Lemma month_dedup_elem (l : list item) (it : item) :
  it ∈ month_dedup l →
  ∃ ym it0, ym_valid ym ∧ data it = Some (first_of_month ym) ∧ it0 ∈ l ∧ in_month ym it0.
Proof.
  unfold month_dedup. intros [ym [-> Hym]]%list_elem_of_fmap.
  pose proof (months_of_valid l) as Hv. rewrite Forall_forall in Hv.
  apply elem_of_months_of in Hym as Hex. destruct Hex as [it0 [Hin Hm]].
  exists ym, it0. split; [by apply Hv|]. done.
Qed.

Lemma to_pair_first_of_month (it : item) (ym : Z * Z) (p : string * float) :
  ym_valid ym → data it = Some (first_of_month ym) → to_pair it = Some p →
  p.1 = strftime_month_start (mkdate ym.1 ym.2 1) ∧
  (1000 ≤ ym.1 → p.1 = iso_date ym.1 ym.2 1).
Proof.
  intros Hv Hd. unfold to_pair. rewrite Hd.
  destruct (_ || _); [done|]. simpl.
  destruct (month_shape ym Hv) as (_ & _ & -> & _).
  destruct (py_float _); [|done]. intros [= <-]. split; [done|].
  intros Hy. cbn [fst]. rewrite strftime_month_start_iso; [done|].
  cbn [year]. destruct Hv as [Hv _]. lia.
Qed.

(** C10. The new Poupanca series is requested for seven windows that all
    lie between 01/06/2012 and 25/09/2025, and not at all when the start
    year is past 2012, when the candidate is empty. If the remote series
    answers every request with records of the requested window only, every
    record of the merged candidate is dated the first day of a month no
    later than 2025-09, and so is every pair of the normalized candidate,
    whatever the current date is; the date of a pair is the ISO date from
    the year 1000 on. *)
Theorem C10_poupanca_months_bounded :
  (range_windows loop_fuel (mkdate 2012 6 1) (mkdate 2025 9 25) 2 2012 = Ok poup_new_windows ∧
   Forall (λ c : date * date,
             date_ord (mkdate 2012 6 1) ≤ date_ord c.1 ∧
             date_ord c.2 ≤ date_ord (mkdate 2025 9 25)) poup_new_windows) ∧
  (∀ (w : world) (cfg : Config) (start_year : Z),
     2012 < start_year → poupanca_items w cfg start_year = Ok []) ∧
  (∀ (w : world) (cfg : Config) (start_year : Z) (items : list item),
     answers_in_window w (SGS_SERIE_POUP_MENSAL cfg) →
     poupanca_items w cfg start_year = Ok items →
     Forall (λ it, ∃ ym, by_2025_09 ym ∧ data it = Some (first_of_month ym)) items ∧
     Forall (λ p : string * float,
               ∃ ym, by_2025_09 ym ∧
                     p.1 = strftime_month_start (mkdate ym.1 ym.2 1) ∧
                     (1000 ≤ ym.1 → p.1 = iso_date ym.1 ym.2 1))
            (to_pairs items)).
Proof.
  split; [|split].
  - destruct poup_new_windows_checked as [Hw Hall]. split; [done|].
    eapply Forall_impl; [exact Hall|]. intros c (_ & _ & ? & ?). done.
  - intros w cfg start_year Hs. unfold poupanca_items.
    rewrite (proj2 (Z.leb_gt start_year 2012)) by lia. reflexivity.
  - intros w cfg start_year items Hans Hitems.
    assert (Hrec : Forall (λ it, ∃ ym, by_2025_09 ym ∧ data it = Some (first_of_month ym))
                     items).
    { unfold poupanca_items in Hitems. destruct (start_year <=? 2012).
      2:{ cbn in Hitems. injection Hitems as <-. constructor. }
      destruct (fetch_sgs_series_range w (SGS_SERIE_POUP_MENSAL cfg) _ _ _)
        as [items_new| |] eqn:Enew; [|done..].
      cbn [mbind result_bind] in Hitems.
      destruct (fetch_sgs_series_range w (SGS_SERIE_POUP_ANTIGA cfg) _ _ _)
        as [items_old| |] eqn:Eold; [|done..].
      cbn [mbind result_bind] in Hitems.
      pose proof (poup_new_items_window w _ items_new Hans Enew) as Hnew.
      assert (Hdn : Forall has_date items_new).
      { eapply Forall_impl; [exact Hnew|]. intros it [d [Hd _]]. by exists d. }
      pose proof (fetch_range_has_date _ _ _ _ _ _ Eold) as Hdo.
      unfold merge_poup_series in Hitems.
      rewrite (merge_at_dedup "2012-06" items_old items_new Hdo Hdn) in Hitems.
      injection Hitems as <-. apply Forall_forall. intros it Hit.
      apply month_dedup_elem in Hit as (ym & it0 & Hv & Hdata & Hin & Hm).
      exists ym. split; [|done]. unfold cut_at in Hin.
      apply elem_of_app in Hin as [Hin|Hin]; apply list_elem_of_filter in Hin as [Hside Hin].
      - unfold on_old_side in Hside.
        rewrite (item_key_ym it0 ym Hm), (cutoff_2012_06 ym Hv) in Hside.
        apply bool_decide_eq_true in Hside. split; [done|].
        unfold ym_lt, ym_idx in *. simpl in *. lia.
      - rewrite Forall_forall in Hnew. destruct (Hnew it0 Hin) as [d [Hd Hb]].
        unfold in_month, item_ym in Hm. rewrite Hd in Hm. simpl in Hm.
        by injection Hm as <-. }
    split; [done|]. apply Forall_forall. intros p Hp.
    apply to_pairs_elem in Hp as [it [Hit Hpair]].
    rewrite Forall_forall in Hrec. destruct (Hrec it Hit) as [ym [Hb Hdata]].
    exists ym. split; [done|]. by apply (to_pair_first_of_month it ym p (proj1 Hb)).
Qed.

Lemma C10_witness :
  answers_in_window world_poup_2020 "196" ∧
  poupanca_items world_poup_2020 CONFIG 2012 = Ok [mkitem (Some "01/01/2020") (Some "1,50")] ∧
  Forall (λ it, ∃ ym, by_2025_09 ym ∧ data it = Some (first_of_month ym))
         [mkitem (Some "01/01/2020") (Some "1,50")].
Proof.
  assert (Hans : answers_in_window world_poup_2020 "196").
  { intros ini fim d0 d1 body H0 H1. simpl.
    destruct (String.eqb_spec ini "01/01/2020") as [->|]; [|done].
    destruct (String.eqb_spec fim "31/12/2021") as [->|]; [|done].
    intros [= <-]. vm_compute in H0. vm_compute in H1.
    injection H0 as <-. injection H1 as <-.
    constructor; [|constructor]. exists (mkdate 2020 1 1). split; [reflexivity|].
    vm_compute. split; discriminate. }
  assert (Hrun : poupanca_items world_poup_2020 CONFIG 2012
                 = Ok [mkitem (Some "01/01/2020") (Some "1,50")])
    by (vm_compute; reflexivity).
  split; [exact Hans|]. split; [exact Hrun|].
  exact (proj1 (proj2 (proj2 C10_poupanca_months_bounded) world_poup_2020 CONFIG 2012
                  _ Hans Hrun)).
Defined.

(** ** Further properties of dates and of the normalizer *)

Lemma valid_date_bounds (d : date) :
  valid_date d = true → 1 ≤ year d ≤ 9999 ∧ 1 ≤ month d ≤ 12 ∧ 1 ≤ day d ≤ 31.
Proof.
  unfold valid_date. rewrite !andb_true_iff, !Z.leb_le. intros [[[[[? ?] ?] ?] ?] Hd].
  repeat split; try lia. unfold days_in_month in Hd.
  destruct (month d =? 2); [destruct (is_leap _); lia|]. destruct (_ || _); lia.
Qed.

Lemma dict_get_reverse_omap {X V : Type} (f : X → option (string * V)) (k : string)
    (xs : list X) :
  dict_get k (reverse (omap f xs)) =
  last (filter (λ x, fst <$> f x = Some k) xs) ≫= λ x, snd <$> f x.
Proof.
  induction xs as [|x xs IH] using rev_ind; [done|].
  rewrite omap_app, reverse_app, filter_app, filter_cons, filter_nil, dict_get_app.
  assert (Eo : omap f [x] = match f x with Some y => [y] | None => [] end)
    by (simpl; by destruct (f x)).
  rewrite Eo. clear Eo.
  destruct (decide (fst <$> f x = Some k)) as [Hd|Hd].
  - rewrite last_snoc. destruct (f x) as [[k' v]|] eqn:E; [|done].
    simpl in Hd. injection Hd as ->. cbn. rewrite E. cbn. by rewrite decide_True.
  - rewrite app_nil_r, <- IH. destruct (f x) as [[k' v]|] eqn:E; [|done].
    cbn. rewrite decide_False; [done|]. intros ->. by destruct Hd.
Qed.

(** X2. When several records normalize to the same date the one processed
    last supplies the factor: a pair is in the result of the normalizer
    exactly when the last record of the input that normalizes to its date
    normalizes to that pair. *)
Theorem to_pairs_last_wins (items : list item) (d : string) (v : float) :
  (d, v) ∈ to_pairs items ↔
  ∃ it, last_dated items d = Some it ∧ to_pair it = Some (d, v).
Proof.
  unfold to_pairs. rewrite elem_of_dedup_sort, dict_get_reverse_omap.
  fold (last_dated items d). split.
  - destruct (last_dated items d) as [it|] eqn:El; [|done]. simpl.
    intros Hv. exists it. split; [done|].
    apply last_filter_elem in El as [_ Hd].
    destruct (to_pair it) as [[d' v']|]; [|done]. simpl in *. congruence.
  - intros [it [-> Hp]]. simpl. by rewrite Hp.
Qed.

Lemma dict_set_length {K V : Type} `{EqDecision K} (k : K) (v : V) (d : list (K * V)) :
  (length (dict_set k v d) ≤ S (length d))%nat.
Proof.
  induction d as [|[k0 v0] d IH]; simpl; [done|].
  destruct (decide (k = k0)); simpl; lia.
Qed.

Lemma dict_fold_length {K V : Type} `{EqDecision K} (l d : list (K * V)) :
  (length (fold_left (λ d kv, dict_set kv.1 kv.2 d) l d) ≤ length l + length d)%nat.
Proof.
  revert d. induction l as [|[k v] l IH]; intros d; simpl; [lia|].
  etrans; [apply IH|]. pose proof (dict_set_length k v d). lia.
Qed.

(** The first seven characters of an ISO date are the year-month text. *)
Lemma month_key_iso_date (ym : Z * Z) (d : Z) :
  ym_valid ym → month_key (iso_date ym.1 ym.2 d) = month_text ym.
Proof.
  intros Hv. unfold month_key, str_take, iso_date.
  destruct (month_shape _ Hv) as (_ & Hlen & _). rewrite <- Hlen.
  assert (Happ : ∀ a b, substring 0 (String.length a) (a +:+ b) = a).
  { clear. intros a b. induction a as [|c a IH]; simpl; [by destruct b|]. by rewrite IH. }
  assert (Hassoc : ∀ a b c, (a +:+ b) +:+ c = a +:+ b +:+ c).
  { clear. intros a b c. induction a as [|x a IH]; [done|].
    change (String x ((a +:+ b) +:+ c) = String x (a +:+ b +:+ c)). by rewrite IH. }
  rewrite <- (Happ (month_text ym) ("-" +:+ fmt_0d 2 d)) at 2.
  f_equal. unfold month_text. by rewrite !Hassoc.
Qed.

(** X3. The normalizer never returns more pairs than it got records; it
    returns none exactly when it skips every record; and every date it
    returns is what [strftime] writes for the first day of a real month:
    from the year 1000 on the ISO date, whose [month_key] is the
    year-month text of that month. *)
Theorem to_pairs_size_and_dates (items : list item) :
  (length (to_pairs items) ≤ length items)%nat ∧
  (to_pairs items = [] ↔ Forall skipped items) ∧
  Forall (λ p : string * float,
            ∃ ym, ym_valid ym ∧
                  p.1 = strftime_month_start (mkdate ym.1 ym.2 1) ∧
                  (1000 ≤ ym.1 →
                   p.1 = iso_date ym.1 ym.2 1 ∧ month_key p.1 = month_text ym))
         (to_pairs items).
Proof.
  split; [|split].
  - unfold to_pairs, dedup_sort. rewrite py_sorted_perm. unfold dict_of_pairs.
    etrans; [apply dict_fold_length|]. simpl. rewrite Nat.add_0_r.
    clear. induction items as [|it items IH]; [done|].
    cbn [omap list_omap]. destruct (to_pair it); cbn [length]; lia.
  - split.
    + intros He. apply Forall_forall. intros it Hit. apply to_pair_None_skipped.
      destruct (to_pair it) as [[d v]|] eqn:E; [|done].
      destruct (to_pairs_has_date items it d v Hit E) as [f Hf].
      rewrite He in Hf. by apply elem_of_nil in Hf.
    + intros Hall. unfold to_pairs.
      assert (E : omap to_pair items = []).
      { induction Hall as [|it items Hs _ IH]; simpl; [done|].
        by rewrite (to_pair_skipped it Hs). }
      by rewrite E.
  - apply Forall_forall. intros p Hp. apply to_pairs_elem in Hp as [it [_ Hp]].
    unfold to_pair in Hp. destruct (_ || _); [done|].
    destruct (strptime_dmy _) as [d|] eqn:Ed; [|done].
    destruct (py_float _); [|done]. injection Hp as <-. simpl.
    pose proof (valid_date_ym d (strptime_dmy_valid _ _ Ed)) as Hv.
    exists (year d, month d). split; [done|]. split; [done|].
    intros Hy. cbn [fst snd] in *.
    assert (Hiso : strftime_month_start d = iso_date (year d) (month d) 1).
    { apply strftime_month_start_iso. destruct Hv as [Hv _]. cbn [fst] in Hv. lia. }
    split; [done|]. rewrite Hiso. apply (month_key_iso_date (year d, month d) 1 Hv).
Qed.

(** ** The non-regression check by month *)

Lemma month_key_same_month (ym ym' : Z * Z) (d d' : Z) :
  ym_valid ym → ym_valid ym' →
  month_key (iso_date ym.1 ym.2 d) = month_key (iso_date ym'.1 ym'.2 d') ↔ ym = ym'.
Proof.
  intros Hv Hv'. rewrite !month_key_iso_date by done. split; [|by intros ->].
  by apply month_text_inj.
Qed.

(** C1. In month mode and with the default configuration, the check passes
    exactly when the year-month key of every old date is the key of some
    new date; values play no part, so any new series with the same dates
    gets the same answer; and a failed check reports, sorted and without
    repetition, exactly the keys of the old series that no new date has.
    The key of an ISO date is its year and month, [YYYY-MM]: two dates
    have the same key exactly when they are of the same month of the same
    year. So an old series dated 2020-01-15 passes against a new one dated
    2020-01-01, whatever the values, where the comparison of exact dates
    reports 2020-01-15 as lost. *)
Theorem C1_non_regression_month (old new : list (string * float)) :
  (nr_ok (non_regression CONFIG old new "month") = true ↔
     ∀ d, d ∈ old.*1 → ∃ d', d' ∈ new.*1 ∧ month_key d' = month_key d) ∧
  (∀ old' new', old'.*1 = old.*1 → new'.*1 = new.*1 →
     non_regression CONFIG old' new' "month" = non_regression CONFIG old new "month") ∧
  (nr_ok (non_regression CONFIG old new "month") = false →
     ∃ lost, non_regression CONFIG old new "month" = NrLost lost ∧
       NoDup lost ∧ StronglySorted str_lt lost ∧
       ∀ k, k ∈ lost ↔
         (∃ d, d ∈ old.*1 ∧ month_key d = k) ∧
         ¬ (∃ d', d' ∈ new.*1 ∧ month_key d' = k)) ∧
  (∀ y m d, 1 ≤ y ≤ 9999 → 1 ≤ m ≤ 12 →
     month_key (iso_date y m d) = fmt_0d 4 y +:+ "-" +:+ fmt_0d 2 m) ∧
  (∀ y m d y' m' d', 1 ≤ y ≤ 9999 → 1 ≤ m ≤ 12 → 1 ≤ y' ≤ 9999 → 1 ≤ m' ≤ 12 →
     month_key (iso_date y m d) = month_key (iso_date y' m' d') ↔ y = y' ∧ m = m') ∧
  (∀ v v',
     month_key "2020-01-15" = "2020-01" ∧ month_key "2020-01-01" = "2020-01" ∧
     non_regression CONFIG [("2020-01-15", v)] [("2020-01-01", v')] "month" = NrPass ∧
     non_regression CONFIG [("2020-01-15", v)] [("2020-01-01", v')] "strict"
     = NrLost ["2020-01-15"]).
Proof.
  unfold non_regression. change (String.eqb "month" "month") with true.
  change (TREAT_CHANGED_OLD_VALUES_AS_ERROR CONFIG) with false. cbv iota.
  pose proof (lost_months_spec old new) as Hspec.
  assert (Hnd : NoDup (py_sorted String.leb
             (elements (key_set month_key old ∖ key_set month_key new)))).
  { rewrite py_sorted_perm. apply NoDup_elements. }
  assert (Hss : StronglySorted str_le (py_sorted String.leb
             (elements (key_set month_key old ∖ key_set month_key new)))).
  { apply (py_sorted_sorted String.leb).
    - intros x y Hxy. apply str_leb_false_lt in Hxy. by apply str_lt_le.
    - apply str_le_trans. }
  split; [|split; [|split; [|split; [|split]]]].
  - destruct (py_sorted _ _) as [|k lost] eqn:E; simpl.
    + split; [|done]. intros _ d Hd.
      destruct (decide (month_key d ∈ key_set month_key new)) as [Hin|Hn].
      { by apply elem_of_key_set in Hin. }
      exfalso. eapply not_elem_of_nil. apply Hspec. split; [by eauto|].
      intros Hin. apply Hn. by apply elem_of_key_set.
    + split; [done|]. intros Hall. exfalso.
      destruct (proj1 (Hspec k)) as [[d [Hd Hk]] Hn]; [left|].
      apply Hn. rewrite <- Hk. by apply Hall.
  - intros old' new' Ho Hn.
    by rewrite (key_set_same_dates _ _ _ Ho), (key_set_same_dates _ _ _ Hn).
  - destruct (py_sorted _ _) as [|k lost] eqn:E; simpl; [done|].
    intros _. exists (k :: lost). split; [done|]. split; [done|]. split; [|done].
    clear Hspec E. revert Hnd Hss. generalize (k :: lost). clear.
    intros l. induction l as [|x l IH]; intros Hnd Hss; [constructor|].
    apply NoDup_cons in Hnd as [Hx Hnd]. apply StronglySorted_inv in Hss as [Hss Hall].
    constructor; [by apply IH|].
    rewrite Forall_forall in Hall |- *. intros y Hy.
    destruct (proj1 (str_le_lt_eq x y) (Hall y Hy)) as [?| ->]; [done|].
    by destruct Hx.
  - intros y m d Hy Hm. by apply (month_key_iso_date (y, m) d).
  - intros y m d y' m' d' Hy Hm Hy' Hm'.
    rewrite (month_key_same_month (y, m) (y', m') d d') by done.
    split; [by intros [= -> ->]|by intros [-> ->]].
  - intros v v'. split; [reflexivity|]. split; [reflexivity|].
    split; vm_compute; reflexivity.
Qed.

Lemma C1_witness :
  nr_ok (non_regression CONFIG [("2020-01-15", f_one)] [("2020-01-01", f_100)] "month")
    = true ∧
  month_key (iso_date 2020 1 15) = "2020-01".
Proof.
  destruct (C1_non_regression_month [("2020-01-15", f_one)] [("2020-01-01", f_100)])
    as (H1 & _ & _ & H4 & _).
  split.
  - apply H1. intros d Hd. exists "2020-01-01". split; [by left|].
    apply list_elem_of_singleton in Hd as ->. reflexivity.
  - apply (H4 2020 1 15); lia.
Defined.

(** ** Further properties of the non-regression check *)

Lemma nr_lost_spec {B : Type} (old : list (string * float)) (new : list (string * B))
    (mode k : string) :
  k ∈ nr_lost old new mode ↔
  (∃ d, d ∈ old.*1 ∧ nr_key mode d = k) ∧ ¬ (∃ d', d' ∈ new.*1 ∧ nr_key mode d' = k).
Proof.
  unfold nr_lost. rewrite elem_of_py_sorted, elem_of_elements, elem_of_difference.
  by rewrite !elem_of_key_set.
Qed.

Lemma nr_lost_sorted (old new : list (string * float)) (mode : string) :
  StronglySorted str_lt (nr_lost old new mode).
Proof. apply py_sorted_strings_strict, NoDup_elements. Qed.

Lemma nr_lost_nil {B : Type} (old : list (string * float)) (new : list (string * B))
    (mode : string) :
  nr_lost old new mode = [] ↔
  ∀ d, d ∈ old.*1 → ∃ d', d' ∈ new.*1 ∧ nr_key mode d' = nr_key mode d.
Proof.
  split.
  - intros He d Hd.
    destruct (decide (nr_key mode d ∈ key_set (nr_key mode) new)) as [Hin|Hn].
    { by apply elem_of_key_set in Hin. }
    exfalso. eapply not_elem_of_nil. rewrite <- He. apply nr_lost_spec.
    split; [by eauto|]. intros Hin. apply Hn. by apply elem_of_key_set.
  - intros Hall. destruct (nr_lost old new mode) as [|k l] eqn:E; [done|]. exfalso.
    destruct (proj1 (nr_lost_spec old new mode k)) as [[d [Hd Hk]] Hn]; [rewrite E; left|].
    apply Hn. rewrite <- Hk. by apply Hall.
Qed.

(** Whatever the configuration, lost keys fail the check and are what it
    reports. *)
Lemma non_regression_lost (cfg : Config) (old new : list (string * float)) (mode : string) :
  nr_lost old new mode ≠ [] →
  non_regression cfg old new mode = NrLost (nr_lost old new mode).
Proof.
  unfold non_regression. fold (nr_key mode). fold (nr_lost old new mode).
  by destruct (nr_lost old new mode).
Qed.

Lemma non_regression_default (old new : list (string * float)) (mode : string) :
  non_regression CONFIG old new mode =
  match nr_lost old new mode with
  | [] => NrPass
  | lost => NrLost lost
  end.
Proof.
  unfold non_regression. fold (nr_key mode). fold (nr_lost old new mode).
  by destruct (nr_lost old new mode).
Qed.

(** X4. Every mode other than ["month"] compares exact date strings: with
    the default configuration the check passes exactly when every date of
    the old series is a date of the new series, and a failed check reports,
    sorted and once each, exactly the old dates the new series lacks. *)
Theorem non_regression_strict (old new : list (string * float)) (mode : string) :
  mode ≠ "month" →
  (nr_ok (non_regression CONFIG old new mode) = true ↔ ∀ d, d ∈ old.*1 → d ∈ new.*1) ∧
  (nr_ok (non_regression CONFIG old new mode) = false →
     ∃ lost, non_regression CONFIG old new mode = NrLost lost ∧
             StronglySorted str_lt lost ∧
             ∀ d, d ∈ lost ↔ d ∈ old.*1 ∧ d ∉ new.*1).
Proof.
  intros Hm. rewrite non_regression_default.
  assert (Hk : nr_key mode = λ d, d).
  { unfold nr_key. by rewrite (proj2 (String.eqb_neq mode "month") Hm). }
  pose proof (nr_lost_nil old new mode) as Hnil. rewrite Hk in Hnil.
  pose proof (nr_lost_spec old new mode) as Hspec. rewrite Hk in Hspec.
  split.
  - destruct (nr_lost old new mode) as [|k l] eqn:E; simpl.
    + split; [|done]. intros _ d Hd. destruct (proj1 Hnil eq_refl d Hd) as [d' [? ->]]. done.
    + split; [done|]. intros Hall. exfalso.
      assert (Hn : k :: l = []); [|done]. apply Hnil. intros d Hd. exists d. by auto.
  - destruct (nr_lost old new mode) as [|k l] eqn:E; simpl; [done|]. intros _.
    exists (k :: l). split; [done|]. split; [rewrite <- E; apply nr_lost_sorted|].
    intros d. rewrite Hspec. split.
    + intros [[d1 [Hd1 ->]] Hn]. split; [done|]. intros Hin. apply Hn. eauto.
    + intros [Hin Hn]. split; [eauto|]. intros [d' [Hd' ->]]. done.
Qed.

Lemma non_regression_strict_witness :
  ∃ lost, non_regression CONFIG
            [("2020-01-15", f_one); ("2020-02-01", f_one)]
            [("2020-01-01", f_one); ("2020-02-01", f_100)] "strict" = NrLost lost ∧
          "2020-01-15" ∈ lost ∧ "2020-02-01" ∉ lost.
Proof.
  destruct (non_regression_strict
              [("2020-01-15", f_one); ("2020-02-01", f_one)]
              [("2020-01-01", f_one); ("2020-02-01", f_100)] "strict") as [_ H].
  - discriminate.
  - destruct (H eq_refl) as (lost & Hl & _ & Hm). exists lost. split; [exact Hl|].
    split.
    + apply Hm. split; apply (bool_decide_unpack _); vm_compute; exact I.
    + intros Hin. apply Hm in Hin as [_ Hn]. apply Hn.
      apply (bool_decide_unpack _). vm_compute. exact I.
Defined.

(** X5. The month mode is the laxer one: with the default configuration a
    pair of series that passes in a mode comparing exact dates passes in
    month mode, and every month the month mode reports lost is the month of
    a date that the exact comparison reports lost. *)
Theorem non_regression_strict_implies_month (old new : list (string * float)) (mode : string) :
  mode ≠ "month" →
  (nr_ok (non_regression CONFIG old new mode) = true →
   nr_ok (non_regression CONFIG old new "month") = true) ∧
  (∀ k, k ∈ nr_lost old new "month" → ∃ d, d ∈ nr_lost old new mode ∧ month_key d = k).
Proof.
  intros Hm.
  assert (Hk : nr_key mode = λ d, d).
  { unfold nr_key. by rewrite (proj2 (String.eqb_neq mode "month") Hm). }
  assert (Hsub : ∀ k, k ∈ nr_lost old new "month" →
                      ∃ d, d ∈ nr_lost old new mode ∧ month_key d = k).
  { intros k [[d [Hd Hkd]] Hn]%nr_lost_spec. exists d. split; [|done].
    apply nr_lost_spec. rewrite Hk. split; [eauto|].
    intros [d' [Hd' ->]]. apply Hn. eauto. }
  split; [|done]. rewrite !non_regression_default.
  destruct (nr_lost old new mode) as [|k l] eqn:E; simpl; [|done]. intros _.
  destruct (nr_lost old new "month") as [|k' l'] eqn:E'; [done|].
  destruct (Hsub k' ltac:(left)) as [d [Hd _]]. by apply elem_of_nil in Hd.
Qed.

Lemma non_regression_strict_implies_month_witness :
  nr_ok (non_regression CONFIG [("2020-01-15", f_one)] [("2020-01-15", f_100)] "month") = true.
Proof.
  apply (non_regression_strict_implies_month
           [("2020-01-15", f_one)] [("2020-01-15", f_100)] "strict").
  - discriminate.
  - reflexivity.
Defined.

Lemma float_zero_or_nan_small (x : float) :
  x = S754_nan ∨ x = S754_zero false → f_gtb (f_abs x) f_1e_12 = false.
Proof. intros [->| ->]; vm_compute; reflexivity. Qed.

Lemma float_self_difference (v : float) : f_gtb (f_abs (f_sub v v)) f_1e_12 = false.
Proof.
  apply float_zero_or_nan_small. unfold f_sub, SFsub.
  destruct v as [s|s| |s m e].
  - right. by destruct s.
  - left. by destruct s.
  - by left.
  - right. cbv zeta. rewrite Z.sub_diag. reflexivity.
Qed.

Lemma omap_all_None {A B : Type} (f : A → option B) (l : list A) :
  (∀ x, x ∈ l → f x = None) → omap f l = [].
Proof.
  induction l as [|x l IH]; intros H; simpl; [done|].
  rewrite (H x) by left. apply IH. intros y Hy. apply H. by right.
Qed.

(** X6. A series never regresses against itself: in every mode and with
    the changed-values check on or off, comparing a series with itself
    passes, also when it holds infinities or NaN. *)
Theorem non_regression_reflexive (cfg : Config) (series : list (string * float))
    (mode : string) :
  non_regression cfg series series mode = NrPass.
Proof.
  unfold non_regression. fold (nr_key mode).
  rewrite difference_diag_L, elements_empty. cbn [py_sorted foldr].
  destruct (TREAT_CHANGED_OLD_VALUES_AS_ERROR cfg); [|done].
  rewrite omap_all_None; [done|]. intros [k v] Hin. cbn [fst snd].
  assert (Hget : dict_get k (key_map (nr_key mode) series) = Some v).
  { apply dict_get_Some; [apply dict_of_pairs_NoDup|done]. }
  rewrite Hget. by rewrite float_self_difference.
Qed.

(** ** Further properties of the file operations and of the pipelines *)

(** X7. A backup followed by a restore brings a file back: if
    [backup_file] answers with a path, then after any later changes to the
    files that leave that backup file alone, a restore that meets no fault
    succeeds, reports nothing, gives the file its content of the time of
    the backup and changes no other file. *)
Theorem backup_restore_roundtrip (w : world) (cfg : Config) (fs fs1 fs2 : files)
    (path b code_fail : string) :
  backup_file w cfg fs path = (Some b, fs1) →
  fs2 !! b = fs1 !! b →
  restore_fault w = NoFault →
  ∃ fs3, restore_backup w fs2 b path code_fail = (true, [], fs3) ∧
         fs3 !! path = fs !! path ∧ is_Some (fs !! path) ∧
         ∀ p, p ≠ path → fs3 !! p = fs2 !! p.
Proof.
  intros Hb H2 Hr. pose proof (backup_file_spec w cfg fs path) as Hspec.
  rewrite Hb in Hspec. destruct Hspec as (_ & Hne & _ & [c Hc] & Hbc).
  unfold restore_backup, copy2. rewrite H2, Hbc, Hc, Hr.
  rewrite decide_False by done. eexists. split; [done|].
  rewrite lookup_insert_eq. split; [done|]. split; [by eexists|].
  intros p Hp. by rewrite lookup_insert_ne.
Qed.

Lemma backup_restore_roundtrip_witness :
  ∃ fs3, restore_backup world_ok
           (<["./selic_data.js" := "overwritten"]>
              (<["./backups/selic_data.js.2021-01-01_000000.bak" := old_selic_js]>
                 {[ "./selic_data.js" := old_selic_js ]}))
           "./backups/selic_data.js.2021-01-01_000000.bak" "./selic_data.js" "0xF000106"
         = (true, [], fs3) ∧
         fs3 !! "./selic_data.js" = Some old_selic_js.
Proof.
  destruct (backup_restore_roundtrip world_ok CONFIG
              {[ "./selic_data.js" := old_selic_js ]}
              (<["./backups/selic_data.js.2021-01-01_000000.bak" := old_selic_js]>
                 {[ "./selic_data.js" := old_selic_js ]})
              (<["./selic_data.js" := "overwritten"]>
                 (<["./backups/selic_data.js.2021-01-01_000000.bak" := old_selic_js]>
                    {[ "./selic_data.js" := old_selic_js ]}))
              "./selic_data.js" "./backups/selic_data.js.2021-01-01_000000.bak" "0xF000106")
    as (fs3 & H1 & H2 & _).
  - unfold backup_file. rewrite lookup_singleton_eq.
    replace (path_join (BACKUP_DIR CONFIG)
               (basename "./selic_data.js" +:+ "." +:+ now_stamp world_ok +:+ ".bak"))
      with "./backups/selic_data.js.2021-01-01_000000.bak" by (vm_compute; reflexivity).
    unfold copy2. rewrite lookup_singleton_eq. by rewrite decide_False.
  - by apply lookup_insert_ne.
  - reflexivity.
  - exists fs3. split; [exact H1|]. rewrite H2. apply lookup_singleton_eq.
Defined.

(** What a run of the common part that returns 0 has done. *)
Lemma persist_success (w : world) (cfg : Config) (fs fs' : files) (codes : stage_codes)
    (target const_name nr_mode : string) (pairs_new : list (string * float))
    (errs : list string) :
  persist w cfg fs codes target const_name nr_mode pairs_new = Returned 0 errs fs' →
  errs = [] ∧ pairs_new ≠ [] ∧
  fs' !! target = Some (serialize_js cfg const_name pairs_new) ∧
  fs' !! (target +:+ ".tmp") = None ∧
  ∃ pairs_old, read_js_pairs fs target = Ok pairs_old ∧
               (pairs_old = [] ∨ nr_ok (non_regression cfg pairs_old pairs_new nr_mode) = true).
Proof.
  unfold persist. destruct pairs_new as [|p pairs]; [done|].
  remember (p :: pairs) as pairs_new eqn:Hpn.
  destruct (read_js_pairs fs target) as [pairs_old|e|]; cbn [run_with]; [|done..].
  destruct (backup_file w cfg fs target) as [bak fs1].
  destruct (nr_ok _) eqn:Enr; cbn [negb]; [|done].
  destruct (serialize_fault w); [done|].
  unfold write_atomic. destruct (write_fault w) as [| |junk].
  - intros [= <- <-]. split; [done|]. split; [by rewrite Hpn|].
    rewrite lookup_insert_eq. split; [done|]. split.
    + rewrite lookup_insert_ne by apply not_eq_sym, tmp_not_target.
      apply lookup_delete_eq.
    + exists pairs_old. split; [done|]. destruct pairs_old; [by left|by right].
  - destruct bak; [|done]. unfold restore_backup. by destruct (copy2 _ _ _ _).
  - destruct bak; [|done]. unfold restore_backup. by destruct (copy2 _ _ _ _).
Qed.

Lemma nr_ok_no_loss (cfg : Config) (old new : list (string * float)) (mode : string) :
  old = [] ∨ nr_ok (non_regression cfg old new mode) = true →
  ∀ d, d ∈ old.*1 → ∃ d', d' ∈ new.*1 ∧ nr_key mode d' = nr_key mode d.
Proof.
  intros [->|Hok]; [by intros d ?%elem_of_nil|].
  apply nr_lost_nil. destruct (nr_lost old new mode) as [|k l] eqn:E; [done|].
  rewrite (non_regression_lost cfg old new mode) in Hok by (by rewrite E). done.
Qed.

Lemma persist_num_success (w : world) (cfg : Config) (fs fs' : files) (codes : stage_codes)
    (target const_name nr_mode : string) (pairs_new : list (string * num))
    (errs : list string) :
  persist_num w cfg fs codes target const_name nr_mode pairs_new = Returned 0 errs fs' →
  errs = [] ∧ pairs_new ≠ [] ∧
  fs' !! target = Some (serialize_js_num cfg const_name pairs_new) ∧
  fs' !! (target +:+ ".tmp") = None ∧
  ∃ pairs_old report,
    read_js_pairs fs target = Ok pairs_old ∧
    nr_gate_num w cfg pairs_old pairs_new nr_mode = Ok report ∧ nr_ok report = true.
Proof.
  unfold persist_num. destruct pairs_new as [|p pairs]; [done|].
  remember (p :: pairs) as pairs_new eqn:Hpn.
  destruct (read_js_pairs fs target) as [pairs_old|e|]; cbn [run_with]; [|done..].
  destruct (backup_file w cfg fs target) as [bak fs1].
  fold (nr_gate_num w cfg pairs_old pairs_new nr_mode).
  destruct (nr_gate_num _ _ _ _ _) as [report|e|] eqn:Eg; cbn [run_with]; [|done..].
  destruct (nr_ok report) eqn:Enr; cbn [negb]; [|done].
  destruct (serialize_fault w); [done|].
  unfold write_atomic. destruct (write_fault w) as [| |junk].
  - intros [= <- <-]. split; [done|]. split; [by rewrite Hpn|].
    rewrite lookup_insert_eq. split; [done|]. split.
    + rewrite lookup_insert_ne by apply not_eq_sym, tmp_not_target.
      apply lookup_delete_eq.
    + by exists pairs_old, report.
  - destruct bak; [|done]. unfold restore_backup. by destruct (copy2 _ _ _ _).
  - destruct bak; [|done]. unfold restore_backup. by destruct (copy2 _ _ _ _).
Qed.

Lemma nr_gate_num_no_loss (w : world) (cfg : Config) (old : list (string * float))
    (new : list (string * num)) (mode : string) (report : nr_report) :
  nr_gate_num w cfg old new mode = Ok report → nr_ok report = true →
  ∀ d, d ∈ old.*1 → ∃ d', d' ∈ new.*1 ∧ nr_key mode d' = nr_key mode d.
Proof.
  unfold nr_gate_num. destruct old as [|o old]; [by intros _ _ d ?%elem_of_nil|].
  generalize (o :: old). clear o old. intros old Hnr Hok.
  apply nr_lost_nil. destruct (nr_lost old new mode) as [|k l] eqn:E; [done|].
  unfold non_regression_num in Hnr. fold (nr_key mode) in Hnr.
  fold (nr_lost old new mode) in Hnr. rewrite E in Hnr. injection Hnr as <-. done.
Qed.

(** X8. A run of a pipeline that returns 0 reported no error, wrote the
    serialized candidate to the target, left no temporary file, and had a
    non-empty candidate that lost no period of the series read from the
    old file: every old date has a new date with the same key in the mode
    of the run. The candidate is the normalized fetch for the monthly
    series, the aggregated daily series for source 1178, and the normalized
    merge for Poupanca. *)
Theorem update_success (w : world) (cfg : Config) (fs fs' : files) (start_year : Z)
    (nr_mode source : string) (errs : list string) :
  (update_selic w cfg fs start_year nr_mode source = Returned 0 errs fs' →
   errs = [] ∧
   ∃ pairs_old,
     read_js_pairs fs (join_root cfg (SELIC_JS_NAME cfg)) = Ok pairs_old ∧
     fs' !! (join_root cfg (SELIC_JS_NAME cfg) +:+ ".tmp") = None ∧
     if String.eqb source "1178"
     then ∃ pairs_new,
            fetch_selic1178_monthly_pairs w cfg start_year = Ok pairs_new ∧
            pairs_new ≠ [] ∧
            fs' !! join_root cfg (SELIC_JS_NAME cfg)
              = Some (serialize_js_num cfg (SELIC_JS_CONST_NAME cfg) pairs_new) ∧
            ∀ d, d ∈ pairs_old.*1 →
                 ∃ d', d' ∈ pairs_new.*1 ∧ nr_key nr_mode d' = nr_key nr_mode d
     else ∃ items,
            fetch_sgs_series w (SGS_SERIE_SELIC_MENSAL cfg) start_year None = Ok items ∧
            to_pairs items ≠ [] ∧
            fs' !! join_root cfg (SELIC_JS_NAME cfg)
              = Some (serialize_js cfg (SELIC_JS_CONST_NAME cfg) (to_pairs items)) ∧
            ∀ d, d ∈ pairs_old.*1 →
                 ∃ d', d' ∈ (to_pairs items).*1 ∧ nr_key nr_mode d' = nr_key nr_mode d) ∧
  (update_poupanca w cfg fs start_year nr_mode = Returned 0 errs fs' →
   errs = [] ∧
   ∃ items pairs_old,
     poupanca_items w cfg start_year = Ok items ∧
     to_pairs items ≠ [] ∧
     fs' !! join_root cfg (POUP_JS_NAME cfg)
       = Some (serialize_js cfg (POUP_JS_CONST_NAME cfg) (to_pairs items)) ∧
     fs' !! (join_root cfg (POUP_JS_NAME cfg) +:+ ".tmp") = None ∧
     read_js_pairs fs (join_root cfg (POUP_JS_NAME cfg)) = Ok pairs_old ∧
     ∀ d, d ∈ pairs_old.*1 →
          ∃ d', d' ∈ (to_pairs items).*1 ∧ nr_key nr_mode d' = nr_key nr_mode d).
Proof.
  split.
  - unfold update_selic. destruct (ensure_dirs w cfg fs) as [[]| |]; cbn [run_with]; [|done..].
    destruct (String.eqb source "1178").
    + destruct (fetch_selic1178_monthly_pairs w cfg start_year) as [pairs_new| |];
        cbn [run_with]; [|done..].
      destruct pairs_new as [|p l]; [done|]. intros Hp.
      apply persist_num_success
        in Hp as (-> & Hne & Ht & Htmp & pairs_old & report & Hold & Hnr & Hok).
      split; [done|]. exists pairs_old. split; [done|]. split; [done|]. exists (p :: l).
      repeat split; try done. by apply (nr_gate_num_no_loss w cfg _ _ _ report).
    + destruct (fetch_sgs_series w _ start_year None) as [items| |];
        cbn [run_with]; [|done..].
      destruct items as [|it l]; [done|]. intros Hp.
      apply persist_success in Hp as (-> & Hne & Ht & Htmp & pairs_old & Hold & Hnr).
      split; [done|]. exists pairs_old. split; [done|]. split; [done|]. exists (it :: l).
      repeat split; try done. by apply (nr_ok_no_loss cfg).
  - unfold update_poupanca.
    destruct (ensure_dirs w cfg fs) as [[]| |]; cbn [run_with]; [|done..].
    destruct (poupanca_items w cfg start_year) as [items| |]; cbn [run_with]; [|done..].
    destruct items as [|it l]; [done|]. intros Hp.
    apply persist_success in Hp as (-> & Hne & Ht & Htmp & pairs_old & Hold & Hnr).
    split; [done|]. exists (it :: l), pairs_old.
    repeat split; try done. by apply (nr_ok_no_loss cfg).
Qed.






Lemma world_ok_first_run :
  update_selic world_ok CONFIG ∅ 2020 "strict" "4390" = Returned 0 [] first_run_files.
Proof. vm_compute. reflexivity. Qed.

Lemma update_success_witness :
  update_selic world_ok CONFIG ∅ 2020 "strict" "4390" = Returned 0 [] first_run_files ∧
  first_run_files !! ("./selic_data.js" +:+ ".tmp") = None.
Proof.
  split; [exact world_ok_first_run|].
  destruct (proj1 (update_success world_ok CONFIG ∅ first_run_files 2020 "strict" "4390" [])
              world_ok_first_run) as (_ & po & _ & Htmp & _).
  exact Htmp.
Defined.

Lemma gather_all_fail (w : world) (serie : string) (wins : list (string * string)) :
  all_requests_fail w serie → gather w serie wins = [].
Proof.
  intros Hf. unfold gather. induction wins as [|win wins IH]; [done|].
  cbn [map concat]. by rewrite Hf, IH.
Qed.

Lemma fetch_sgs_series_all_fail (w : world) (serie : string) (start_year : Z)
    (end_year : option Z) :
  all_requests_fail w serie → fetch_sgs_series w serie start_year end_year = Ok [].
Proof. intros Hf. unfold fetch_sgs_series. cbv zeta. by rewrite gather_all_fail. Qed.

Lemma poupanca_items_all_fail (w : world) (cfg : Config) (start_year : Z) :
  all_requests_fail w (SGS_SERIE_POUP_MENSAL cfg) →
  all_requests_fail w (SGS_SERIE_POUP_ANTIGA cfg) →
  poupanca_items w cfg start_year = Ok [].
Proof.
  intros Hn Ho. unfold poupanca_items. destruct (start_year <=? 2012); [|done].
  assert (Hrange : ∀ serie s e, all_requests_fail w serie →
            (∃ wins, (d0 ← of_option ValueError (strptime_dmy s);
                      d1 ← of_option ValueError (strptime_dmy e);
                      range_windows loop_fuel d0 d1 2 (year d0)) = Ok wins) →
            fetch_sgs_series_range w serie s e 2 = Ok []).
  { intros serie s e Hf [wins Hw]. unfold fetch_sgs_series_range.
    destruct (strptime_dmy s) as [d0|]; [|done].
    destruct (strptime_dmy e) as [d1|]; [|done]. cbn [of_option mbind result_bind] in *.
    rewrite Hw. cbn [mbind result_bind]. by rewrite gather_all_fail. }
  rewrite (Hrange _ "01/06/2012" "25/09/2025" Hn) by (eexists; vm_compute; reflexivity).
  rewrite (Hrange _ "01/01/1991" "10/05/2012" Ho) by (eexists; vm_compute; reflexivity).
  reflexivity.
Qed.

(** X10. When the directories of the configuration can be made and every
    request fails, a run returns 1, reports the fetch error of its
    pipeline and changes no file at all, for the monthly and the daily
    source of SELIC and for Poupanca; and [update_poupanca] with a start
    year past 2012 does so without asking for anything. When a directory
    cannot be made, the root being the empty path or a regular file
    standing where a directory should, a run ends in the exception of
    [os.makedirs] before it asks for anything. *)
Theorem update_offline (w : world) (cfg : Config) (fs : files) (start_year : Z)
    (nr_mode source : string) :
  (ensure_dirs w cfg fs = Ok tt →
   (all_requests_fail w (SGS_SERIE_SELIC_MENSAL cfg) →
    all_requests_fail w (SGS_SERIE_SELIC_DIARIA_ANN252 cfg) →
    update_selic w cfg fs start_year nr_mode source = Returned 1 ["0xF000101"] fs) ∧
   (all_requests_fail w (SGS_SERIE_POUP_MENSAL cfg) →
    all_requests_fail w (SGS_SERIE_POUP_ANTIGA cfg) →
    update_poupanca w cfg fs start_year nr_mode = Returned 1 ["0xF000201"] fs) ∧
   (2012 < start_year →
    update_poupanca w cfg fs start_year nr_mode = Returned 1 ["0xF000201"] fs)) ∧
  (∀ e, ensure_dirs w cfg fs = Raise e →
        update_selic w cfg fs start_year nr_mode source = Crashed e fs ∧
        update_poupanca w cfg fs start_year nr_mode = Crashed e fs) ∧
  (ROOT_DIR cfg = "" → ensure_dirs w cfg fs = Raise FileNotFoundError) ∧
  (ROOT_DIR cfg ≠ "" → is_Some (fs !! ROOT_DIR cfg) →
   ensure_dirs w cfg fs = Raise FileExistsError).
Proof.
  split; [|split; [|split]].
  - intros Hdirs. unfold update_selic, update_poupanca. rewrite Hdirs. cbn [run_with].
    split; [|split].
    + intros Hm Hd. destruct (String.eqb source "1178").
      * unfold fetch_selic1178_monthly_pairs. by rewrite fetch_sgs_series_all_fail.
      * by rewrite fetch_sgs_series_all_fail.
    + intros Hn Ho. by rewrite poupanca_items_all_fail.
    + intros Hy. unfold poupanca_items.
      by rewrite (proj2 (Z.leb_gt start_year 2012)) by lia.
  - intros e He. unfold update_selic, update_poupanca. by rewrite He.
  - intros Hr. unfold ensure_dirs, makedirs. by rewrite Hr.
  - intros Hr Hf. unfold ensure_dirs, makedirs.
    rewrite (proj2 (String.eqb_neq _ _) Hr). by rewrite (bool_decide_eq_true_2 _ Hf).
Qed.

Lemma update_offline_witness :
  (update_selic world_offline CONFIG {[ "./selic_data.js" := old_selic_js ]} 1990 "month" "1178"
     = Returned 1 ["0xF000101"] {[ "./selic_data.js" := old_selic_js ]} ∧
   update_poupanca world_ok CONFIG {[ "./poupanca_data.js" := old_selic_js ]} 2013 "month"
     = Returned 1 ["0xF000201"] {[ "./poupanca_data.js" := old_selic_js ]}) ∧
  update_selic world_ok CONFIG {[ "./backups" := "" ]} 2020 "month" "4390"
    = Crashed FileExistsError {[ "./backups" := "" ]}.
Proof.
  split; [split|].
  - apply (proj1 (update_offline world_offline CONFIG
                    {[ "./selic_data.js" := old_selic_js ]} 1990 "month" "1178"));
      [vm_compute; reflexivity|done..].
  - apply (proj1 (update_offline world_ok CONFIG
                    {[ "./poupanca_data.js" := old_selic_js ]} 2013 "month" ""));
      [vm_compute; reflexivity|lia].
  - apply (proj1 (proj2 (update_offline world_ok CONFIG
                           {[ "./backups" := "" ]} 2020 "month" "4390"))).
    vm_compute. reflexivity.
Defined.

(** ** The merger on records without a date *)

Lemma rfoldM_app {A B : Type} (f : B → A → result B) (l1 l2 : list A) (b : B) :
  rfoldM f (l1 ++ l2) b = (b' ← rfoldM f l1 b; rfoldM f l2 b').
Proof.
  revert b. induction l1 as [|x l1 IH]; intros b; simpl; [done|].
  destruct (f b x) as [b'| |]; simpl; [apply IH|done..].
Qed.

Lemma merge_step_undated (keep : string → bool) (acc : list (string * option string))
    (it : item) :
  ¬ has_date it → merge_step keep acc it = Raise (undated_exn it).
Proof.
  intros Hn. unfold merge_step, item_month, undated_exn.
  destruct (data it) as [s|] eqn:Es; [|done]. simpl.
  destruct (strptime_dmy s) as [d|] eqn:Ed; [|done].
  destruct Hn. exists d. unfold item_date. by rewrite Es.
Qed.

Lemma rfoldM_undated (keep : string → bool) (before rest : list item) (it : item)
    (acc : list (string * option string)) :
  Forall has_date before → ¬ has_date it →
  rfoldM (merge_step keep) (before ++ it :: rest) acc = Raise (undated_exn it).
Proof.
  intros Hb Hn. rewrite rfoldM_app, (rfoldM_merge_step keep before acc Hb).
  simpl. by rewrite merge_step_undated.
Qed.

Lemma first_undated (l : list item) :
  ¬ Forall has_date l →
  ∃ before it rest, l = before ++ it :: rest ∧ Forall has_date before ∧ ¬ has_date it.
Proof.
  induction l as [|x l IH]; intros Hn; [destruct Hn; constructor|].
  destruct (item_date x) as [d|] eqn:Ed.
  - destruct IH as (before & it & rest & -> & Hb & Hit).
    + intros Hl. apply Hn. constructor; [by exists d|done].
    + exists (x :: before), it, rest. split; [done|]. split; [|done].
      constructor; [by exists d|done].
  - exists [], x, l. split; [done|]. split; [constructor|].
    intros [d Hd]. unfold has_date in *. congruence.
Qed.

(** X11. The merger parses the date of every record before it looks at
    the side of the cutover: it returns exactly when every record of both
    lists has a date that parses, and otherwise raises at the first
    record without one, old list first: [KeyError] when the record has no
    date at all, [ValueError] when the text does not parse. *)
Theorem merge_poup_series_undated (items_old items_new : list item) :
  ((∃ out, merge_poup_series items_old items_new = Ok out) ↔
   Forall has_date (items_old ++ items_new)) ∧
  (∀ before it rest,
     Forall has_date before → ¬ has_date it →
     (items_old = before ++ it :: rest ∨
      (Forall has_date items_old ∧ items_new = before ++ it :: rest)) →
     merge_poup_series items_old items_new = Raise (undated_exn it)).
Proof.
  assert (Hraise : ∀ before it rest,
     Forall has_date before → ¬ has_date it →
     (items_old = before ++ it :: rest ∨
      (Forall has_date items_old ∧ items_new = before ++ it :: rest)) →
     merge_poup_series items_old items_new = Raise (undated_exn it)).
  { intros before it rest Hb Hn [->|[Ho ->]]; unfold merge_poup_series, merge_poup_series_at.
    - by rewrite rfoldM_undated.
    - rewrite (rfoldM_merge_step _ items_old [] Ho). cbn [mbind result_bind].
      by rewrite rfoldM_undated. }
  split; [|exact Hraise]. split.
  - intros [out Hout]. apply Forall_app.
    destruct (decide (Forall has_date items_old)) as [Ho|Ho].
    + split; [done|]. destruct (decide (Forall has_date items_new)) as [Hn|Hn]; [done|].
      destruct (first_undated _ Hn) as (before & it & rest & E & Hb & Hit).
      rewrite (Hraise before it rest) in Hout; [done|done|done|by right].
    + destruct (first_undated _ Ho) as (before & it & rest & E & Hb & Hit).
      rewrite (Hraise before it rest) in Hout; [done|done|done|by left].
  - intros [Ho Hn]%Forall_app. eexists. by apply merge_at_dedup.
Qed.

Lemma merge_poup_series_undated_witness :
  merge_poup_series [mkitem (Some "15/03/2020") (Some "0,5"); mkitem None (Some "0,6")]
                    [mkitem (Some "2020-03-15") (Some "0,7")]
  = Raise KeyError ∧
  merge_poup_series [mkitem (Some "15/03/2020") (Some "0,5")]
                    [mkitem (Some "2020-03-15") (Some "0,7")]
  = Raise ValueError.
Proof.
  split.
  - apply (proj2 (merge_poup_series_undated _ _)
             [mkitem (Some "15/03/2020") (Some "0,5")] (mkitem None (Some "0,6")) []).
    + repeat constructor. by eexists.
    + by intros [d Hd].
    + by left.
  - apply (proj2 (merge_poup_series_undated _ _)
             [] (mkitem (Some "2020-03-15") (Some "0,7")) []).
    + constructor.
    + by intros [d Hd].
    + right. split; [|done]. repeat constructor. by eexists.
Defined.

(** ** The windows of the range fetcher *)

Lemma mk_date_fits (y m d : Z) :
  -2147483648 ≤ y ≤ 2147483647 →
  mk_date y m d = if valid_date (mkdate y m d) then Ok (mkdate y m d) else Raise ValueError.
Proof.
  intros Hy. unfold mk_date.
  by rewrite (proj2 (Z.ltb_ge y (-2147483648))), (proj2 (Z.ltb_ge 2147483647 y)) by lia.
Qed.

Lemma mk_date_jan1 (y : Z) : 1 ≤ y ≤ 9999 → mk_date y 1 1 = Ok (mkdate y 1 1).
Proof.
  intros Hy. rewrite mk_date_fits by lia. unfold valid_date. cbn [year month day].
  rewrite (proj2 (Z.leb_le 1 y)), (proj2 (Z.leb_le y 9999)) by lia. done.
Qed.

Lemma mk_date_dec31 (y : Z) : 1 ≤ y ≤ 9999 → mk_date y 12 31 = Ok (mkdate y 12 31).
Proof.
  intros Hy. rewrite mk_date_fits by lia. unfold valid_date. cbn [year month day].
  rewrite (proj2 (Z.leb_le 1 y)), (proj2 (Z.leb_le y 9999)) by lia. done.
Qed.

Lemma mk_date_low (y m d : Z) :
  -2147483648 ≤ y < 1 → mk_date y m d = Raise ValueError.
Proof.
  intros Hy. rewrite mk_date_fits by lia. unfold valid_date. cbn [year month day].
  by rewrite (proj2 (Z.leb_gt 1 y)) by lia.
Qed.

Lemma mk_date_overflow (y m d : Z) : y < -2147483648 → mk_date y m d = Raise OverflowError.
Proof. intros Hy. unfold mk_date. by rewrite (proj2 (Z.ltb_lt y (-2147483648))) by lia. Qed.

Lemma date_ord_inj (a b : date) :
  valid_date a = true → valid_date b = true → date_ord a = date_ord b → a = b.
Proof.
  intros Ha%valid_date_bounds Hb%valid_date_bounds. destruct a as [ya ma da], b as [yb mb db].
  unfold date_ord. cbn [year month day] in *. intros E.
  assert (ya = yb) by lia. assert (ma = mb) by lia. assert (da = db) by lia. congruence.
Qed.

(** The start of the window of year [y]: the start date in its own
    year, 1 January afterwards. *)
Lemma window_start (d0 : date) (y : Z) :
  valid_date d0 = true → year d0 ≤ y →
  (if date_ltb (mkdate y 1 1) d0 then d0 else mkdate y 1 1)
  = if decide (y = year d0) then d0 else mkdate y 1 1.
Proof.
  intros Hv Hy. pose proof (valid_date_bounds d0 Hv) as (Hyr & Hm & Hd).
  unfold date_ltb. destruct (Z.ltb_spec (date_ord (mkdate y 1 1)) (date_ord d0)) as [Hlt|Hge].
  - destruct (decide (y = year d0)); [done|].
    unfold date_ord in Hlt. cbn [year month day] in Hlt. lia.
  - destruct (decide (y = year d0)) as [->|]; [|done].
    symmetry. apply date_ord_inj; [done| |].
    + unfold valid_date. cbn [year month day].
      rewrite (proj2 (Z.leb_le 1 (year d0))), (proj2 (Z.leb_le (year d0) 9999)) by lia. done.
    + unfold date_ord in *. cbn [year month day] in *. lia.
Qed.

(** The end of the window that reaches year [y]: the end date in its own
    year, 31 December before. *)
Lemma window_end (d1 : date) (y : Z) :
  valid_date d1 = true → 1 ≤ y ≤ year d1 →
  (if date_ltb d1 (mkdate y 12 31) then d1 else mkdate y 12 31)
  = if decide (y = year d1) then d1 else mkdate y 12 31.
Proof.
  intros Hv Hy. pose proof (valid_date_bounds d1 Hv) as (Hyr & Hm & Hd).
  unfold date_ltb. destruct (Z.ltb_spec (date_ord d1) (date_ord (mkdate y 12 31))) as [Hlt|Hge].
  - destruct (decide (y = year d1)); [done|].
    unfold date_ord in Hlt. cbn [year month day] in Hlt. lia.
  - destruct (decide (y = year d1)) as [->|]; [|done].
    symmetry. apply date_ord_inj; [done| |].
    + unfold valid_date. cbn [year month day].
      rewrite (proj2 (Z.leb_le 1 (year d1))), (proj2 (Z.leb_le (year d1) 9999)) by lia. done.
    + unfold date_ord in *. cbn [year month day] in *. lia.
Qed.

Lemma range_windows_step (fuel : nat) (d0 d1 : date) (step_years y : Z) :
  valid_date d0 = true → valid_date d1 = true →
  year d0 ≤ y ≤ year d1 → y ≤ y + step_years - 1 →
  range_windows (S fuel) d0 d1 step_years y =
  (rest ← range_windows fuel d0 d1 step_years (y + step_years);
   Ok ((if decide (y = year d0) then d0 else mkdate y 1 1,
        if decide (Z.min (y + step_years - 1) (year d1) = year d1) then d1
        else mkdate (Z.min (y + step_years - 1) (year d1)) 12 31) :: rest)).
Proof.
  intros H0 H1 Hy Hs.
  pose proof (valid_date_bounds d0 H0) as (Hy0 & _).
  pose proof (valid_date_bounds d1 H1) as (Hy1 & _).
  cbn [range_windows]. rewrite (proj2 (Z.leb_le y (year d1))) by lia.
  rewrite mk_date_jan1, mk_date_dec31 by lia. cbn [mbind result_bind].
  rewrite window_start, window_end by (done || lia). done.
Qed.

Lemma range_windows_done (fuel : nat) (d0 d1 : date) (step_years y : Z) :
  year d1 < y → range_windows fuel d0 d1 step_years y = Ok [].
Proof. intros Hy. destruct fuel; cbn [range_windows]; by rewrite (proj2 (Z.leb_gt y (year d1))). Qed.

Lemma range_windows_tiles (fuel : nat) (d0 d1 : date) (step_years y : Z) :
  valid_date d0 = true → valid_date d1 = true → date_ord d0 ≤ date_ord d1 →
  1 ≤ step_years → year d0 ≤ y ≤ year d1 → year d1 - y < Z.of_nat fuel →
  ∃ wins, range_windows fuel d0 d1 step_years y = Ok wins ∧
          tiles (if decide (y = year d0) then d0 else mkdate y 1 1) wins d1 ∧
          Z.of_nat (length wins) = (year d1 - y) / step_years + 1.
Proof.
  intros H0 H1 Hle Hs.
  pose proof (valid_date_bounds d0 H0) as (Hy0 & Hm0 & Hd0).
  pose proof (valid_date_bounds d1 H1) as (Hy1 & Hm1 & Hd1).
  revert y. induction fuel as [|fuel IH]; intros y Hy Hf; [lia|].
  rewrite range_windows_step by (done || lia).
  assert (Hstart : date_ord (if decide (y = year d0) then d0 else mkdate y 1 1)
                   ≤ (y * 16 + 12) * 32 + 31).
  { destruct (decide (y = year d0)) as [->|]; unfold date_ord; cbn [year month day]; lia. }
  destruct (Z.le_gt_cases (y + step_years) (year d1)) as [Hmore|Hlast].
  - destruct (IH (y + step_years)) as (rest & -> & Ht & Hlen); [lia|lia|].
    cbn [mbind result_bind]. eexists. split; [done|].
    rewrite Z.min_l in * by lia.
    destruct (decide (y + step_years - 1 = year d1)) as [|_]; [lia|].
    destruct (decide (y + step_years = year d0)) as [|_]; [lia|].
    split.
    + destruct rest as [|c rest]; [done|]. cbn [tiles fst snd year].
      split; [done|]. split; [unfold date_ord at 2; cbn [year month day]; lia|].
      split; [done|]. by replace (y + step_years - 1 + 1) with (y + step_years) by lia.
    + cbn [length]. rewrite Nat2Z.inj_succ, Hlen.
      replace (year d1 - y) with (1 * step_years + (year d1 - (y + step_years))) by lia.
      rewrite Z.div_add_l by lia. lia.
  - rewrite range_windows_done by lia. cbn [mbind result_bind]. eexists. split; [done|].
    rewrite Z.min_r by lia. destruct (decide (year d1 = year d1)) as [_|]; [|done].
    split.
    + cbn [tiles fst snd]. split; [done|]. split; [|done].
      destruct (decide (y = year d0)) as [->|]; [done|].
      unfold date_ord. cbn [year month day]. lia.
    + cbn [length]. rewrite Z.div_small by lia. done.
Qed.

(** X12. With a step of at least one year and a start date not after the
    end date, the loop of [fetch_sgs_series_range] ends, asks for
    [(y1 - y0) / step + 1] windows, and its windows tile the days from
    the start date to the end date: no day is asked for twice and none is
    left out. *)
Theorem range_windows_tile (d0 d1 : date) (step_years : Z) :
  valid_date d0 = true → valid_date d1 = true → date_ord d0 ≤ date_ord d1 →
  1 ≤ step_years →
  ∃ wins, range_windows loop_fuel d0 d1 step_years (year d0) = Ok wins ∧
          tiles d0 wins d1 ∧
          Z.of_nat (length wins) = (year d1 - year d0) / step_years + 1.
Proof.
  intros H0 H1 Hle Hs.
  pose proof (valid_date_bounds d0 H0) as (Hy0 & Hm0 & Hd0).
  pose proof (valid_date_bounds d1 H1) as (Hy1 & Hm1 & Hd1).
  assert (Hy : year d0 ≤ year d1).
  { unfold date_ord in Hle. lia. }
  destruct (range_windows_tiles loop_fuel d0 d1 step_years (year d0))
    as (wins & Hw & Ht & Hlen); [done|done|done|done|lia| |].
  - unfold loop_fuel. rewrite Z2Nat.id by lia. lia.
  - exists wins. destruct (decide (year d0 = year d0)); done.
Qed.

Lemma range_windows_tile_witness :
  ∃ wins, range_windows loop_fuel (mkdate 2012 6 1) (mkdate 2025 9 25) 2 2012 = Ok wins ∧
          tiles (mkdate 2012 6 1) wins (mkdate 2025 9 25) ∧
          Z.of_nat (length wins) = (2025 - 2012) / 2 + 1.
Proof.
  apply (range_windows_tile (mkdate 2012 6 1) (mkdate 2025 9 25) 2).
  - reflexivity.
  - reflexivity.
  - unfold date_ord. cbn [year month day]. lia.
  - lia.
Defined.

Lemma range_windows_hangs (fuel : nat) (d0 d1 : date) :
  valid_date d0 = true → valid_date d1 = true → 1 < year d0 ≤ year d1 →
  range_windows fuel d0 d1 0 (year d0) = Diverge.
Proof.
  intros H0 H1 Hy.
  pose proof (valid_date_bounds d0 H0) as (Hy0 & _).
  pose proof (valid_date_bounds d1 H1) as (Hy1 & _).
  induction fuel as [|fuel IH]; cbn [range_windows];
    rewrite (proj2 (Z.leb_le (year d0) (year d1))) by lia; [done|].
  rewrite mk_date_jan1 by lia. cbn [mbind result_bind].
  replace (year d0 + 0) with (year d0) by lia.
  rewrite Z.min_l, mk_date_dec31 by lia. cbn [mbind result_bind].
  by rewrite IH.
Qed.

(** Walking backwards: as long as the end year of the window fits a C
    [int] the loop ends in [ValueError], at the first window whose end
    year is before the year 1. *)
Lemma range_windows_backwards (fuel : nat) (d0 d1 : date) (step_years y : Z) :
  step_years < 0 → year d1 ≤ 9999 → y ≤ year d1 → -2147483648 ≤ y + step_years - 1 →
  Z.max y 0 < Z.of_nat fuel →
  range_windows fuel d0 d1 step_years y = Raise ValueError.
Proof.
  intros Hs Hy1. revert y. induction fuel as [|fuel IH]; intros y Hy Hfit Hf; [lia|].
  cbn [range_windows]. rewrite (proj2 (Z.leb_le y (year d1))) by lia.
  destruct (Z.lt_ge_cases y 1) as [Hlow|Hlow].
  { by rewrite (mk_date_low y 1 1) by lia. }
  rewrite (mk_date_jan1 y) by lia. cbn [mbind result_bind].
  rewrite Z.min_l by lia.
  destruct (Z.lt_ge_cases (y + step_years - 1) 1) as [Hend|Hend].
  { by rewrite (mk_date_low (y + step_years - 1) 12 31) by lia. }
  rewrite (mk_date_dec31 (y + step_years - 1)) by lia. cbn [mbind result_bind].
  by rewrite IH by lia.
Qed.

(** When the end year of the first window does not fit a C [int], the
    date constructor raises [OverflowError] there. *)
Lemma range_windows_overflow (fuel : nat) (d0 d1 : date) (step_years y : Z) :
  1 ≤ y ≤ year d1 → year d1 ≤ 9999 → y + step_years - 1 < -2147483648 →
  range_windows (S fuel) d0 d1 step_years y = Raise OverflowError.
Proof.
  intros Hy Hy1 Hs. cbn [range_windows]. rewrite (proj2 (Z.leb_le y (year d1))) by lia.
  rewrite (mk_date_jan1 y) by lia. cbn [mbind result_bind].
  rewrite Z.min_l by lia. by rewrite mk_date_overflow.
Qed.

(** X13. A step of zero years makes the request loop of
    [fetch_sgs_series_range] run for ever, whatever the requests answer
    (from a start year after year 1, where the window of the loop still
    has an end date), and a negative step walks the years backwards until
    the date constructor raises: [OverflowError] when the end year of the
    first window does not fit a C [int], [ValueError] otherwise. *)
Theorem fetch_sgs_series_range_bad_step (w : world) (serie start_date end_date : string)
    (d0 d1 : date) (step_years : Z) :
  strptime_dmy start_date = Some d0 → strptime_dmy end_date = Some d1 →
  year d0 ≤ year d1 →
  (1 < year d0 →
   (∀ fuel, range_windows fuel d0 d1 0 (year d0) = Diverge) ∧
   fetch_sgs_series_range w serie start_date end_date 0 = Diverge) ∧
  (step_years < 0 →
   fetch_sgs_series_range w serie start_date end_date step_years
   = Raise (if year d0 + step_years - 1 <? -2147483648
            then OverflowError else ValueError)).
Proof.
  intros E0 E1 Hy.
  assert (H0 : valid_date d0 = true).
  { by apply strptime_dmy_valid in E0. }
  assert (H1 : valid_date d1 = true).
  { by apply strptime_dmy_valid in E1. }
  pose proof (valid_date_bounds d0 H0) as (Hy0 & _).
  pose proof (valid_date_bounds d1 H1) as (Hy1 & _).
  split; [intros Hgt; split|].
  - intros fuel. by apply range_windows_hangs.
  - unfold fetch_sgs_series_range. rewrite E0, E1. cbn [of_option mbind result_bind].
    by rewrite range_windows_hangs.
  - intros Hs. unfold fetch_sgs_series_range. rewrite E0, E1. cbn [of_option mbind result_bind].
    destruct (Z.ltb_spec (year d0 + step_years - 1) (-2147483648)) as [Hov|Hfit].
    + assert (Ef : loop_fuel = S (Nat.pred loop_fuel)) by (vm_compute; reflexivity).
      rewrite Ef. by rewrite range_windows_overflow by lia.
    + rewrite range_windows_backwards; [done|done|lia|done|done|].
      unfold loop_fuel. rewrite Z2Nat.id by lia. lia.
Qed.

Lemma fetch_sgs_series_range_bad_step_witness :
  (1 < 2012 →
   (∀ fuel, range_windows fuel (mkdate 2012 6 1) (mkdate 2025 9 25) 0 2012 = Diverge) ∧
   fetch_sgs_series_range world_ok "196" "01/06/2012" "25/09/2025" 0 = Diverge) ∧
  (-2 < 0 →
   fetch_sgs_series_range world_ok "196" "01/06/2012" "25/09/2025" (-2) = Raise ValueError) ∧
  (-3000000000 < 0 →
   fetch_sgs_series_range world_ok "196" "01/06/2012" "25/09/2025" (-3000000000)
   = Raise OverflowError).
Proof.
  destruct (fetch_sgs_series_range_bad_step world_ok "196" "01/06/2012" "25/09/2025"
              (mkdate 2012 6 1) (mkdate 2025 9 25) (-2)) as [H0 H2];
    [reflexivity|reflexivity|cbn [year]; lia|].
  destruct (fetch_sgs_series_range_bad_step world_ok "196" "01/06/2012" "25/09/2025"
              (mkdate 2012 6 1) (mkdate 2025 9 25) (-3000000000)) as [_ H3];
    [reflexivity|reflexivity|cbn [year]; lia|].
  split; [exact H0|]. split; [exact H2|exact H3].
Defined.

(** ** The fetchers on a date that does not parse *)

Lemma sort_by_date_value_error (l : list item) :
  Forall (λ it, is_Some (data it)) l → ¬ Forall has_date l →
  sort_by_date l = Raise ValueError.
Proof.
  intros Hs Hn. unfold sort_by_date.
  assert (H : rmapM (λ it, s ← of_option TypeError (data it);
                           d ← of_option ValueError (strptime_dmy s);
                           Ok (d, it)) l = Raise ValueError).
  { induction Hs as [|it l [s Es] Hl IH]; [destruct Hn; constructor|].
    cbn [rmapM]. rewrite Es. cbn [of_option mbind result_bind].
    destruct (strptime_dmy s) as [d|] eqn:Ed; cbn [of_option mbind result_bind]; [|done].
    rewrite IH; [done|]. intros Hall. apply Hn. constructor; [|done].
    exists d. unfold item_date. by rewrite Es. }
  by rewrite H.
Qed.

(** The keys the range fetcher has seen after its loop. *)
Lemma range_seen_keys (k : string) (l : list item) (acc : list (string * option string)) :
  k ∈ (fold_left (λ seen it,
                    if truthy (data it) then dict_set (default "" (data it)) (valor it) seen
                    else seen) l acc).*1
  ↔ k ∈ acc.*1 ∨ ∃ it, it ∈ l ∧ truthy (data it) = true ∧ data it = Some k.
Proof.
  revert acc. induction l as [|x l IH]; intros acc; cbn [fold_left].
  - split; [by left|]. intros [?|(it & ?%elem_of_nil & _)]; done.
  - rewrite IH. destruct (truthy (data x)) eqn:Et.
    + rewrite dict_set_keys. split.
      * intros [[->|?]|(it & Hin & Ht & Hd)].
        -- right. exists x. split; [left|]. split; [done|].
           destruct (data x); [done|discriminate].
        -- by left.
        -- right. exists it. split; [by right|done].
      * intros [?|(it & [->|Hin]%elem_of_cons & Ht & Hd)].
        -- left. by right.
        -- left. left. by rewrite Hd.
        -- right. by exists it.
    + split.
      * intros [?|(it & Hin & Ht & Hd)]; [by left|]. right. exists it. split; [by right|done].
      * intros [?|(it & [->|Hin]%elem_of_cons & Ht & Hd)]; [by left|congruence|].
        right. by exists it.
Qed.

Lemma undated_found (all_items : list item) :
  ¬ Forall date_parses_if_any all_items →
  ∃ it k, it ∈ all_items ∧ data it = Some k ∧ truthy (data it) = true ∧
          strptime_dmy k = None.
Proof.
  induction all_items as [|x l IH]; intros Hn; [destruct Hn; constructor|].
  destruct (truthy (data x)) eqn:Et.
  - destruct (data x) as [k|] eqn:Ek; [|discriminate].
    destruct (strptime_dmy k) as [d|] eqn:Ed.
    + destruct IH as (it & k' & Hin & ?).
      * intros Hl. apply Hn. constructor; [|done]. intros _. exists d.
        unfold item_date. by rewrite Ek.
      * exists it, k'. split; [by right|done].
    + exists x, k. split; [left|]. by rewrite Ek.
  - destruct IH as (it & k' & Hin & ?).
    + intros Hl. apply Hn. constructor; [|done]. intros Ht. congruence.
    + exists it, k'. split; [by right|done].
Qed.

Lemma fetch_series_post_raises (all_items : list item) :
  ¬ Forall date_parses_if_any all_items →
  sort_by_date
    (omap (λ kv : option string * option string,
             if truthy kv.1 then Some (mkitem kv.1 kv.2) else None)
          (fold_left (λ seen it, dict_set (data it) (valor it) seen) all_items []))
  = Raise ValueError.
Proof.
  intros Hn. destruct (undated_found all_items Hn) as (it & k & Hin & Hk & Ht & Hp).
  set (seen := fold_left (λ seen it, dict_set (data it) (valor it) seen) all_items []).
  assert (Hkey : Some k ∈ seen.*1).
  { unfold seen. rewrite <- (fold_left_fmap (λ d kv, dict_set kv.1 kv.2 d)
                               (λ it, (data it, valor it))).
    apply dict_fold_keys. left. rewrite <- list_fmap_compose.
    apply list_elem_of_fmap. exists it. by rewrite <- Hk. }
  apply list_elem_of_fmap in Hkey as ([k' v] & Ek & Hkv). cbn [fst] in Ek. subst k'.
  apply sort_by_date_value_error.
  - apply Forall_forall. intros x (kv & _ & Hx)%list_elem_of_omap.
    destruct (truthy kv.1) eqn:Etk; [|done]. injection Hx as <-. cbn [data].
    destruct kv.1; [by eexists|discriminate].
  - intros Hall. rewrite Forall_forall in Hall.
    destruct (Hall (mkitem (Some k) v)) as [d Hd].
    + apply list_elem_of_omap. exists (Some k, v). split; [done|]. cbn [fst snd].
      rewrite Hk in Ht. by rewrite Ht.
    + unfold item_date in Hd. cbn in Hd. congruence.
Qed.

Lemma fetch_range_post_raises (all_items : list item) :
  ¬ Forall date_parses_if_any all_items →
  sort_by_date
    (map (λ kv : string * option string, mkitem (Some kv.1) kv.2)
         (fold_left (λ seen it,
                       if truthy (data it)
                       then dict_set (default "" (data it)) (valor it) seen
                       else seen) all_items []))
  = Raise ValueError.
Proof.
  intros Hn. destruct (undated_found all_items Hn) as (it & k & Hin & Hk & Ht & Hp).
  set (seen := fold_left _ all_items []).
  assert (Hkey : k ∈ seen.*1).
  { apply range_seen_keys. right. by exists it. }
  apply list_elem_of_fmap in Hkey as ([k' v] & Ek & Hkv). cbn [fst] in Ek. subst k'.
  apply sort_by_date_value_error.
  - apply Forall_forall. intros x (kv & -> & _)%list_elem_of_fmap. by eexists.
  - intros Hall. rewrite Forall_forall in Hall.
    destruct (Hall (mkitem (Some k) v)) as [d Hd].
    + apply list_elem_of_fmap. by exists (k, v).
    + unfold item_date in Hd. cbn in Hd. congruence.
Qed.

(** C7. For every sequence of chunk responses, the fetchers dedupe by
    date string and then sort by the parsed date. When every record that
    has a date has one that parses as day/month/year, both return the
    gathered records sorted ascending by the parsed date, with one record
    per date string whose value is that of the record gathered last, so
    the later chunk and the later position win: two chunks holding
    01/01/2020 with 1,50 and then 01/01/2020 with 1,60 give exactly the
    record with 1,60. When some record has a date that is not empty and
    does not parse, both raise [ValueError] from the sort and return
    nothing: so it is with the one response that holds a record dated
    2020-01-01. *)
Theorem C7_fetch_dedup_sorted (w : world) (serie : string) :
  (∀ start_year end_year,
     Forall date_parses_if_any
       (gather w serie (year_windows start_year (default (today_year w) end_year))) →
     ∃ out, fetch_sgs_series w serie start_year end_year = Ok out ∧
            fetched (gather w serie
                       (year_windows start_year (default (today_year w) end_year))) out) ∧
  (∀ start_date end_date step_years d0 d1 wins,
     strptime_dmy start_date = Some d0 → strptime_dmy end_date = Some d1 →
     range_windows loop_fuel d0 d1 step_years (year d0) = Ok wins →
     Forall date_parses_if_any
       (gather w serie (map (λ c : date * date, (strftime_dmy c.1, strftime_dmy c.2)) wins)) →
     ∃ out, fetch_sgs_series_range w serie start_date end_date step_years = Ok out ∧
            fetched (gather w serie
                       (map (λ c : date * date, (strftime_dmy c.1, strftime_dmy c.2)) wins))
                    out) ∧
  (http_get_json w serie "01/01/2020" "31/12/2020" = Some [rec_150] →
   http_get_json w serie "01/01/2021" "31/12/2021" = Some [rec_160] →
   fetch_sgs_series w serie 2020 (Some 2021) = Ok [rec_160] ∧
   fetch_sgs_series_range w serie "01/01/2020" "31/12/2021" 1 = Ok [rec_160]) ∧
  (∀ start_year end_year,
     ¬ Forall date_parses_if_any
         (gather w serie (year_windows start_year (default (today_year w) end_year))) →
     fetch_sgs_series w serie start_year end_year = Raise ValueError) ∧
  (∀ start_date end_date step_years d0 d1 wins,
     strptime_dmy start_date = Some d0 → strptime_dmy end_date = Some d1 →
     range_windows loop_fuel d0 d1 step_years (year d0) = Ok wins →
     ¬ Forall date_parses_if_any
         (gather w serie (map (λ c : date * date, (strftime_dmy c.1, strftime_dmy c.2)) wins)) →
     fetch_sgs_series_range w serie start_date end_date step_years = Raise ValueError) ∧
  fetch_sgs_series world_iso_dated "4390" 2020 None = Raise ValueError ∧
  fetch_sgs_series_range world_iso_dated "4390" "01/01/2020" "31/12/2020" 1
  = Raise ValueError.
Proof.
  split; [|split; [|split; [|split; [|split; [|split]]]]].
  - intros start_year end_year. apply fetch_sgs_series_ok.
  - intros start_date end_date step_years d0 d1 wins. apply fetch_sgs_series_range_ok.
  - intros H1 H2. split.
    + unfold fetch_sgs_series. cbv zeta.
      replace (year_windows 2020 (default (today_year w) (Some 2021)))
        with [("01/01/2020", "31/12/2020"); ("01/01/2021", "31/12/2021")]
        by (vm_compute; reflexivity).
      unfold gather. cbn [map concat fst snd]. rewrite H1, H2. vm_compute. reflexivity.
    + unfold fetch_sgs_series_range.
      replace (strptime_dmy "01/01/2020") with (Some (mkdate 2020 1 1))
        by (vm_compute; reflexivity).
      replace (strptime_dmy "31/12/2021") with (Some (mkdate 2021 12 31))
        by (vm_compute; reflexivity).
      cbn [of_option mbind result_bind].
      replace (range_windows loop_fuel (mkdate 2020 1 1) (mkdate 2021 12 31) 1
                (year (mkdate 2020 1 1)))
        with (Ok [(mkdate 2020 1 1, mkdate 2020 12 31);
                  (mkdate 2021 1 1, mkdate 2021 12 31)] : result (list (date * date)))
        by (vm_compute; reflexivity).
      cbn [mbind result_bind]. unfold gather. cbn [map concat fst snd].
      replace (strftime_dmy (mkdate 2020 1 1)) with "01/01/2020" by (vm_compute; reflexivity).
      replace (strftime_dmy (mkdate 2020 12 31)) with "31/12/2020" by (vm_compute; reflexivity).
      replace (strftime_dmy (mkdate 2021 1 1)) with "01/01/2021" by (vm_compute; reflexivity).
      replace (strftime_dmy (mkdate 2021 12 31)) with "31/12/2021" by (vm_compute; reflexivity).
      rewrite H1, H2. vm_compute. reflexivity.
  - intros start_year end_year Hn. unfold fetch_sgs_series. cbv zeta.
    by apply fetch_series_post_raises.
  - intros start_date end_date step_years d0 d1 wins E0 E1 Hw Hn.
    unfold fetch_sgs_series_range. rewrite E0, E1.
    cbn [of_option mbind result_bind]. rewrite Hw. cbn [mbind result_bind].
    by apply fetch_range_post_raises.
  - vm_compute. reflexivity.
  - vm_compute. reflexivity.
Qed.


Lemma C7_witness :
  fetch_sgs_series
    (mkworld 2021
       (λ _ ini _, if String.eqb ini "01/01/2020" then Some [rec_150]
                   else if String.eqb ini "01/01/2021" then Some [rec_160] else None)
       (λ _ _, None) "2021-01-01_000000" NoFault false NoFault NoFault
       no_makedirs_fault no_complex_pow no_hypot)
    "4390" 2020 (Some 2021) = Ok [rec_160].
Proof.
  apply (C7_fetch_dedup_sorted
    (mkworld 2021
       (λ _ ini _, if String.eqb ini "01/01/2020" then Some [rec_150]
                   else if String.eqb ini "01/01/2021" then Some [rec_160] else None)
       (λ _ _, None) "2021-01-01_000000" NoFault false NoFault NoFault
       no_makedirs_fault no_complex_pow no_hypot) "4390");
    reflexivity.
Defined.

(** X14. One record with a date that is not empty and does not parse, in
    any chunk that came back, makes either fetcher raise [ValueError]
    from its final sort by date; the monthly SELIC run, once it has made
    its directories, then ends with the exception uncaught and no file
    touched. *)
Theorem fetch_raises_on_unparsed_date (w : world) (cfg : Config) (fs : files)
    (serie start_date end_date nr_mode source : string)
    (start_year step_years : Z) (end_year : option Z) (d0 d1 : date)
    (wins : list (date * date)) :
  (¬ Forall date_parses_if_any
       (gather w serie (year_windows start_year (default (today_year w) end_year))) →
   fetch_sgs_series w serie start_year end_year = Raise ValueError) ∧
  (strptime_dmy start_date = Some d0 → strptime_dmy end_date = Some d1 →
   range_windows loop_fuel d0 d1 step_years (year d0) = Ok wins →
   ¬ Forall date_parses_if_any
       (gather w serie (map (λ c : date * date, (strftime_dmy c.1, strftime_dmy c.2)) wins)) →
   fetch_sgs_series_range w serie start_date end_date step_years = Raise ValueError) ∧
  (ensure_dirs w cfg fs = Ok tt → String.eqb source "1178" = false →
   ¬ Forall date_parses_if_any
       (gather w (SGS_SERIE_SELIC_MENSAL cfg) (year_windows start_year (today_year w))) →
   update_selic w cfg fs start_year nr_mode source = Crashed ValueError fs).
Proof.
  split; [|split].
  - intros Hn. unfold fetch_sgs_series. cbv zeta. by apply fetch_series_post_raises.
  - intros E0 E1 Hw Hn. unfold fetch_sgs_series_range. rewrite E0, E1.
    cbn [of_option mbind result_bind]. rewrite Hw. cbn [mbind result_bind].
    by apply fetch_range_post_raises.
  - intros Hdirs Hs Hn. unfold update_selic. rewrite Hdirs, Hs. cbn [run_with].
    unfold fetch_sgs_series. cbv zeta. cbn [default].
    by rewrite fetch_series_post_raises.
Qed.

Lemma rec_iso_dated_unparsed (l : list item) :
  ¬ Forall date_parses_if_any (rec_iso_dated :: l).
Proof.
  intros H. apply Forall_inv in H. destruct (H eq_refl) as [d Hd]. discriminate Hd.
Qed.

Lemma fetch_raises_on_unparsed_date_witness :
  fetch_sgs_series world_iso_dated "4390" 2020 None = Raise ValueError ∧
  fetch_sgs_series_range world_iso_dated "4390" "01/01/2020" "31/12/2020" 1
    = Raise ValueError ∧
  update_selic world_iso_dated CONFIG ∅ 2020 "month" "4390" = Crashed ValueError ∅.
Proof.
  pose proof (fetch_raises_on_unparsed_date world_iso_dated CONFIG ∅
                "4390" "01/01/2020" "31/12/2020" "month" "4390" 2020 1 None
                (mkdate 2020 1 1) (mkdate 2020 12 31)
                [(mkdate 2020 1 1, mkdate 2020 12 31)]) as (H1 & H2 & H3).
  split; [|split].
  - apply H1.
    replace (gather _ _ _) with [rec_iso_dated] by (vm_compute; reflexivity).
    apply rec_iso_dated_unparsed.
  - apply H2; [reflexivity|reflexivity|vm_compute; reflexivity|].
    replace (gather _ _ _) with [rec_iso_dated] by (vm_compute; reflexivity).
    apply rec_iso_dated_unparsed.
  - apply H3; [vm_compute; reflexivity|reflexivity|].
    replace (gather _ _ _) with [rec_iso_dated] by (vm_compute; reflexivity).
    apply rec_iso_dated_unparsed.
Defined.

(** ** What the reader makes of a factor text *)

Lemma factor_char_facts (c : ascii) :
  factor_char c = true →
  is_cspace c = false ∧ to_lower c = c ∧ Ascii.eqb c "-" = false ∧
  Ascii.eqb c "+" = false ∧ Ascii.eqb c "_" = false ∧ Ascii.eqb c "i" = false ∧
  Ascii.eqb c "n" = false ∧ Ascii.eqb (to_lower c) "e" = false ∧
  (is_digit c = false → c = "."%char) ∧ (is_digit c = true → Ascii.eqb c "." = false).
Proof.
  destruct c as [[] [] [] [] [] [] [] []]; vm_compute; intros H;
    try discriminate H; repeat split; intros; congruence.
Qed.

Lemma str_append_nil_r (s : string) : s +:+ "" = s.
Proof. induction s as [|c s IH]; [done|]. change (String c (s +:+ "") = String c s). by rewrite IH. Qed.

Lemma str_rev_onto_twice (s a b : string) :
  str_rev_onto (str_rev_onto s a) b = str_rev_onto a (s +:+ b).
Proof.
  revert a b. induction s as [|c s IH]; intros a b; [done|].
  cbn [str_rev_onto]. by rewrite IH.
Qed.

Lemma str_rev_involutive (s : string) : str_rev (str_rev s) = s.
Proof. unfold str_rev. rewrite str_rev_onto_twice. cbn [str_rev_onto]. apply str_append_nil_r. Qed.

Lemma str_forallb_rev_onto (P : ascii → bool) (s a : string) :
  str_forallb P (str_rev_onto s a) = str_forallb P s && str_forallb P a.
Proof.
  revert a. induction s as [|c s IH]; intros a; [done|].
  cbn [str_rev_onto str_forallb]. rewrite IH. cbn [str_forallb].
  destruct (P c), (str_forallb P s), (str_forallb P a); done.
Qed.

Lemma lstrip_id (sp : ascii → bool) (s : string) :
  str_forallb (λ c, negb (sp c)) s = true → lstrip sp s = s.
Proof.
  destruct s as [|c s]; [done|]. cbn [str_forallb lstrip].
  intros [Hc _]%andb_prop. by rewrite (proj1 (negb_true_iff _) Hc).
Qed.

Lemma strip_with_id (sp : ascii → bool) (s : string) :
  str_forallb (λ c, negb (sp c)) s = true → strip_with sp s = s.
Proof.
  intros H. unfold strip_with. rewrite (lstrip_id sp s H), lstrip_id.
  - apply str_rev_involutive.
  - unfold str_rev. by rewrite str_forallb_rev_onto, H.
Qed.

Lemma str_forallb_impl (P Q : ascii → bool) (s : string) :
  (∀ c, P c = true → Q c = true) → str_forallb P s = true → str_forallb Q s = true.
Proof.
  intros HPQ. induction s as [|c s IH]; [done|]. cbn [str_forallb].
  intros [Hc Hs]%andb_prop. by rewrite (HPQ c Hc), IH.
Qed.

Lemma str_map_factor (s : string) :
  str_forallb factor_char s = true → str_map to_lower s = s.
Proof.
  induction s as [|c s IH]; [done|]. cbn [str_forallb str_map].
  intros [Hc Hs]%andb_prop. rewrite IH by done.
  by destruct (factor_char_facts c Hc) as (_ & -> & _).
Qed.

(** On a text of digits and dots a [digitpart] is the run of digits. *)
Lemma digitpart_tail_span (s : string) :
  str_forallb factor_char s = true → digitpart_tail s = span is_digit s.
Proof.
  induction s as [|c s IH]; [done|]. cbn [str_forallb digitpart_tail span].
  intros [Hc Hs]%andb_prop. destruct (is_digit c) eqn:Ed.
  - by rewrite IH.
  - by destruct (factor_char_facts c Hc) as (_ & _ & _ & _ & -> & _).
Qed.

Lemma opt_digitpart_span (s : string) :
  str_forallb factor_char s = true → opt_digitpart s = span is_digit s.
Proof.
  destruct s as [|c s]; [done|]. unfold opt_digitpart, digitpart. cbn [str_forallb span].
  intros [Hc Hs]%andb_prop. destruct (is_digit c) eqn:Ed; [|done].
  rewrite (digitpart_tail_span s Hs). by destruct (span is_digit s).
Qed.

(** The run of digits at the head of a text of digits and dots: the rest
    is empty or begins with a dot. *)
Lemma span_digits (s : string) :
  str_forallb factor_char s = true →
  ∃ ds r, span is_digit s = (ds, r) ∧ s = ds +:+ r ∧
          str_forallb is_digit ds = true ∧ str_forallb factor_char r = true ∧
          (r = "" ∨ ∃ r', r = String "." r').
Proof.
  induction s as [|c s IH].
  { exists EmptyString, EmptyString. repeat split; by left. }
  cbn [str_forallb span]. intros [Hc Hs]%andb_prop.
  destruct (is_digit c) eqn:Ed.
  - destruct (IH Hs) as (ds & r & -> & -> & Hds & Hr & Hhd).
    exists (String c ds), r. cbn [str_forallb]. rewrite Ed, Hds. done.
  - exists "", (String c s). cbn [str_forallb]. rewrite Hc, Hs.
    repeat split; try done. right. exists s.
    destruct (factor_char_facts c Hc) as (_ & _ & _ & _ & _ & _ & _ & _ & Hdot & _).
    by rewrite (Hdot Ed).
Qed.

Lemma digits_val_acc_Some (s : string) (acc : Z) :
  str_forallb is_digit s = true → is_Some (digits_val_acc s acc).
Proof.
  revert acc. induction s as [|c s IH]; intros acc; [by eexists|].
  cbn [str_forallb digits_val_acc]. intros [-> Hs]%andb_prop. by apply IH.
Qed.

Lemma str_forallb_app (P : ascii → bool) (a b : string) :
  str_forallb P (a +:+ b) = str_forallb P a && str_forallb P b.
Proof.
  induction a as [|c a IH]; [done|].
  change (str_forallb P (String c (a +:+ b)) = str_forallb P (String c a) && str_forallb P b).
  cbn [str_forallb]. rewrite IH. by destruct (P c).
Qed.

Lemma count_char_app (c : ascii) (a b : string) :
  count_char c (a +:+ b) = (count_char c a + count_char c b)%nat.
Proof.
  induction a as [|x a IH]; [done|].
  change (count_char c (String x (a +:+ b)) = (count_char c (String x a) + count_char c b)%nat).
  cbn [count_char]. rewrite IH. lia.
Qed.

Lemma str_existsb_app (P : ascii → bool) (a b : string) :
  str_existsb P (a +:+ b) = str_existsb P a || str_existsb P b.
Proof.
  induction a as [|c a IH]; [done|].
  change (str_existsb P (String c (a +:+ b)) = str_existsb P (String c a) || str_existsb P b).
  cbn [str_existsb]. rewrite IH. by destruct (P c).
Qed.

Lemma digits_no_dot (ds : string) :
  str_forallb is_digit ds = true → count_char "." ds = O.
Proof.
  induction ds as [|c ds IH]; [done|]. cbn [str_forallb count_char].
  intros [Hc Hs]%andb_prop. rewrite IH by done.
  assert (Hf : factor_char c = true) by (unfold factor_char; by rewrite Hc).
  destruct (factor_char_facts c Hf) as (_ & _ & _ & _ & _ & _ & _ & _ & _ & Hd).
  by rewrite Hd.
Qed.

Lemma digits_existsb (ds : string) :
  str_forallb is_digit ds = true → str_existsb is_digit ds = negb (String.eqb ds "").
Proof.
  destruct ds as [|c ds]; [done|]. cbn [str_forallb str_existsb].
  by intros [-> _]%andb_prop.
Qed.

Lemma str_length_zero (s : string) : String.length s = O ↔ s = "".
Proof. by destruct s. Qed.

Lemma read_floatnumber_factor (neg : bool) (g : string) :
  str_forallb factor_char g = true →
  is_Some (read_floatnumber neg g) ↔ decimal_text g.
Proof.
  intros Hg. unfold read_floatnumber, decimal_text. rewrite (opt_digitpart_span g Hg).
  destruct (span_digits g Hg) as (ip & r1 & -> & -> & Hip & Hr1 & Hhd).
  rewrite count_char_app, str_existsb_app, (digits_no_dot ip Hip), (digits_existsb ip Hip).
  destruct Hhd as [->|[r1' ->]].
  - cbn [count_char str_existsb String.length read_exponent]. rewrite Nat.add_0_r, orb_false_r.
    rewrite str_append_nil_r.
    destruct ip as [|c ip]; cbn [String.length Nat.eqb String.eqb negb].
    + split; [by intros [? ?]|by intros [_ ?]].
    + split; [intros _; split; [lia|done]|]. intros _.
      destruct (digits_val_acc_Some (String c ip) 0 Hip) as [m Hm].
      unfold digits_val. by rewrite Hm.
  - cbn [str_forallb] in Hr1. apply andb_prop in Hr1 as [_ Hr1'].
    change (Ascii.eqb "." ".") with true. cbv iota.
    rewrite (opt_digitpart_span r1' Hr1').
    destruct (span_digits r1' Hr1') as (fp & r2 & -> & -> & Hfp & Hr2 & Hhd).
    cbn [count_char str_existsb]. change (Ascii.eqb "." ".") with true.
    change (is_digit ".") with false. cbn [orb].
    rewrite count_char_app, str_existsb_app, (digits_no_dot fp Hfp), (digits_existsb fp Hfp).
    destruct Hhd as [->|[r2' ->]].
    + cbn [count_char str_existsb read_exponent]. rewrite orb_false_r.
      destruct (Nat.eqb (String.length ip + String.length fp) 0) eqn:El.
      * apply Nat.eqb_eq in El.
        assert (ip = "" ∧ fp = "") as [-> ->].
        { split; apply str_length_zero; lia. }
        split; [by intros [? ?]|by intros [_ ?]].
      * assert (Hd : str_forallb is_digit (ip +:+ fp) = true).
        { by rewrite str_forallb_app, Hip, Hfp. }
        destruct (digits_val_acc_Some (ip +:+ fp) 0 Hd) as [m Hm].
        unfold digits_val. rewrite Hm. split; [intros _|by eexists].
        split; [lia|]. apply Nat.eqb_neq in El.
        destruct ip as [|c ip]; [|done]. destruct fp as [|c fp]; [|done]. done.
    + cbn [count_char]. change (Ascii.eqb "." ".") with true.
      split; [|intros [Hc _]; lia].
      destruct (Nat.eqb _ 0); [by intros [? ?]|].
      cbn [read_exponent]. change (Ascii.eqb (to_lower ".") "e") with false. cbv iota.
      by intros [? ?].
Qed.

(** [float()] on a text of digits and dots, which is what the group
    [[0-9.]+] of [PAIR_RE] captures: it returns exactly when the text has
    at most one dot and at least one digit. *)
Lemma py_float_factor_text (g : string) :
  str_forallb factor_char g = true → is_Some (py_float g) ↔ decimal_text g.
Proof.
  intros Hg. unfold py_float.
  rewrite strip_with_id.
  2:{ apply (str_forallb_impl factor_char); [|done]. intros c Hc.
      by destruct (factor_char_facts c Hc) as (-> & _). }
  assert (Hsign : read_sign g = (false, g)).
  { destruct g as [|c g]; [done|]. cbn [str_forallb] in Hg. apply andb_prop in Hg as [Hc _].
    destruct (factor_char_facts c Hc) as (_ & _ & Hm & Hp & _).
    unfold read_sign. by rewrite Hm, Hp. }
  rewrite Hsign, (str_map_factor g Hg).
  assert (Hname : String.eqb g "inf" || String.eqb g "infinity" = false ∧
                  String.eqb g "nan" = false).
  { destruct g as [|c g]; [done|]. cbn [str_forallb] in Hg. apply andb_prop in Hg as [Hc _].
    destruct (factor_char_facts c Hc) as (_ & _ & _ & _ & _ & Hi & Hn & _).
    cbn [String.eqb]. by rewrite Hi, Hn. }
  destruct Hname as [-> ->]. by apply read_floatnumber_factor.
Qed.

Lemma span_forallb (cls : ascii → bool) (s a r : string) :
  span cls s = (a, r) → str_forallb cls a = true.
Proof.
  revert a r. induction s as [|c s IH]; intros a r; cbn [span]; [by intros [= <- <-]|].
  destruct (cls c) eqn:Ec; [|by intros [= <- <-]].
  destruct (span cls s) as [a' r'] eqn:Es. intros [= <- <-].
  cbn [str_forallb]. by rewrite Ec, (IH a' r').
Qed.

Lemma match_pair_factor (s g1 g2 r : string) :
  match_pair s = Some (g1, g2, r) → str_forallb factor_char g2 = true.
Proof.
  unfold match_pair. intros H.
  destruct (lit "{" s) as [r0|]; cbn [mbind option_bind] in H; [|discriminate H].
  destruct (ws_lit "date" r0) as [r1|]; cbn [mbind option_bind] in H; [|discriminate H].
  destruct (ws_lit ":" r1) as [r2|]; cbn [mbind option_bind] in H; [|discriminate H].
  destruct (quote (lstrip is_space r2)) as [r3|]; cbn [mbind option_bind] in H;
    [|discriminate H].
  destruct (iso_date_shape r3) as [[d r4]|]; cbn [mbind option_bind] in H; [|discriminate H].
  destruct (quote r4) as [r5|]; cbn [mbind option_bind] in H; [|discriminate H].
  destruct (ws_lit "," r5) as [r6|]; cbn [mbind option_bind] in H; [|discriminate H].
  destruct (ws_lit "factor" r6) as [r7|]; cbn [mbind option_bind] in H; [|discriminate H].
  destruct (ws_lit ":" r7) as [r8|]; cbn [mbind option_bind] in H; [|discriminate H].
  destruct (span _ (lstrip is_space r8)) as [g r'] eqn:Es.
  destruct (String.eqb g ""); [discriminate H|].
  destruct (ws_lit "}" r') as [r9|]; cbn [mbind option_bind] in H; [|discriminate H].
  injection H as <- <- <-. by apply (span_forallb _ _ _ _ Es).
Qed.

Lemma finditer_from_factor (skip : nat) (s : string) :
  Forall (λ m : string * string, str_forallb factor_char m.2 = true) (finditer_from skip s).
Proof.
  revert skip. induction s as [|c s IH]; intros skip; cbn [finditer_from]; [constructor|].
  destruct skip as [|k]; [|apply IH].
  destruct (match_pair (String c s)) as [[[g1 g2] r]|] eqn:Em; [|apply IH].
  constructor; [|apply IH]. exact (match_pair_factor _ g1 g2 r Em).
Qed.

Lemma rmapM_float_Ok (l : list (string * string)) :
  Forall (λ m, is_Some (py_float m.2)) l →
  ∃ out, rmapM (λ m : string * string,
                  v ← of_option ValueError (py_float m.2); Ok (m.1, v)) l = Ok out ∧
         out.*1 = l.*1.
Proof.
  induction 1 as [|m l [v Hv] Hl (out & Hout & Hfst)]; [by exists []|].
  exists ((m.1, v) :: out). cbn [rmapM]. rewrite Hv. cbn [of_option mbind result_bind].
  rewrite Hout. cbn [mbind result_bind]. split; [done|]. cbn. by rewrite Hfst.
Qed.

Lemma rmapM_float_Raise (l : list (string * string)) :
  ¬ Forall (λ m, is_Some (py_float m.2)) l →
  rmapM (λ m : string * string,
           v ← of_option ValueError (py_float m.2); Ok (m.1, v)) l = Raise ValueError.
Proof.
  induction l as [|m l IH]; intros Hn; [destruct Hn; constructor|].
  cbn [rmapM]. destruct (py_float m.2) as [v|] eqn:Ev; cbn [of_option mbind result_bind]; [|done].
  rewrite IH; [done|]. intros Hl. apply Hn. constructor; [by exists v|done].
Qed.

(** X15. Once the file is read, [read_js_pairs] raises nothing but the
    [ValueError] of [float], and raises it exactly when the file holds an
    entry whose factor text has two dots or more, or no digit; otherwise
    it returns one pair for every entry the pattern finds, an empty list
    for a missing file. *)
Theorem read_js_pairs_raises_iff (fs : files) (path : string) :
  match fs !! path with
  | None => read_js_pairs fs path = Ok []
  | Some content =>
      if decide (Forall (λ m : string * string, decimal_text m.2) (finditer content))
      then ∃ pairs, read_js_pairs fs path = Ok pairs ∧
                    pairs.*1 ≡ₚ (finditer content).*1
      else read_js_pairs fs path = Raise ValueError
  end.
Proof.
  unfold read_js_pairs. destruct (fs !! path) as [content|]; [|done].
  assert (Hiff : Forall (λ m : string * string, decimal_text m.2) (finditer content) ↔
                 Forall (λ m : string * string, is_Some (py_float m.2)) (finditer content)).
  { pose proof (finditer_from_factor O content) as Hf. fold (finditer content) in Hf.
    rewrite !Forall_forall in *. split; intros H m Hm.
    - apply py_float_factor_text; [by apply Hf|by apply H].
    - apply py_float_factor_text; [by apply Hf|by apply H]. }
  destruct (decide _) as [Hall|Hn].
  - destruct (rmapM_float_Ok _ (proj1 Hiff Hall)) as (out & -> & Hfst).
    cbn [mbind result_bind]. eexists. split; [done|].
    rewrite <- Hfst. apply fmap_Permutation, py_sorted_perm.
  - rewrite rmapM_float_Raise; [done|]. intros H. by apply Hn, Hiff.
Qed.

(** ** Reading back what [serialize_js] wrote *)

Lemma str_app_assoc (a b c : string) : (a +:+ b) +:+ c = a +:+ (b +:+ c).
Proof.
  induction a as [|x a IH]; [done|].
  change (String x ((a +:+ b) +:+ c) = String x (a +:+ (b +:+ c))). by rewrite IH.
Qed.

Lemma no_char_forallb (c : ascii) (s : string) :
  no_char c s = str_forallb (λ x, negb (Ascii.eqb x c)) s.
Proof. induction s as [|x s IH]; [done|]. cbn [no_char str_forallb]. by rewrite IH. Qed.

Lemma no_char_app (c : ascii) (a b : string) :
  no_char c (a +:+ b) = no_char c a && no_char c b.
Proof. rewrite !no_char_forallb. apply str_forallb_app. Qed.

Lemma factor_char_plain (c : ascii) :
  factor_char c = true → is_space c = false ∧ Ascii.eqb c "{" = false.
Proof.
  destruct c as [[] [] [] [] [] [] [] []]; vm_compute; intros H;
    try discriminate H; by split.
Qed.

Lemma factor_text_no_brace (s : string) :
  str_forallb factor_char s = true → no_char "{" s = true.
Proof.
  rewrite no_char_forallb. apply str_forallb_impl. intros c Hc.
  by rewrite (proj2 (factor_char_plain c Hc)).
Qed.

Lemma string_of_uint_digits (d : Decimal.uint) :
  str_forallb is_digit (NilEmpty.string_of_uint d) = true.
Proof.
  induction d as [|d IH|d IH|d IH|d IH|d IH|d IH|d IH|d IH|d IH|d IH];
    cbn [NilEmpty.string_of_uint str_forallb]; [done|by rewrite IH..].
Qed.

Lemma str_of_Z_digits (z : Z) :
  0 ≤ z → str_forallb is_digit (str_of_Z z) = true ∧ str_of_Z z ≠ "".
Proof.
  intros Hz. unfold str_of_Z. destruct z as [|p|p]; [done| |lia].
  cbn [Z.to_int NilZero.string_of_int]. unfold NilZero.string_of_uint.
  pose proof (string_of_uint_digits (Pos.to_uint p)) as Hd.
  destruct (Pos.to_uint p); [done|by split..].
Qed.

Lemma zeros_digits (n : nat) : str_forallb is_digit (zeros n) = true.
Proof. induction n as [|n IH]; [done|]. cbn [zeros str_forallb]. by rewrite IH. Qed.

Lemma fmt_0d_digits (w : nat) (z : Z) :
  0 ≤ z → str_forallb is_digit (fmt_0d w z) = true.
Proof.
  intros Hz. unfold fmt_0d. rewrite (proj2 (Z.ltb_ge z 0)) by lia. cbv zeta.
  by rewrite str_forallb_app, zeros_digits, (proj1 (str_of_Z_digits z Hz)).
Qed.

Lemma digits_factor (s : string) :
  str_forallb is_digit s = true → str_forallb factor_char s = true.
Proof. apply str_forallb_impl. intros c Hc. unfold factor_char. by rewrite Hc. Qed.

Lemma div_half_even_nonneg (n d : Z) : 0 ≤ n → 0 < d → 0 ≤ div_half_even n d.
Proof.
  intros Hn Hd. unfold div_half_even. cbv zeta.
  pose proof (Z.div_pos n d Hn Hd).
  destruct (2 * (n mod d) ?= d); [destruct (Z.even _)|..]; lia.
Qed.

(** The text of a number written without a sign: digits, and a dot
    before the decimals. *)
Lemma unsigned_text (p : nat) (n scale : Z) :
  0 ≤ n → 0 < scale →
  let t := str_of_Z (n / scale) +:+
           (if Nat.eqb p 0 then "" else "." +:+ fmt_0d p (n mod scale)) in
  str_forallb factor_char t = true ∧ t ≠ "".
Proof.
  intros Hn Hs t. unfold t.
  assert (Hq : 0 ≤ n / scale) by (by apply Z.div_pos).
  assert (Hr : 0 ≤ n mod scale) by (apply Z.mod_pos_bound; lia).
  destruct (str_of_Z_digits _ Hq) as [Hd Hne]. split.
  - rewrite str_forallb_app, (digits_factor _ Hd). destruct (Nat.eqb p 0); [done|].
    change ("." +:+ fmt_0d p (n mod scale)) with (String "." (fmt_0d p (n mod scale))).
    cbn [str_forallb andb]. change (factor_char ".") with true.
    by rewrite (digits_factor _ (fmt_0d_digits p _ Hr)).
  - destruct (str_of_Z (n / scale)); done.
Qed.

Lemma fmt_fixed_number (p : nat) (x : float) :
  ∃ (s : bool) (n : Z),
    0 ≤ n ∧
    (x = S754_nan ∨ (∃ s', x = S754_infinity s') ∨
     (f_plain x = negb s ∧
      fmt_fixed p x = (if s then "-" else "") +:+ str_of_Z (n / 10 ^ Z.of_nat p) +:+
                      (if Nat.eqb p 0 then ""
                       else "." +:+ fmt_0d p (n mod 10 ^ Z.of_nat p)))).
Proof.
  assert (Hscale : 0 < 10 ^ Z.of_nat p) by (apply Z.pow_pos_nonneg; lia).
  destruct x as [s|s| |s m e].
  - exists s, 0. split; [done|]. right. right. split; [by destruct s|done].
  - exists false, 0. split; [done|]. right. left. by exists s.
  - exists false, 0. split; [done|]. by left.
  - exists s, (if 0 <=? e then Z.pos m * 10 ^ Z.of_nat p * 2 ^ e
               else div_half_even (Z.pos m * 10 ^ Z.of_nat p) (2 ^ (- e))).
    split.
    + destruct (Z.leb_spec 0 e).
      * apply Z.mul_nonneg_nonneg; [lia|]. by apply Z.pow_nonneg.
      * apply div_half_even_nonneg; [lia|]. apply Z.pow_pos_nonneg; lia.
    + right. right. split; [by destruct s|done].
Qed.

(** The two shapes of a written factor: a text of the class of the
    pattern, or one that opens with a character outside it. *)
Lemma fmt_fixed_shape (p : nat) (x : float) :
  let F := fmt_fixed p x in
  no_char "{" F = true ∧
  if f_plain x then str_forallb factor_char F = true ∧ F ≠ ""
  else ∃ c F', F = String c F' ∧ factor_char c = false ∧ is_space c = false.
Proof.
  cbv zeta. assert (Hscale : 0 < 10 ^ Z.of_nat p) by (apply Z.pow_pos_nonneg; lia).
  destruct (fmt_fixed_number p x) as (s & n & Hn & [->|[[s' ->]|[Hp ->]]]).
  - split; [done|]. by exists "n"%char, "an".
  - destruct s'; (split; [done|]); [by exists "-"%char, "inf"|by exists "i"%char, "nf"].
  - rewrite Hp. destruct (unsigned_text p n _ Hn Hscale) as [Ht Hne].
    destruct s; cbn [negb].
    + split.
      * change (no_char "{" (String "-" (str_of_Z (n / 10 ^ Z.of_nat p) +:+
                  (if Nat.eqb p 0 then ""
                   else "." +:+ fmt_0d p (n mod 10 ^ Z.of_nat p)))) = true).
        cbn [no_char]. change (negb (Ascii.eqb "-" "{")) with true.
        by rewrite (factor_text_no_brace _ Ht).
      * by eexists "-"%char, _.
    + change ("" +:+ ?a) with a. split; [by apply factor_text_no_brace|done].
Qed.

Lemma lit_app (p s r t : string) : lit p s = Some r → lit p (s +:+ t) = Some (r +:+ t).
Proof.
  revert s. induction p as [|c p IH]; intros s; cbn [lit]; [by intros [= ->]|].
  destruct s as [|c' s]; [done|].
  change (String c' s +:+ t) with (String c' (s +:+ t)). cbv iota.
  destruct (Ascii.eqb c c'); [apply IH|done].
Qed.

Lemma digits_n_app (n : nat) (s a r t : string) :
  digits_n n s = Some (a, r) → digits_n n (s +:+ t) = Some (a, r +:+ t).
Proof.
  revert s a r. induction n as [|n IH]; intros s a r; cbn [digits_n]; [by intros [= <- <-]|].
  destruct s as [|c s]; [done|].
  change (String c s +:+ t) with (String c (s +:+ t)). cbv iota.
  destruct (is_digit c); [|done].
  destruct (digits_n n s) as [[a' r']|] eqn:E; [|done]. intros [= <- <-].
  by rewrite (IH s a' r' E).
Qed.

Lemma iso_date_shape_app (d t : string) :
  iso_shaped d → iso_date_shape (d +:+ t) = Some (d, t).
Proof.
  unfold iso_shaped, iso_date_shape. intros H.
  destruct (digits_n 4 d) as [[y r1]|] eqn:E1; cbn [mbind option_bind] in H; [|done].
  rewrite (digits_n_app 4 d y r1 t E1). cbn [mbind option_bind].
  destruct (lit "-" r1) as [r2|] eqn:E2; cbn [mbind option_bind] in H; [|done].
  rewrite (lit_app "-" r1 r2 t E2). cbn [mbind option_bind].
  destruct (digits_n 2 r2) as [[m r3]|] eqn:E3; cbn [mbind option_bind] in H; [|done].
  rewrite (digits_n_app 2 r2 m r3 t E3). cbn [mbind option_bind].
  destruct (lit "-" r3) as [r4|] eqn:E4; cbn [mbind option_bind] in H; [|done].
  rewrite (lit_app "-" r3 r4 t E4). cbn [mbind option_bind].
  destruct (digits_n 2 r4) as [[dd r5]|] eqn:E5; cbn [mbind option_bind] in H; [|done].
  rewrite (digits_n_app 2 r4 dd r5 t E5). cbn [mbind option_bind].
  by injection H as -> ->.
Qed.

Lemma digits_n_digits (n : nat) (s a r : string) :
  digits_n n s = Some (a, r) → str_forallb is_digit a = true ∧ s = a +:+ r.
Proof.
  revert s a r. induction n as [|n IH]; intros s a r; cbn [digits_n]; [by intros [= <- <-]|].
  destruct s as [|c s]; [done|]. destruct (is_digit c) eqn:Ec; [|done].
  destruct (digits_n n s) as [[a' r']|] eqn:E; [|done]. intros [= <- <-].
  destruct (IH s a' r' E) as [Hd ->]. cbn [str_forallb]. by rewrite Ec, Hd.
Qed.

Lemma lit_prefix (p s r : string) : lit p s = Some r → s = p +:+ r.
Proof.
  revert s. induction p as [|c p IH]; intros s; cbn [lit]; [by intros [= ->]|].
  destruct s as [|c' s]; [done|]. destruct (Ascii.eqb_spec c c') as [->|]; [|done].
  intros H. by rewrite (IH s H).
Qed.

Lemma iso_shaped_no_brace (d : string) : iso_shaped d → no_char "{" d = true.
Proof.
  unfold iso_shaped, iso_date_shape. intros H.
  destruct (digits_n 4 d) as [[y r1]|] eqn:E1; cbn [mbind option_bind] in H; [|done].
  destruct (lit "-" r1) as [r2|] eqn:E2; cbn [mbind option_bind] in H; [|done].
  destruct (digits_n 2 r2) as [[m r3]|] eqn:E3; cbn [mbind option_bind] in H; [|done].
  destruct (lit "-" r3) as [r4|] eqn:E4; cbn [mbind option_bind] in H; [|done].
  destruct (digits_n 2 r4) as [[dd r5]|] eqn:E5; cbn [mbind option_bind] in H; [|done].
  injection H as Hd ->.
  destruct (digits_n_digits _ _ _ _ E1) as [Hy _], (digits_n_digits _ _ _ _ E3) as [Hm _],
    (digits_n_digits _ _ _ _ E5) as [Hdd _].
  rewrite <- Hd.
  rewrite !no_char_app, !(factor_text_no_brace _ (digits_factor _ Hy)),
    !(factor_text_no_brace _ (digits_factor _ Hm)),
    !(factor_text_no_brace _ (digits_factor _ Hdd)). done.
Qed.

Lemma span_app (cls : ascii → bool) (a : string) (c : ascii) (r : string) :
  str_forallb cls a = true → cls c = false →
  span cls (a +:+ String c r) = (a, String c r).
Proof.
  intros Ha Hc. induction a as [|x a IH].
  - change ("" +:+ String c r) with (String c r). cbn [span]. by rewrite Hc.
  - cbn [str_forallb] in Ha. apply andb_prop in Ha as [Hx Ha].
    change (String x a +:+ String c r) with (String x (a +:+ String c r)).
    cbn [span]. by rewrite Hx, (IH Ha).
Qed.

(** The pattern at the brace of a written line. *)
Lemma match_pair_line (d F rest : string) :
  iso_shaped d →
  (str_forallb factor_char F = true → F ≠ "" →
   match_pair ("{ date: '" +:+ d +:+ "', factor: " +:+ F +:+ " }," +:+ rest)
   = Some (d, F, "," +:+ rest)) ∧
  (∀ c F', F = String c F' → factor_char c = false → is_space c = false →
   match_pair ("{ date: '" +:+ d +:+ "', factor: " +:+ F +:+ " }," +:+ rest) = None).
Proof.
  intros Hd.
  assert (Hhead : ∀ tail,
            match_pair ("{ date: '" +:+ d +:+ "', factor: " +:+ tail)
            = (let '(g2, r) := span factor_char (lstrip is_space (" " +:+ tail)) in
               if String.eqb g2 "" then None
               else r ← ws_lit "}" r; Some (d, g2, r))).
  { intros tail. unfold match_pair.
    change (lit "{" ("{ date: '" +:+ d +:+ "', factor: " +:+ tail))
      with (Some (" date: '" +:+ d +:+ "', factor: " +:+ tail)).
    cbn [mbind option_bind].
    change (ws_lit "date" (" date: '" +:+ d +:+ "', factor: " +:+ tail))
      with (Some (": '" +:+ d +:+ "', factor: " +:+ tail)).
    cbn [mbind option_bind].
    change (ws_lit ":" (": '" +:+ d +:+ "', factor: " +:+ tail))
      with (Some (" '" +:+ d +:+ "', factor: " +:+ tail)).
    cbn [mbind option_bind].
    change (quote (lstrip is_space (" '" +:+ d +:+ "', factor: " +:+ tail)))
      with (Some (d +:+ "', factor: " +:+ tail)).
    cbn [mbind option_bind].
    rewrite (iso_date_shape_app d _ Hd). cbn [mbind option_bind].
    change (quote ("', factor: " +:+ tail)) with (Some (", factor: " +:+ tail)).
    cbn [mbind option_bind].
    change (ws_lit "," (", factor: " +:+ tail)) with (Some (" factor: " +:+ tail)).
    cbn [mbind option_bind].
    change (ws_lit "factor" (" factor: " +:+ tail)) with (Some (": " +:+ tail)).
    cbn [mbind option_bind].
    change (ws_lit ":" (": " +:+ tail)) with (Some (" " +:+ tail)).
    cbn [mbind option_bind]. done. }
  split.
  - intros HF Hne. rewrite Hhead.
    destruct F as [|c F']; [done|]. cbn [str_forallb] in HF.
    pose proof HF as HF0. apply andb_prop in HF as [Hc HF'].
    destruct (factor_char_plain c Hc) as [Hsp _].
    change (lstrip is_space (" " +:+ String c F' +:+ " }," +:+ rest))
      with (lstrip is_space (String c (F' +:+ " }," +:+ rest))).
    cbn [lstrip]. rewrite Hsp.
    change (String c (F' +:+ " }," +:+ rest)) with (String c F' +:+ String " " ("}," +:+ rest)).
    rewrite span_app by done. cbv iota.
    change (String.eqb (String c F') "") with false. cbv iota.
    change (ws_lit "}" (String " " ("}," +:+ rest))) with (Some ("," +:+ rest)). done.
  - intros c F' -> Hc Hsp. rewrite Hhead.
    change (lstrip is_space (" " +:+ String c F' +:+ " }," +:+ rest))
      with (lstrip is_space (String c (F' +:+ " }," +:+ rest))).
    cbn [lstrip]. rewrite Hsp. cbn [span]. rewrite Hc. done.
Qed.

Lemma match_pair_brace (c : ascii) (s : string) :
  Ascii.eqb c "{" = false → match_pair (String c s) = None.
Proof.
  intros Hc. unfold match_pair. cbn [lit].
  destruct (Ascii.eqb_spec "{"%char c) as [<-|]; [discriminate Hc|done].
Qed.

(** The scan passes over a text without a brace. *)
Lemma finditer_no_brace (a r : string) :
  no_char "{" a = true → finditer_from O (a +:+ r) = finditer_from O r.
Proof.
  induction a as [|c a IH]; [done|]. cbn [no_char]. intros [Hc Ha]%andb_prop.
  change (String c a +:+ r) with (String c (a +:+ r)). cbn [finditer_from].
  rewrite match_pair_brace by (by apply negb_true_iff). by apply IH.
Qed.

(** The scan resumes after the characters of a match. *)
Lemma finditer_skip (a r : string) :
  finditer_from (String.length a) (a +:+ r) = finditer_from O r.
Proof.
  induction a as [|c a IH]; [by destruct r|].
  change (String c a +:+ r) with (String c (a +:+ r)). cbn [String.length finditer_from].
  apply IH.
Qed.

Lemma decimal_text_unsigned (p : nat) (n scale : Z) :
  0 ≤ n → 0 < scale →
  decimal_text (str_of_Z (n / scale) +:+
                (if Nat.eqb p 0 then "" else "." +:+ fmt_0d p (n mod scale))).
Proof.
  intros Hn Hs.
  assert (Hq : 0 ≤ n / scale) by (by apply Z.div_pos).
  assert (Hr : 0 ≤ n mod scale) by (apply Z.mod_pos_bound; lia).
  destruct (str_of_Z_digits _ Hq) as [Hd Hne]. unfold decimal_text.
  rewrite count_char_app, str_existsb_app, (digits_no_dot _ Hd), (digits_existsb _ Hd).
  split.
  - destruct (Nat.eqb p 0); [cbn [count_char]; lia|].
    change ("." +:+ fmt_0d p (n mod scale)) with (String "." (fmt_0d p (n mod scale))).
    cbn [count_char]. rewrite (digits_no_dot _ (fmt_0d_digits p _ Hr)).
    change (Ascii.eqb "." ".") with true. cbv iota. lia.
  - destruct (str_of_Z (n / scale)); done.
Qed.

Lemma fmt_fixed_plain_reads (p : nat) (x : float) :
  f_plain x = true → is_Some (py_float (fmt_fixed p x)).
Proof.
  intros Hp. pose proof (fmt_fixed_shape p x) as [_ Hsh]. rewrite Hp in Hsh.
  destruct Hsh as [Hf _]. apply py_float_factor_text; [done|].
  assert (Hscale : 0 < 10 ^ Z.of_nat p) by (apply Z.pow_pos_nonneg; lia).
  destruct (fmt_fixed_number p x) as (s & n & Hn & [->|[[s' ->]|[Hs ->]]]); [done..|].
  rewrite Hp in Hs. destruct s; [done|]. change ("" +:+ ?a) with a.
  by apply decimal_text_unsigned.
Qed.

Lemma finditer_line (p : nat) (pr : string * float) (rest : string) :
  iso_shaped pr.1 →
  finditer_from O (("  { date: '" +:+ pr.1 +:+ "', factor: " +:+ fmt_fixed p pr.2 +:+ " },")
                   +:+ rest)
  = option_list (written_entry p pr) ++ finditer_from O rest.
Proof.
  intros Hd. destruct pr as [d x]. cbn [fst snd] in *. unfold written_entry. cbn [fst snd].
  set (F := fmt_fixed p x).
  pose proof (fmt_fixed_shape p x) as [HnoF Hsh]. fold F in HnoF, Hsh.
  assert (E : ("  { date: '" +:+ d +:+ "', factor: " +:+ F +:+ " },") +:+ rest
              = "  " +:+ String "{" ((" date: '" +:+ d +:+ "', factor: " +:+ F +:+ " }")
                                     +:+ "," +:+ rest)).
  { rewrite ?str_app_assoc. cbn [String.append]. by rewrite ?str_app_assoc. }
  rewrite E, finditer_no_brace by done. cbn [finditer_from].
  assert (E' : String "{" ((" date: '" +:+ d +:+ "', factor: " +:+ F +:+ " }")
                           +:+ "," +:+ rest)
               = "{ date: '" +:+ d +:+ "', factor: " +:+ F +:+ " }," +:+ rest).
  { rewrite ?str_app_assoc. cbn [String.append]. by rewrite ?str_app_assoc. }
  rewrite E'. destruct (match_pair_line d F rest Hd) as [Hyes Hno].
  destruct (f_plain x).
  - destruct Hsh as [HF Hne]. rewrite (Hyes HF Hne). cbn [option_list app].
    f_equal. rewrite <- E'. clear E E' Hyes Hno.
    set (a := " date: '" +:+ d +:+ "', factor: " +:+ F +:+ " }").
    set (r := "," +:+ rest). cbn [String.length]. rewrite str_length_app.
    replace (S (String.length a + String.length r) - String.length r - 1)%nat
      with (String.length a) by lia.
    rewrite finditer_skip. by apply (finditer_no_brace ",").
  - destruct Hsh as (c & F' & HF & Hc & Hsp). rewrite (Hno c F' HF Hc Hsp).
    cbn [option_list app]. rewrite <- (finditer_no_brace "," rest) by done.
    apply finditer_no_brace.
    rewrite !no_char_app, HnoF, (iso_shaped_no_brace d Hd). done.
Qed.

Lemma finditer_lines (p : nat) (pairs : list (string * float)) (tail : string) :
  Forall (λ pr, iso_shaped pr.1) pairs →
  finditer_from O
    (join_lines (map (λ pr : string * float,
                        "  { date: '" +:+ pr.1 +:+ "', factor: " +:+
                        fmt_fixed p pr.2 +:+ " },") pairs) +:+ tail)
  = omap (written_entry p) pairs ++ finditer_from O tail.
Proof.
  induction 1 as [|pr pairs Hd Hl IH]; [done|].
  cbn [map join_lines]. destruct pairs as [|pr' pairs].
  - cbn [map omap list_omap]. rewrite (finditer_line p pr tail Hd).
    by destruct (written_entry p pr).
  - cbn [map] in *. rewrite str_app_assoc, (finditer_line p pr _ Hd).
    rewrite str_app_assoc, (finditer_no_brace nl) by done. rewrite IH.
    cbn [omap list_omap]. by destruct (written_entry p pr).
Qed.

Lemma finditer_serialize_js (cfg : Config) (const_name : string)
    (pairs : list (string * float)) :
  no_char "{" const_name = true → Forall (λ pr, iso_shaped pr.1) pairs →
  finditer (serialize_js cfg const_name pairs) = omap (written_entry (DECIMALS_JS cfg)) pairs.
Proof.
  intros Hn Hp. unfold finditer, serialize_js. cbv zeta.
  rewrite (finditer_no_brace "const ") by done.
  rewrite (finditer_no_brace const_name) by done.
  rewrite (finditer_no_brace " = [") by done.
  rewrite (finditer_no_brace nl) by done.
  rewrite (finditer_lines _ pairs _ Hp).
  replace (finditer_from O (nl +:+ "];" +:+ nl)) with (@nil (string * string))
    by (vm_compute; reflexivity).
  apply app_nil_r.
Qed.

(** X16. What the reader finds in a file the writer wrote, for pairs
    with dates of the ISO shape under a constant name without a brace:
    the date and the written factor of every pair whose factor is zero or
    a positive finite number, in order, and nothing of a pair whose
    factor is negative, a negative zero, [nan] or infinite, because its
    text does not begin with a digit or a dot. The reader never raises on
    such a file. *)
Theorem read_back_written (cfg : Config) (fs : files) (path const_name : string)
    (pairs : list (string * float)) :
  no_char "{" const_name = true → Forall (λ pr, iso_shaped pr.1) pairs →
  finditer (serialize_js cfg const_name pairs)
    = omap (written_entry (DECIMALS_JS cfg)) pairs ∧
  ∃ out, read_js_pairs (<[path := serialize_js cfg const_name pairs]> fs) path = Ok out ∧
         out.*1 ≡ₚ (filter (λ pr, f_plain pr.2 = true) pairs).*1.
Proof.
  intros Hn Hp. split; [by apply finditer_serialize_js|].
  unfold read_js_pairs. rewrite lookup_insert_eq.
  rewrite (finditer_serialize_js cfg const_name pairs Hn Hp).
  destruct (rmapM_float_Ok (omap (written_entry (DECIMALS_JS cfg)) pairs))
    as (out & -> & Hfst).
  - apply Forall_forall. intros m (pr & Hin & Hm)%list_elem_of_omap.
    unfold written_entry in Hm. destruct (f_plain pr.2) eqn:Epl; [|done].
    injection Hm as <-. cbn [snd]. by apply fmt_fixed_plain_reads.
  - cbn [mbind result_bind]. eexists. split; [done|].
    etrans; [apply fmap_Permutation, py_sorted_perm|]. rewrite Hfst.
    clear. induction pairs as [|pr pairs IH]; [done|].
    cbn [omap list_omap]. rewrite filter_cons. unfold written_entry at 1.
    destruct (f_plain pr.2) eqn:E.
    + rewrite decide_True by done. cbn. by rewrite IH.
    + rewrite decide_False by done. done.
Qed.

Lemma read_back_written_witness :
  finditer (serialize_js CONFIG "selicFactors" (to_pairs items_with_negative))
    = omap (written_entry 6) (to_pairs items_with_negative) ∧
  ∃ out, read_js_pairs (<["./selic_data.js" :=
                          serialize_js CONFIG "selicFactors" (to_pairs items_with_negative)]> ∅)
           "./selic_data.js" = Ok out ∧
         out.*1 ≡ₚ (filter (λ pr, f_plain pr.2 = true) (to_pairs items_with_negative)).*1.
Proof.
  apply (read_back_written CONFIG ∅ "./selic_data.js" "selicFactors"
           (to_pairs items_with_negative)).
  - reflexivity.
  - apply (bool_decide_unpack _). vm_compute. exact I.
Defined.

(** ** The dates the normalizer writes *)

Lemma digits_n_exact (a r : string) :
  str_forallb is_digit a = true → digits_n (String.length a) (a +:+ r) = Some (a, r).
Proof.
  induction a as [|c a IH]; [done|]. cbn [str_forallb]. intros [Hc Ha]%andb_prop.
  change (String c a +:+ r) with (String c (a +:+ r)). cbn [String.length digits_n].
  by rewrite Hc, (IH Ha).
Qed.

Lemma month_start_iso_shaped (d : date) :
  valid_date d = true → 1000 ≤ year d → iso_shaped (strftime_month_start d).
Proof.
  intros Hv Hk. destruct (valid_date_bounds d Hv) as (Hy & Hm & _).
  destruct (year_text (year d) Hy) as (Ly & _), (month_number_text (month d) Hm) as (Lm & _).
  unfold iso_shaped, iso_date_shape, strftime_month_start.
  rewrite (strftime_Y_padded (year d)) by lia.
  rewrite <- Ly at 1. rewrite digits_n_exact by (apply fmt_0d_digits; lia).
  cbn [mbind option_bind].
  change (lit "-" ("-" +:+ ?s)) with (Some s). cbn [mbind option_bind].
  rewrite <- Lm at 1. rewrite digits_n_exact by (apply fmt_0d_digits; lia).
  cbn [mbind option_bind]. done.
Qed.

Lemma to_pairs_iso_shaped (items : list item) :
  Forall from_year_1000 items → Forall (λ pr, iso_shaped pr.1) (to_pairs items).
Proof.
  intros Hall. apply Forall_forall. intros pr (it & Hit & Hp)%to_pairs_elem.
  rewrite Forall_forall in Hall. specialize (Hall it Hit).
  unfold from_year_1000, item_date in Hall.
  unfold to_pair in Hp. destruct (data it) as [s|]; [|done].
  destruct (_ || _); [done|]. cbn [default mbind option_bind] in *. unfold id in Hp.
  destruct (strptime_dmy s) as [d|] eqn:Ed; [|done].
  destruct (py_float _); [|done]. injection Hp as <-. cbn [fst].
  apply month_start_iso_shaped; [by apply strptime_dmy_valid in Ed|by apply Hall].
Qed.

Lemma sorted_filter_fst {B : Type} (P : string * B → Prop) `{∀ x, Decision (P x)}
    (l : list (string * B)) :
  StronglySorted fst_lt l → Sorted (le_rel fst_leb) (filter P l).
Proof.
  intros Hs. apply StronglySorted_Sorted.
  induction Hs as [|x l Hs IH Hx]; [constructor|].
  rewrite filter_cons. destruct (decide (P x)); [|done].
  constructor; [done|]. apply Forall_forall. intros y [_ Hy]%list_elem_of_filter.
  rewrite Forall_forall in Hx. specialize (Hx y Hy).
  unfold le_rel, fst_leb. unfold fst_lt, str_lt in Hx.
  unfold String.leb. unfold String.ltb in Hx. by destruct (String.compare x.1 y.1).
Qed.

Lemma sorted_by_fst {B C : Type} (l1 : list (string * B)) (l2 : list (string * C)) :
  l1.*1 = l2.*1 → Sorted (le_rel fst_leb) l2 → Sorted (le_rel fst_leb) l1.
Proof.
  revert l2. induction l1 as [|x l1 IH]; intros [|y l2] E Hs;
    [constructor|discriminate E|discriminate E|].
  injection E as Ex El. apply Sorted_inv in Hs as [Hs Hhd].
  constructor; [by apply (IH l2)|].
  destruct l1 as [|x' l1], l2 as [|y' l2]; [constructor|discriminate El|discriminate El|].
  injection El as Ex' _. apply HdRel_inv in Hhd. constructor.
  unfold le_rel, fst_leb in *. by rewrite Ex, Ex'.
Qed.

Lemma written_entry_dates (p : nat) (pairs : list (string * float)) :
  (omap (written_entry p) pairs).*1 = (filter (λ pr, f_plain pr.2 = true) pairs).*1.
Proof.
  induction pairs as [|pr pairs IH]; [done|].
  cbn [omap list_omap]. rewrite filter_cons. unfold written_entry at 1.
  destruct (f_plain pr.2) eqn:E.
  - rewrite decide_True by done. cbn. by rewrite IH.
  - by rewrite decide_False by done.
Qed.

(** A sorted series is read back in its order. *)
Lemma read_back_sorted (cfg : Config) (fs : files) (path const_name : string)
    (pairs : list (string * float)) :
  no_char "{" const_name = true → Forall (λ pr, iso_shaped pr.1) pairs →
  StronglySorted fst_lt pairs →
  fs !! path = Some (serialize_js cfg const_name pairs) →
  ∃ out, read_js_pairs fs path = Ok out ∧
         out.*1 = (filter (λ pr, f_plain pr.2 = true) pairs).*1.
Proof.
  intros Hn Hp Hs Hfs. unfold read_js_pairs. rewrite Hfs.
  rewrite (finditer_serialize_js cfg const_name pairs Hn Hp).
  destruct (rmapM_float_Ok (omap (written_entry (DECIMALS_JS cfg)) pairs))
    as (out & -> & Hfst).
  - apply Forall_forall. intros m (pr & Hin & Hm)%list_elem_of_omap.
    unfold written_entry in Hm. destruct (f_plain pr.2) eqn:Epl; [|done].
    injection Hm as <-. cbn [snd]. by apply fmt_fixed_plain_reads.
  - cbn [mbind result_bind]. eexists. split; [done|].
    rewrite written_entry_dates in Hfst. rewrite py_sorted_id; [done|].
    apply (sorted_by_fst out _ Hfst). by apply sorted_filter_fst.
Qed.

(** X17. The run after a successful one reads the target without an
    exception, when the records of the candidate are dated from the year
    1000 on, so that the dates written have the shape the pattern looks
    for: the file a run that returned 0 left in the target is read back
    as the dates, in order, of the pairs of its candidate whose factor is
    zero or positive. A month the run wrote with a negative factor is
    absent from what the next run takes for the old series. *)
Theorem written_target_reads_back (w : world) (cfg : Config) (fs fs' : files)
    (start_year : Z) (nr_mode source : string) (errs : list string) :
  (no_char "{" (SELIC_JS_CONST_NAME cfg) = true → String.eqb source "1178" = false →
   update_selic w cfg fs start_year nr_mode source = Returned 0 errs fs' →
   ∃ items,
     fetch_sgs_series w (SGS_SERIE_SELIC_MENSAL cfg) start_year None = Ok items ∧
     (Forall from_year_1000 items →
      ∃ out, read_js_pairs fs' (join_root cfg (SELIC_JS_NAME cfg)) = Ok out ∧
             out.*1 = (filter (λ pr, f_plain pr.2 = true) (to_pairs items)).*1)) ∧
  (no_char "{" (POUP_JS_CONST_NAME cfg) = true →
   update_poupanca w cfg fs start_year nr_mode = Returned 0 errs fs' →
   ∃ items,
     poupanca_items w cfg start_year = Ok items ∧
     (Forall from_year_1000 items →
      ∃ out, read_js_pairs fs' (join_root cfg (POUP_JS_NAME cfg)) = Ok out ∧
             out.*1 = (filter (λ pr, f_plain pr.2 = true) (to_pairs items)).*1)).
Proof.
  split.
  - intros Hn Hs. unfold update_selic. rewrite Hs.
    destruct (ensure_dirs w cfg fs) as [[]| |]; cbn [run_with]; [|done..].
    destruct (fetch_sgs_series w _ start_year None) as [items| |]; cbn [run_with]; [|done..].
    destruct items as [|it l]; [done|]. intros Hp.
    apply persist_success in Hp as (_ & _ & Ht & _).
    exists (it :: l). split; [done|]. intros Hy.
    exact (read_back_sorted cfg fs' _ _ (to_pairs (it :: l)) Hn
             (to_pairs_iso_shaped _ Hy) (to_pairs_sorted _) Ht).
  - intros Hn. unfold update_poupanca.
    destruct (ensure_dirs w cfg fs) as [[]| |]; cbn [run_with]; [|done..].
    destruct (poupanca_items w cfg start_year) as [items| |]; cbn [run_with]; [|done..].
    destruct items as [|it l]; [done|]. intros Hp.
    apply persist_success in Hp as (_ & _ & Ht & _).
    exists (it :: l). split; [done|]. intros Hy.
    exact (read_back_sorted cfg fs' _ _ (to_pairs (it :: l)) Hn
             (to_pairs_iso_shaped _ Hy) (to_pairs_sorted _) Ht).
Qed.

Lemma written_target_reads_back_witness :
  ∃ items,
    fetch_sgs_series world_ok "4390" 2020 None = Ok items ∧
    (Forall from_year_1000 items →
     ∃ out, read_js_pairs first_run_files "./selic_data.js" = Ok out ∧
            out.*1 = (filter (λ pr, f_plain pr.2 = true) (to_pairs items)).*1).
Proof.
  apply (proj1 (written_target_reads_back world_ok CONFIG ∅ first_run_files
                  2020 "strict" "4390" [])).
  - reflexivity.
  - reflexivity.
  - exact world_ok_first_run.
Defined.

(** ** Restoring and verifying against the last backup *)

Lemma leb_desc_total (x y : string) : String.leb y x = false → String.leb x y = true.
Proof. intros H. destruct (str_le_total x y) as [H'|H']; [done|]. unfold str_le in H'. congruence. Qed.

Lemma leb_desc_trans (x y z : string) :
  String.leb y x = true → String.leb z y = true → String.leb z x = true.
Proof. intros H1 H2. by apply (str_le_trans z y x). Qed.

(** The first of the sorted backups is the greatest path. *)
Lemma backups_head (l : list string) (h : string) (rest : list string) :
  py_sorted (λ a b, String.leb b a) l = h :: rest →
  h ∈ l ∧ ∀ y, y ∈ l → str_le y h.
Proof.
  intros E.
  pose proof (py_sorted_perm (λ a b, String.leb b a) l) as Hp.
  pose proof (py_sorted_sorted (λ a b, String.leb b a) leb_desc_total leb_desc_trans l) as Hs.
  rewrite E in Hp, Hs. split.
  - rewrite <- Hp. left.
  - intros y Hy. rewrite <- Hp in Hy. apply elem_of_cons in Hy as [->|Hy].
    + apply str_le_refl.
    + apply StronglySorted_inv in Hs as [_ Hall]. rewrite Forall_forall in Hall.
      exact (Hall y Hy).
Qed.

Lemma path_join_plain (a : string) :
  ∃ p, ∀ y, starts_with_slash y = false → path_join a y = p +:+ y.
Proof.
  unfold path_join. destruct (last_char a) as [c|].
  - destruct (Ascii.eqb c "/").
    + exists a. by intros y ->.
    + exists (a +:+ "/"). intros y ->. by rewrite str_app_assoc.
  - exists "". by intros y ->.
Qed.

Lemma filter_none {A : Type} (P : A → Prop) `{∀ x, Decision (P x)} (l : list A) :
  (∀ x, x ∈ l → ¬ P x) → filter P l = [].
Proof.
  induction l as [|x l IH]; intros Hn; [done|]. rewrite filter_cons.
  rewrite decide_False by (apply Hn; left). apply IH. intros y Hy. apply Hn. by right.
Qed.

Lemma str_le_app_prefix (p s t : string) : str_le (p +:+ s) (p +:+ t) ↔ str_le s t.
Proof. unfold str_le, String.leb. by rewrite str_compare_app_prefix. Qed.

(** The greatest name gives the first of the sorted backups. *)
Lemma backups_of_greatest (cfg : Config) (listing : list string) (target_name b : string) :
  Forall (λ x, starts_with_slash x = false) listing →
  b ∈ listing → String.prefix target_name b = true →
  (∀ x, x ∈ listing → String.prefix target_name x = true → str_le x b) →
  ∃ rest, backups_of cfg listing target_name = path_join (BACKUP_DIR cfg) b :: rest.
Proof.
  intros Hsl Hb Hpb Hmax. unfold backups_of.
  set (cands := filter (λ x, String.prefix target_name x = true) listing).
  set (paths := map (path_join (BACKUP_DIR cfg)) cands).
  assert (Hbp : path_join (BACKUP_DIR cfg) b ∈ paths).
  { apply list_elem_of_fmap. exists b. split; [done|]. by apply list_elem_of_filter. }
  destruct (py_sorted (λ a c, String.leb c a) paths) as [|h rest] eqn:E.
  { pose proof (py_sorted_perm (λ a c, String.leb c a) paths) as Hp. rewrite E in Hp.
    apply Permutation_nil_l in Hp. rewrite <- Hp in Hbp. by apply elem_of_nil in Hbp. }
  exists rest. f_equal. destruct (backups_head paths h rest E) as [Hh Hall].
  apply list_elem_of_fmap in Hh as (x & -> & [Hpx Hx]%list_elem_of_filter).
  destruct (path_join_plain (BACKUP_DIR cfg)) as [p Hp].
  rewrite Forall_forall in Hsl.
  apply str_le_antisym.
  - rewrite !Hp by (by apply Hsl). apply str_le_app_prefix. by apply Hmax.
  - by apply Hall.
Qed.

(** X18. [restore_last] restores the backup whose name is the greatest:
    among the names of the backup directory that begin with the target
    name, none of which begins with a slash, let [b] be one that no other
    exceeds. If its file exists, is not the target itself and the copy
    meets no fault, the call returns 0, reports nothing and leaves the
    content of that backup in the target, every other file as it was.
    Without a backup directory, or without a name that begins with the
    target name, it returns 1 and changes nothing. *)
Theorem restore_last_latest (w : world) (cfg : Config) (fs : files)
    (listing : list string) (target_name b content : string) :
  (restore_last w cfg fs None target_name = (1, [], fs)) ∧
  ((∀ x, x ∈ listing → String.prefix target_name x = false) →
   restore_last w cfg fs (Some listing) target_name = (1, [], fs)) ∧
  (Forall (λ x, starts_with_slash x = false) listing →
   b ∈ listing → String.prefix target_name b = true →
   (∀ x, x ∈ listing → String.prefix target_name x = true → str_le x b) →
   fs !! path_join (BACKUP_DIR cfg) b = Some content →
   path_join (BACKUP_DIR cfg) b ≠ join_root cfg target_name →
   restore_fault w = NoFault →
   restore_last w cfg fs (Some listing) target_name
   = (0, [], <[join_root cfg target_name := content]> fs)).
Proof.
  split; [done|]. split.
  - intros Hnone. unfold restore_last, backups_of.
    rewrite filter_none; [done|]. intros x Hx. rewrite (Hnone x Hx). done.
  - intros Hsl Hb Hpb Hmax Hc Hne Hr. unfold restore_last.
    destruct (backups_of_greatest cfg listing target_name b Hsl Hb Hpb Hmax) as [rest ->].
    unfold restore_backup, copy2. rewrite Hc, Hr. by rewrite decide_False.
Qed.

Lemma restore_last_latest_witness :
  restore_last world_ok CONFIG files_two_backups None "selic_data.js"
    = (1, [], files_two_backups) ∧
  restore_last world_ok CONFIG files_two_backups (Some listing_two_backups) "selic_data.js"
    = (0, [], <["./selic_data.js" := old_selic_js]> files_two_backups).
Proof.
  destruct (restore_last_latest world_ok CONFIG files_two_backups listing_two_backups
              "selic_data.js" "selic_data.js.2021-06-01_000000.bak" old_selic_js)
    as (H1 & _ & H3).
  split; [exact H1|]. apply H3.
  - repeat constructor.
  - unfold listing_two_backups. do 2 right. left.
  - reflexivity.
  - intros x Hx Hp. unfold listing_two_backups in Hx.
    repeat (apply elem_of_cons in Hx as [->|Hx]); [reflexivity|discriminate Hp|reflexivity|].
    inversion Hx.
  - unfold files_two_backups. apply lookup_insert_eq.
  - discriminate.
  - reflexivity.
Defined.

Lemma nr_ok_self (cfg : Config) (series : list (string * float)) (mode : string) :
  nr_ok (non_regression cfg series series mode) = true.
Proof.
  unfold non_regression. fold (nr_key mode).
  rewrite difference_diag_L, elements_empty. cbn [py_sorted foldr].
  destruct (TREAT_CHANGED_OLD_VALUES_AS_ERROR cfg); [|done].
  rewrite omap_all_None; [done|]. intros [k v] Hin. cbn [fst snd].
  assert (Hget : dict_get k (key_map (nr_key mode) series) = Some v).
  { apply dict_get_Some; [apply dict_of_pairs_NoDup|done]. }
  rewrite Hget. by rewrite float_self_difference.
Qed.

Lemma read_js_pairs_content (fs1 fs2 : files) (p1 p2 : string) :
  fs1 !! p1 = fs2 !! p2 → read_js_pairs fs1 p1 = read_js_pairs fs2 p2.
Proof. unfold read_js_pairs. by intros ->. Qed.

(** X19. After [restore_last] has returned 0, [verify] on the same
    backup directory passes in every mode, provided the restored file can
    be read: the target then holds the content of the very backup
    [verify] compares it with. *)
Theorem verify_after_restore (w : world) (cfg : Config) (fs fs' : files)
    (listing : list string) (target_name nr_mode : string) (errs : list string)
    (pairs : list (string * float)) :
  restore_last w cfg fs (Some listing) target_name = (0, errs, fs') →
  read_js_pairs fs' (join_root cfg target_name) = Ok pairs →
  verify cfg fs' (Some listing) target_name nr_mode = Ok (0, []).
Proof.
  unfold restore_last, verify. intros Hr Hread. rewrite Hread. cbn [mbind result_bind].
  destruct (backups_of cfg listing target_name) as [|last rest]; [done|].
  unfold restore_backup, copy2 in Hr.
  destruct (fs !! last) as [c|] eqn:Ec; [|done].
  destruct (decide (last = join_root cfg target_name)) as [|Hne]; [done|].
  destruct (restore_fault w); [|done..]. injection Hr as <- <-.
  rewrite (read_js_pairs_content _ (<[join_root cfg target_name := c]> fs)
             last (join_root cfg target_name)), Hread.
  - cbn [mbind result_bind]. by rewrite nr_ok_self.
  - by rewrite lookup_insert_ne, lookup_insert_eq.
Qed.

Lemma restore_two_backups :
  restore_last world_ok CONFIG files_two_backups (Some listing_two_backups) "selic_data.js"
  = (0, [], <["./selic_data.js" := old_selic_js]> files_two_backups).
Proof.
  unfold restore_last.
  replace (backups_of CONFIG listing_two_backups "selic_data.js")
    with ["./backups/selic_data.js.2021-06-01_000000.bak";
          "./backups/selic_data.js.2021-01-01_000000.bak"] by (vm_compute; reflexivity).
  unfold restore_backup, copy2, files_two_backups. rewrite lookup_insert_eq.
  change (join_root CONFIG "selic_data.js") with "./selic_data.js".
  rewrite decide_False by discriminate. reflexivity.
Qed.

Lemma verify_after_restore_witness :
  verify CONFIG (<["./selic_data.js" := old_selic_js]> files_two_backups)
    (Some listing_two_backups) "selic_data.js" "strict" = Ok (0, []).
Proof.
  apply (verify_after_restore world_ok CONFIG files_two_backups _ listing_two_backups
           "selic_data.js" "strict" [] [("2020-01-15", float_of_decimal false 15 (-3))]).
  - exact restore_two_backups.
  - unfold read_js_pairs. change (join_root CONFIG "selic_data.js") with "./selic_data.js".
    rewrite lookup_insert_eq. vm_compute. reflexivity.
Defined.

(** ** The table update of [updatetjsp.py] *)

Lemma atualizar_tabela_cons {V : Type} (e : list (string * V)) (k : string) (v : V)
    (n : list (string * V)) :
  atualizar_tabela e ((k, v) :: n)
  = atualizar_tabela (match dict_get k e with Some _ => e | None => e ++ [(k, v)] end) n.
Proof.
  unfold atualizar_tabela. cbn [fold_left fst snd].
  destruct (dict_get k e) eqn:E; [done|].
  by rewrite dict_set_fresh by (by apply dict_get_None).
Qed.

Lemma atualizar_tabela_get {V : Type} (e n : list (string * V)) (k : string) :
  dict_get k (atualizar_tabela e n)
  = match dict_get k e with Some v => Some v | None => dict_get k n end.
Proof.
  revert e. induction n as [|[k0 v0] n IH]; intros e.
  - change (atualizar_tabela e []) with e. by destruct (dict_get k e).
  - rewrite atualizar_tabela_cons, IH. cbn [dict_get].
    destruct (dict_get k0 e) as [v1|] eqn:E0.
    + destruct (dict_get k e) eqn:E; [done|].
      destruct (decide (k = k0)) as [->|]; [congruence|done].
    + rewrite dict_get_app. cbn [dict_get].
      destruct (dict_get k e) eqn:E; [done|]. by destruct (decide (k = k0)).
Qed.

Lemma atualizar_tabela_prefix {V : Type} (e n : list (string * V)) :
  ∃ added, atualizar_tabela e n = e ++ added ∧ added ⊆ n.
Proof.
  revert e. induction n as [|[k0 v0] n IH]; intros e.
  - exists []. split; [by rewrite app_nil_r|done].
  - rewrite atualizar_tabela_cons. destruct (dict_get k0 e).
    + destruct (IH e) as (added & -> & Hsub). exists added. split; [done|].
      intros x Hx. right. by apply Hsub.
    + destruct (IH (e ++ [(k0, v0)])) as (added & -> & Hsub).
      exists ((k0, v0) :: added). split; [by rewrite <- app_assoc|].
      intros x [->|Hx]%elem_of_cons; [left|right; by apply Hsub].
Qed.

Lemma atualizar_tabela_known {V : Type} (e n : list (string * V)) :
  (∀ k, k ∈ n.*1 → is_Some (dict_get k e)) → atualizar_tabela e n = e.
Proof.
  induction n as [|[k0 v0] n IH]; intros Hk; [done|].
  rewrite atualizar_tabela_cons. destruct (Hk k0) as [v ->]; [left|].
  apply IH. intros k Hin. apply Hk. by right.
Qed.

(** X20. [atualizar_tabela] only adds: the result begins with the
    existing table as it was and goes on with entries of the new table;
    a key the existing table has keeps its value, a key it lacks gets the
    value of the new table; and updating the result with the same new
    table again changes nothing. *)
Theorem atualizar_tabela_add_only {V : Type} (tabela_existente tabela_nova : list (string * V)) :
  (∃ added, atualizar_tabela tabela_existente tabela_nova = tabela_existente ++ added ∧
            added ⊆ tabela_nova) ∧
  (∀ k, dict_get k (atualizar_tabela tabela_existente tabela_nova)
        = match dict_get k tabela_existente with
          | Some v => Some v
          | None => dict_get k tabela_nova
          end) ∧
  atualizar_tabela (atualizar_tabela tabela_existente tabela_nova) tabela_nova
  = atualizar_tabela tabela_existente tabela_nova.
Proof.
  split; [apply atualizar_tabela_prefix|]. split; [apply atualizar_tabela_get|].
  apply atualizar_tabela_known. intros k Hk. rewrite atualizar_tabela_get.
  destruct (dict_get k tabela_existente); [by eexists|].
  destruct (dict_get k tabela_nova) eqn:E; [by eexists|].
  by apply dict_get_None in E.
Qed.

(** ** The common part on a candidate of floats *)








(** ** A rate below -100 percent *)

(** X22. A record of the daily series whose rate is below -100 percent a
    year is not skipped: the base of the power is negative, Python answers
    with a complex number, nothing is raised, and the factor of the day is
    complex. The run writes it as complex text, which the reader of the
    persisted file does not take for an entry: in a world whose daily
    series is one record of -200 percent, the run returns 0 and the next
    run reads an empty old series from the file it left. *)
Theorem daily_factor_complex (w : world) (it : item) (s r : string) (d : date)
    (v : float) (m : positive) (e : Z) :
  (data it = Some s → s ≠ "" → strptime_dmy s = Some d →
   valor it = Some r → r ≠ "" → py_float (py_strip (replace_comma r)) = Some v →
   f_add f_one (f_div v f_100) = S754_finite true m e →
   daily_factor w it
   = Some (month_key_iso d,
           Cplx (f_sub (complex_pow w (S754_finite true m e) (f_div f_one f_252)).1 f_one)
                (f_sub (complex_pow w (S754_finite true m e) (f_div f_one f_252)).2
                   (S754_zero false)))) ∧
  (∃ re im,
     fetch_selic1178_monthly_pairs world_minus_200 CONFIG 2020
     = Ok [("2020-01-01", Cplx re im)]) ∧
  (∃ fs',
     update_selic world_minus_200 CONFIG ∅ 2020 "month" "1178" = Returned 0 [] fs' ∧
     fs' !! "./selic_data.js" = Some complex_selic_js ∧
     read_js_pairs fs' "./selic_data.js" = Ok []).
Proof.
  split; [|split].
  - intros Hs Hne Hd Hr Hnr Hv Hb. unfold daily_factor. rewrite Hs, Hr.
    cbn [truthy default]. apply String.eqb_neq in Hne, Hnr. rewrite Hne, Hnr.
    cbn [negb orb]. unfold id. rewrite Hd, Hv. unfold py_pow. rewrite Hb.
    by destruct (complex_pow w _ _) as [re im].
  - eexists _, _. vm_compute. reflexivity.
  - eexists. split; [vm_compute; reflexivity|]. split; vm_compute; reflexivity.
Qed.

Lemma daily_factor_complex_witness :
  ∃ re im, daily_factor world_minus_200 rec_minus_200 = Some ("2020-01", Cplx re im).
Proof.
  eexists _, _.
  refine (eq_trans (proj1 (daily_factor_complex world_minus_200 rec_minus_200
                             "02/01/2020" "-200,00" (mkdate 2020 1 2)
                             (float_of_decimal true 200 0) 4503599627370496 (-52))
                      eq_refl _ _ eq_refl _ _ _) _).
  - discriminate.
  - vm_compute. reflexivity.
  - discriminate.
  - vm_compute. reflexivity.
  - vm_compute. reflexivity.
  - vm_compute. reflexivity.
Defined.
